(** * IndCat: the catalog cache of [app.py]

    A shallow embedding of the cache subsystem of the IndCat Stremio addon:
    the fetch run [fetch_and_cache_movies], the conversion
    [to_stremio_meta], the configuration codec [encode_user_config] /
    [decode_user_config] and the [catalog] request handler, together with
    the properties the specification states about them; and, beyond the
    specification, the handlers [configure_post], [manifest] and
    [refresh] with the thread the last one starts.

    A value that comes out of [json.loads] is a [json].  A Python [str]
    is the byte string of its UTF-8 encoding (a lone surrogate, which a
    [str] may hold, is written with the three bytes the same scheme gives
    it), and [bytes] are byte strings as well.  Exceptions are explicit:
    an expression gives a value or raises, and [try ... except] is a
    combinator.

    Limits of the interpreter are part of the model where the data
    decide whether they are met: the 4300 digits beyond which the
    conversions between [int] and [str] raise (the default of
    [sys.set_int_max_str_digits]), and the room the JSON encoder and
    scanner have for nested containers.  A [print] raises when the
    stream cannot encode a character of its text.  What does not depend
    on the data is left out: the depth of the program's own calls,
    memory, and failures of the stream other than of its encoding. *)

From Stdlib Require Import ZArith NArith Ascii String List Lia Bool.
From Stdlib Require Import DecimalString DecimalZ DecimalPos DecimalFacts.
From stdpp Require Import base option list strings gmap.

Local Open Scope string_scope.
Local Open Scope list_scope.
Local Open Scope Z_scope.

#[local] Arguments String.append : simpl nomatch.

(** ** Outcomes *)

(** Outcome of a Python expression: a value, or a raised [Exception]. *)
Inductive res (A : Type) :=
| Val (a : A)
| Exn.
Arguments Val {A} a.
Arguments Exn {A}.

Definition res_bind {A B} (r : res A) (k : A -> res B) : res B :=
  match r with
  | Val a => k a
  | Exn => Exn
  end.

Definition res_map {A B} (f : A -> B) (r : res A) : res B :=
  match r with
  | Val a => Val (f a)
  | Exn => Exn
  end.

(** ** Bytes, UTF-8 *)

Definition code (c : ascii) : N := N_of_ascii c.
Definition chr (n : N) : ascii := ascii_of_N n.

(** The UTF-8 bytes of one code point (a surrogate gets the three bytes
    the scheme gives any code point of its size). *)
Definition utf8_encode_cp (c : N) : string :=
  (if c <? 0x80 then String (chr c) ""
   else if c <? 0x800 then
     String (chr (0xC0 + c / 64)) (String (chr (0x80 + c mod 64)) "")
   else if c <? 0x10000 then
     String (chr (0xE0 + c / 4096))
       (String (chr (0x80 + (c / 64) mod 64)) (String (chr (0x80 + c mod 64)) ""))
   else
     String (chr (0xF0 + c / 262144))
       (String (chr (0x80 + (c / 4096) mod 64))
          (String (chr (0x80 + (c / 64) mod 64)) (String (chr (0x80 + c mod 64)) ""))))%N.

Definition utf8_encode (cps : list N) : string :=
  fold_right (fun c s => utf8_encode_cp c +:+ s) "" cps.

(** A continuation byte, [10xxxxxx]. *)
Definition is_cont (b : ascii) : bool := ((0x80 <=? code b) && (code b <? 0xC0))%N.

(** The code point at the head of the byte string [String b1 r], and how
    many bytes of [r] belong to it; a byte that starts no sequence stands
    for a value beyond every code point. *)
Definition utf8_first (b1 : ascii) (r : string) : N * nat :=
  let bad := ((0x110000 + code b1)%N, 0%nat) in
  if (code b1 <? 0x80)%N then (code b1, 0%nat)
  else if (code b1 <? 0xC0)%N then bad
  else
    match r with
    | String b2 r2 =>
        if negb (is_cont b2) then bad
        else if (code b1 <? 0xE0)%N then
          (((code b1 - 0xC0) * 64 + (code b2 - 0x80))%N, 1%nat)
        else
          match r2 with
          | String b3 r3 =>
              if negb (is_cont b3) then bad
              else if (code b1 <? 0xF0)%N then
                (((code b1 - 0xE0) * 4096 + (code b2 - 0x80) * 64
                  + (code b3 - 0x80))%N, 2%nat)
              else
                match r3 with
                | String b4 _ =>
                    if negb (is_cont b4) then bad
                    else if (code b1 <? 0xF8)%N then
                      (((code b1 - 0xF0) * 262144 + (code b2 - 0x80) * 4096
                        + (code b3 - 0x80) * 64 + (code b4 - 0x80))%N, 3%nat)
                    else bad
                | "" => bad
                end
          | "" => bad
          end
    | "" => bad
    end.

(** The code points a byte string spells. *)
Fixpoint utf8_decode (s : string) : list N :=
  match s with
  | "" => []
  | String b1 r1 =>
      let '(c, k) := utf8_first b1 r1 in
      c :: match k, r1 with
           | 0%nat, _ => utf8_decode r1
           | 1%nat, String _ r2 => utf8_decode r2
           | 2%nat, String _ (String _ r3) => utf8_decode r3
           | 3%nat, String _ (String _ (String _ r4)) => utf8_decode r4
           | _, _ => []
           end
  end.

(** A Unicode scalar value: a code point that is no surrogate. *)
Definition is_scalar (c : N) : bool :=
  ((c <? 0xD800) || ((0xE000 <=? c) && (c <? 0x110000)))%N.

(** Well-formed UTF-8: the bytes are the encoding of scalar values. *)
Definition utf8_valid (s : string) : bool :=
  forallb is_scalar (utf8_decode s) && String.eqb (utf8_encode (utf8_decode s)) s.


(** ** Base64 ([binascii.b2a_base64] and [binascii.a2b_base64]) *)

(** The four 6-bit groups of three bytes, each as a byte below 64:
    [a >> 2], [(a & 3) << 4 | b >> 4], [(b & 15) << 2 | c >> 6],
    [c & 63].  (The first bit of [Ascii] is the lowest.) *)
Definition sextets (a b c : ascii) : ascii * ascii * ascii * ascii :=
  let 'Ascii a0 a1 a2 a3 a4 a5 a6 a7 := a in
  let 'Ascii b0 b1 b2 b3 b4 b5 b6 b7 := b in
  let 'Ascii c0 c1 c2 c3 c4 c5 c6 c7 := c in
  (Ascii a2 a3 a4 a5 a6 a7 false false,
   Ascii b4 b5 b6 b7 a0 a1 false false,
   Ascii c6 c7 b0 b1 b2 b3 false false,
   Ascii c0 c1 c2 c3 c4 c5 false false).

(** The three bytes of four 6-bit groups: [s1 << 2 | s2 >> 4],
    [(s2 & 15) << 4 | s3 >> 2], [(s3 & 3) << 6 | s4]. *)
Definition octets (s1 s2 s3 s4 : ascii) : ascii * ascii * ascii :=
  let 'Ascii p0 p1 p2 p3 p4 p5 _ _ := s1 in
  let 'Ascii q0 q1 q2 q3 q4 q5 _ _ := s2 in
  let 'Ascii r0 r1 r2 r3 r4 r5 _ _ := s3 in
  let 'Ascii t0 t1 t2 t3 t4 t5 _ _ := s4 in
  (Ascii q4 q5 p0 p1 p2 p3 p4 p5,
   Ascii r2 r3 r4 r5 q0 q1 q2 q3,
   Ascii t0 t1 t2 t3 t4 t5 r0 r1).

(** The character of a 6-bit group in the standard alphabet. *)
Definition b64_char (v : ascii) : ascii :=
  let n := code v in
  (if n <? 26 then chr (65 + n)
   else if n <? 52 then chr (97 + (n - 26))
   else if n <? 62 then chr (48 + (n - 52))
   else if n =? 62 then "+" else "/")%N%char.

(** The 6-bit group of a character, when it is in the alphabet. *)
Definition b64_value (c : ascii) : option ascii :=
  let n := code c in
  (if (65 <=? n) && (n <=? 90) then Some (chr (n - 65))
   else if (97 <=? n) && (n <=? 122) then Some (chr (n - 97 + 26))
   else if (48 <=? n) && (n <=? 57) then Some (chr (n - 48 + 52))
   else if n =? 43 then Some (chr 62)
   else if n =? 47 then Some (chr 63)
   else None)%N.

(** [base64.b64encode(bs)] *)
Fixpoint b64encode (bs : string) : string :=
  match bs with
  | "" => ""
  | String a "" =>
      let '(s1, s2, _, _) := sextets a zero zero in
      String (b64_char s1) (String (b64_char s2) "==")
  | String a (String b "") =>
      let '(s1, s2, s3, _) := sextets a b zero in
      String (b64_char s1) (String (b64_char s2) (String (b64_char s3) "="))
  | String a (String b (String c rest)) =>
      let '(s1, s2, s3, s4) := sextets a b c in
      String (b64_char s1) (String (b64_char s2)
        (String (b64_char s3) (String (b64_char s4) (b64encode rest))))
  end.

(** [binascii.a2b_base64] as [b64decode] calls it (not strict): [quad]
    holds the groups of the quad being read, [pads] the [=] seen since
    its last group.  A character outside the alphabet is skipped; enough
    [=] after two or three groups end the data; a quad left open at the
    end of the input is an error. *)
Fixpoint a2b_base64 (s : string) (quad : list ascii) (pads : nat) : res string :=
  match s with
  | "" => match quad with [] => Val "" | _ => Exn end
  | String c rest =>
      if Ascii.eqb c "=" then
        match quad with
        | [s1; s2] =>
            match pads with
            | O => a2b_base64 rest quad 1
            | S _ => let '(a, _, _) := octets s1 s2 zero zero in Val (String a "")
            end
        | [s1; s2; s3] =>
            let '(a, b, _) := octets s1 s2 s3 zero in Val (String a (String b ""))
        | _ => a2b_base64 rest quad pads
        end
      else
        match b64_value c with
        | None => a2b_base64 rest quad pads
        | Some v =>
            match quad with
            | [s1; s2; s3] =>
                let '(a, b, c) := octets s1 s2 s3 v in
                res_map (fun out => String a (String b (String c out)))
                        (a2b_base64 rest [] 0)
            | _ => a2b_base64 rest (quad ++ [v]) 0
            end
        end
  end.

Definition is_ascii (s : string) : bool :=
  forallb (fun c => (code c <? 0x80)%N) (list_ascii_of_string s).

(** [base64.b64decode(s)] for a [str]: only ASCII is accepted. *)
Definition b64decode (s : string) : res string :=
  if is_ascii s then a2b_base64 s [] 0 else Exn.


(** ** JSON values as Python objects *)

(** A Python [float]: not-a-number, an infinity, or the finite value
    [m * 2 ^ e]. *)
Inductive pyfloat :=
| FNan
| FInf (negative : bool)
| FFin (m e : Z).

#[warnings="-register-all"]
Inductive json :=
| JNull
| JBool (b : bool)
| JInt (n : Z)
| JFloat (f : pyfloat)
| JStr (s : string)
| JArr (items : list json)
| JObj (fields : list (string * json)).

(** [bool(v)] *)
Definition truthy (v : json) : bool :=
  match v with
  | JNull => false
  | JBool b => b
  | JInt n => negb (n =? 0)
  | JFloat FNan => true
  | JFloat (FInf _) => true
  | JFloat (FFin m _) => negb (m =? 0)
  | JStr s => negb (String.eqb s "")
  | JArr l => match l with [] => false | _ => true end
  | JObj kv => match kv with [] => false | _ => true end
  end.

(** Lookup in a [dict], kept as the list of its items in insertion order. *)
Fixpoint assoc (k : string) (kv : list (string * json)) : option json :=
  match kv with
  | [] => None
  | (k', v) :: rest => if String.eqb k k' then Some v else assoc k rest
  end.

(** [d[k] = v] on a [dict]: an existing key keeps its position. *)
Fixpoint assoc_set (k : string) (v : json) (kv : list (string * json))
  : list (string * json) :=
  match kv with
  | [] => [(k, v)]
  | (k', v') :: rest =>
      if String.eqb k k' then (k', v) :: rest else (k', v') :: assoc_set k v rest
  end.

(** [sub in s] for two [str]. *)
Fixpoint str_contains (sub s : string) : bool :=
  String.prefix sub s ||
  match s with
  | EmptyString => false
  | String _ rest => str_contains sub rest
  end.

Definition is_str (k : string) (v : json) : bool :=
  match v with
  | JStr s => String.eqb k s
  | _ => false
  end.

(** [v.get(k, default)]: only a [dict] has [get]. *)
Definition py_get_default (v : json) (k : string) (default : json) : res json :=
  match v with
  | JObj kv => Val (match assoc k kv with Some x => x | None => default end)
  | _ => Exn
  end.

(** [v.get(k)] *)
Definition py_get (v : json) (k : string) : res json :=
  py_get_default v k JNull.

(** [k in v] for a [str] literal [k]. *)
Definition py_in (k : string) (v : json) : res bool :=
  match v with
  | JObj kv => Val (match assoc k kv with Some _ => true | None => false end)
  | JArr l => Val (existsb (is_str k) l)
  | JStr s => Val (str_contains k s)
  | _ => Exn
  end.

(** [v[k]] for a [str] literal [k]: [KeyError] on a [dict] without [k],
    [TypeError] on everything that is not a [dict]. *)
Definition py_index (v : json) (k : string) : res json :=
  match v with
  | JObj kv => match assoc k kv with Some x => Val x | None => Exn end
  | _ => Exn
  end.

(** [v[k] = x] *)
Definition py_setitem (v : json) (k : string) (x : json) : res json :=
  match v with
  | JObj kv => Val (JObj (assoc_set k x kv))
  | _ => Exn
  end.

(** [v.startswith(p)]: only a [str] has [startswith]. *)
Definition py_startswith (v : json) (p : string) : res bool :=
  match v with
  | JStr s => Val (String.prefix p s)
  | _ => Exn
  end.

(** The one-character strings of [s]. *)
Definition chars (s : string) : list json :=
  map (fun c => JStr (utf8_encode_cp c)) (utf8_decode s).

(** The items [for x in v] walks through: the elements of a [list], the
    keys of a [dict], the pieces of a [str]; other values are not
    iterable. *)
Definition py_iter (v : json) : res (list json) :=
  match v with
  | JArr l => Val l
  | JObj kv => Val (map (fun p => JStr (fst p)) kv)
  | JStr s => Val (chars s)
  | _ => Exn
  end.

(** Numeric value of a hashable number (a [bool] is an [int]). *)
Definition num_of (v : json) : option pyfloat :=
  match v with
  | JBool b => Some (FFin (if b then 1 else 0) 0)
  | JInt n => Some (FFin n 0)
  | JFloat f => Some f
  | _ => None
  end.

Definition float_eqb (a b : pyfloat) : bool :=
  match a, b with
  | FNan, FNan => true
  | FInf x, FInf y => Bool.eqb x y
  | FFin m1 e1, FFin m2 e2 =>
      let e := Z.min e1 e2 in
      m1 * 2 ^ (e1 - e) =? m2 * 2 ^ (e2 - e)
  | _, _ => false
  end.

(** Whether two hashable values are the same [set] element.  (The only
    not-a-number [json.loads] yields is one shared object, so it is found
    again by identity.) *)
Definition key_eqb (a b : json) : bool :=
  match a, b with
  | JNull, JNull => true
  | JStr s, JStr t => String.eqb s t
  | _, _ =>
      match num_of a, num_of b with
      | Some x, Some y => float_eqb x y
      | _, _ => false
      end
  end.

(** [v in seen] for a [set] [seen]: a [list] or [dict] is unhashable. *)
Definition set_contains (seen : list json) (v : json) : res bool :=
  match v with
  | JArr _ | JObj _ => Exn
  | _ => Val (existsb (key_eqb v) seen)
  end.

(** ** [int(s)] *)

(** What [str.isspace] takes for a blank, outside the control characters
    28 to 31 (which [int] does not skip). *)
Definition py_space (c : N) : bool :=
  (((9 <=? c) && (c <=? 13)) || (c =? 32) || (c =? 0x85) || (c =? 0xA0)
   || (c =? 0x1680) || ((0x2000 <=? c) && (c <=? 0x200A)) || (c =? 0x2028)
   || (c =? 0x2029) || (c =? 0x202F) || (c =? 0x205F) || (c =? 0x3000))%N.

(** The code points of the digit zero in the decimal digit blocks of
    Unicode 14; the digits of a block follow its zero. *)
Definition decimal_zeros : list N :=
  [0x30; 0x660; 0x6F0; 0x7C0; 0x966; 0x9E6; 0xA66; 0xAE6; 0xB66; 0xBE6;
   0xC66; 0xCE6; 0xD66; 0xDE6; 0xE50; 0xED0; 0xF20; 0x1040; 0x1090; 0x17E0;
   0x1810; 0x1946; 0x19D0; 0x1A80; 0x1A90; 0x1B50; 0x1BB0; 0x1C40; 0x1C50;
   0xA620; 0xA8D0; 0xA900; 0xA9D0; 0xA9F0; 0xAA50; 0xABF0; 0xFF10; 0x104A0;
   0x10D30; 0x11066; 0x110F0; 0x11136; 0x111D0; 0x112F0; 0x11450; 0x114D0;
   0x11650; 0x116C0; 0x11730; 0x118E0; 0x11950; 0x11C50; 0x11D50; 0x11DA0;
   0x16A60; 0x16AC0; 0x16B50; 0x1D7CE; 0x1D7D8; 0x1D7E2; 0x1D7EC; 0x1D7F6;
   0x1E140; 0x1E2F0; 0x1E950; 0x1FBF0]%N.

(** The value of a decimal digit. *)
Definition decimal_value (c : N) : option Z :=
  match List.find (fun z => (z <=? c) && (c <? z + 10))%N decimal_zeros with
  | Some z => Some (Z.of_N (c - z))
  | None => None
  end.

(** Digits with single underscores between them, read from the left:
    [acc] is the value so far, [after_digit] tells that the last character
    read was a digit. *)
Fixpoint int_digits (cps : list N) (acc : Z) (after_digit : bool) : option Z :=
  match cps with
  | [] => if after_digit then Some acc else None
  | c :: rest =>
      match decimal_value c with
      | Some d => int_digits rest (10 * acc + d) true
      | None =>
          if (c =? 0x5F)%N && after_digit then int_digits rest acc false
          else None
      end
  end.

Fixpoint drop_spaces (cps : list N) : list N :=
  match cps with
  | c :: rest => if py_space c then drop_spaces rest else cps
  | [] => []
  end.

(** [sys.get_int_max_str_digits()], as the interpreter starts with. *)
Definition int_max_str_digits : nat := 4300.

(** How many decimal digits there are among [cps]. *)
Definition count_digits (cps : list N) : nat :=
  length (List.filter (fun c => match decimal_value c with Some _ => true | None => false end)
            cps).

(** [int(s)] for a [str]: blanks around, a sign, decimal digits, of
    which there are no more than the limit. *)
Definition py_int (s : string) : res Z :=
  let body := rev (drop_spaces (rev (drop_spaces (utf8_decode s)))) in
  let '(negative, digits) :=
    match body with
    | c :: rest =>
        if (c =? 0x2D)%N then (true, rest)
        else if (c =? 0x2B)%N then (false, rest)
        else (false, body)
    | [] => (false, [])
    end in
  match int_digits digits 0 false with
  | Some n =>
      if (int_max_str_digits <? count_digits digits)%nat then Exn
      else Val (if negative then - n else n)
  | None => Exn
  end.

(** [l[lo:hi]] *)
Definition py_slice {A} (l : list A) (lo hi : Z) : list A :=
  let len := Z.of_nat (length l) in
  let clamp x := if x <? 0 then Z.max (x + len) 0 else Z.min x len in
  take (Z.to_nat (clamp hi - clamp lo)) (drop (Z.to_nat (clamp lo)) l).

Section IndCat.

(** [repr(v)], which is also [str(v)] for every value that is not a
    [str]; left open: the properties below hold however a number, a list
    or a dict is printed (the round trip of a float through its [repr] is
    a stated condition where it matters).  It is used for the values the
    program formats, which come out of [json.loads] and so hold no
    integer beyond the digit limit: their [repr] does not raise. *)
Variable py_repr : json -> string.

(** [float(s)] for the text [s] of a JSON number with a fraction or an
    exponent; left open as well. *)
Variable py_float : string -> pyfloat.

(** [s.upper()] for a [str]: the case mapping of Unicode is left open. *)
Variable py_upper : string -> string.

(** The code points beyond ASCII that [sys.stdout] can write, with the
    encoding and the error handler it was opened with (for UTF-8 and
    [strict]: every code point that is no surrogate).  ASCII is written
    by every stream. *)
Variable stdout : N -> bool.

(** How many containers deep, beyond two, the encoder of [json.dumps]
    and the scanner of [json.loads] can go where the program calls them;
    deeper, the interpreter raises [RecursionError].  The room depends on
    the recursion limit of the interpreter and on the depth of the call
    stack.  That there is room for the two levels of the configuration
    the form builds is taken for granted, as it is for the calls of the
    program's own functions. *)
Variable encoder_room : nat.
Variable scanner_room : nat.

(** [f"{v}"] *)
Definition fstr (v : json) : string :=
  match v with
  | JStr s => s
  | _ => py_repr v
  end.

(** ** [print] *)

(** Whether the stream can write [text]. *)
Definition writes (text : string) : bool :=
  forallb (fun c => (c <? 0x80)%N || stdout c) (utf8_decode text).

(** [print(f"...")], where [pieces] are the parts of the text that are
    not plain ASCII whatever the variables hold: it raises
    [UnicodeEncodeError] when the stream cannot write one of them.  The
    text of an exception, which some lines print as [{e}], is plain ASCII
    for the exceptions those lines can catch.  A [print] whose whole text
    is plain ASCII cannot raise, and is left out of the model (lines 29,
    42, 47, 79, 115 and 516). *)
Definition print (pieces : list string) : res unit :=
  if forallb writes pieces then Val tt else Exn.

(** The check mark U+2705 that two lines print. *)
Definition check_mark : string := utf8_encode_cp 0x2705.

(** ** [json.dumps] *)

Definition dquote : ascii := "034"%char.
Definition backslash : ascii := "092"%char.

Definition hex_digit (n : N) : ascii :=
  (if n <? 10 then chr (48 + n) else chr (87 + n))%N.

(** [format(n, "04x")] *)
Definition hex4 (n : N) : string :=
  String (hex_digit (n / 4096 mod 16)) (String (hex_digit (n / 256 mod 16))
    (String (hex_digit (n / 16 mod 16)) (String (hex_digit (n mod 16)) ""))).

Definition u_escape (n : N) : string := String backslash (String "u" (hex4 n)).

(** How [ensure_ascii] writes one code point inside a string. *)
Definition escape_cp (c : N) : string :=
  (if c =? 0x22 then String backslash (String dquote "")
   else if c =? 0x5C then String backslash (String backslash "")
   else if c =? 0x0A then String backslash "n"
   else if c =? 0x0D then String backslash "r"
   else if c =? 0x09 then String backslash "t"
   else if c =? 0x08 then String backslash "b"
   else if c =? 0x0C then String backslash "f"
   else if (0x20 <=? c) && (c <=? 0x7E) then String (chr c) ""
   else if c <? 0x10000 then u_escape c
   else
     let n := c - 0x10000 in
     u_escape (0xD800 + n / 1024 mod 1024) +:+ u_escape (0xDC00 + n mod 1024))%N.

Definition escape (cps : list N) : string :=
  fold_right (fun c r => escape_cp c +:+ r) "" cps.

(** [json.encoder.encode_basestring_ascii] *)
Definition quote (s : string) : string :=
  String dquote (escape (utf8_decode s) +:+ String dquote "").

(** The decimal text of an integer. *)
Definition int_text (n : Z) : string := NilEmpty.string_of_int (Z.to_int n).

(** The text of an integer without its sign. *)
Definition unsigned (s : string) : string :=
  match s with
  | String c r => if Ascii.eqb c "-" then r else s
  | "" => ""
  end.

(** [repr(n)] of an [int]: [ValueError] when [n] has more digits than
    the limit. *)
Definition int_repr (n : Z) : res string :=
  if (int_max_str_digits <? String.length (unsigned (int_text n)))%nat then Exn
  else Val (int_text n).

Definition float_text (f : pyfloat) : string :=
  match f with
  | FNan => "NaN"
  | FInf false => "Infinity"
  | FInf true => "-Infinity"
  | FFin _ _ => py_repr (JFloat f)
  end.

(** The text [json.dumps(v)] writes with the default separators, when it
    writes one. *)
Fixpoint json_text (v : json) : string :=
  match v with
  | JNull => "null"
  | JBool true => "true"
  | JBool false => "false"
  | JInt n => int_text n
  | JFloat f => float_text f
  | JStr s => quote s
  | JArr [] => "[]"
  | JArr (x :: rest) =>
      "[" +:+ json_text x +:+
      (fix items (l : list json) : string :=
         match l with
         | [] => "]"
         | y :: l' => ", " +:+ json_text y +:+ items l'
         end) rest
  | JObj [] => "{}"
  | JObj ((k, x) :: rest) =>
      "{" +:+ quote k +:+ ": " +:+ json_text x +:+
      (fix members (l : list (string * json)) : string :=
         match l with
         | [] => "}"
         | (k', y) :: l' => ", " +:+ quote k' +:+ ": " +:+ json_text y +:+ members l'
         end) rest
  end.

(** Every [int] of the value has a [repr]. *)
Fixpoint small_ints (v : json) : bool :=
  match v with
  | JInt n => match int_repr n with Val _ => true | Exn => false end
  | JArr l => forallb small_ints l
  | JObj kv => forallb (fun p => small_ints (snd p)) kv
  | _ => true
  end.

(** How many containers deep a value goes: a list or a dict is one
    level, an empty one as well. *)
Fixpoint nesting (v : json) : nat :=
  match v with
  | JArr l => S (list_max (map nesting l))
  | JObj kv => S (list_max (map (fun p => nesting (snd p)) kv))
  | _ => 0
  end.

(** [json.dumps(v)]: [ValueError] when the [repr] of an [int] in [v]
    raises, [RecursionError] when [v] goes deeper than the encoder has
    room for. *)
Definition dumps (v : json) : res string :=
  if small_ints v && (nesting v <=? 2 + encoder_room)%nat
  then Val (json_text v) else Exn.

(** ** [json.loads] *)

Definition is_ws (c : ascii) : bool :=
  Ascii.eqb c " " || Ascii.eqb c "009" || Ascii.eqb c "010" || Ascii.eqb c "013".

Fixpoint skip_ws (s : string) : string :=
  match s with
  | String c rest => if is_ws c then skip_ws rest else s
  | "" => ""
  end.

Definition hex_value (c : ascii) : option N :=
  let n := code c in
  (if (48 <=? n) && (n <=? 57) then Some (n - 48)
   else if (97 <=? n) && (n <=? 102) then Some (n - 87)
   else if (65 <=? n) && (n <=? 70) then Some (n - 55)
   else None)%N.

Definition hex4_value (a b c d : ascii) : option N :=
  match hex_value a, hex_value b, hex_value c, hex_value d with
  | Some x, Some y, Some z, Some w => Some (x * 4096 + y * 256 + z * 16 + w)%N
  | _, _, _, _ => None
  end.

(** The character a one-letter escape stands for. *)
Definition unescape (e : ascii) : option ascii :=
  if Ascii.eqb e dquote then Some dquote
  else if Ascii.eqb e backslash then Some backslash
  else if Ascii.eqb e "/" then Some "/"%char
  else if Ascii.eqb e "b" then Some "008"%char
  else if Ascii.eqb e "f" then Some "012"%char
  else if Ascii.eqb e "n" then Some "010"%char
  else if Ascii.eqb e "r" then Some "013"%char
  else if Ascii.eqb e "t" then Some "009"%char
  else None.

Definition is_high (u : N) : bool := ((0xD800 <=? u) && (u <=? 0xDBFF))%N.
Definition is_low (u : N) : bool := ((0xDC00 <=? u) && (u <=? 0xDFFF))%N.
Definition join_surrogates (h l : N) : N :=
  (0x10000 + (h - 0xD800) * 1024 + (l - 0xDC00))%N.

Definition put (piece : string) (r : option (string * string))
  : option (string * string) :=
  match r with
  | Some (str, rest) => Some (piece +:+ str, rest)
  | None => None
  end.

(** [scanstring] (strict) from behind the opening quote: the string and
    what follows its closing quote. *)
Fixpoint scan_string (s : string) : option (string * string) :=
  match s with
  | "" => None
  | String c rest =>
      if Ascii.eqb c dquote then Some ("", rest)
      else if Ascii.eqb c backslash then
        match rest with
        | "" => None
        | String e r1 =>
            if Ascii.eqb e "u" then
              match r1 with
              | String h1 (String h2 (String h3 (String h4 r2))) =>
                  match hex4_value h1 h2 h3 h4 with
                  | None => None
                  | Some u =>
                      match r2 with
                      | String b (String e2 (String g1 (String g2 (String g3
                          (String g4 r3))))) =>
                          if is_high u && Ascii.eqb b backslash && Ascii.eqb e2 "u" then
                            match hex4_value g1 g2 g3 g4 with
                            | None => None
                            | Some l =>
                                if is_low l
                                then put (utf8_encode_cp (join_surrogates u l))
                                         (scan_string r3)
                                else put (utf8_encode_cp u) (scan_string r2)
                            end
                          else put (utf8_encode_cp u) (scan_string r2)
                      | _ => put (utf8_encode_cp u) (scan_string r2)
                      end
                  end
              | _ => None
              end
            else
              match unescape e with
              | Some ch => put (String ch "") (scan_string r1)
              | None => None
              end
        end
      else if (code c <? 0x20)%N then None
      else put (String c "") (scan_string rest)
  end.

Definition is_digit (c : ascii) : bool := ((48 <=? code c) && (code c <=? 57))%N.

(** The longest run of digits at the head of [s], and the rest. *)
Fixpoint span_digits (s : string) : string * string :=
  match s with
  | String c rest =>
      if is_digit c then let '(d, r) := span_digits rest in (String c d, r)
      else ("", s)
  | "" => ("", "")
  end.

(** The integer part of a number: [0], or digits that start with none. *)
Definition scan_int (s : string) : option (string * string) :=
  match s with
  | String c rest =>
      if Ascii.eqb c "0" then Some ("0", rest)
      else if is_digit c then let '(d, r) := span_digits rest in Some (String c d, r)
      else None
  | "" => None
  end.

(** A fraction, [.] and digits, when there is one. *)
Definition scan_frac (s : string) : string * string :=
  match s with
  | String "." (String c rest as r1) =>
      if is_digit c then let '(d, r) := span_digits r1 in (String "." d, r)
      else ("", s)
  | _ => ("", s)
  end.

(** An exponent, [e] or [E], a sign and digits, when there is one. *)
Definition scan_exp (s : string) : string * string :=
  match s with
  | String e r1 =>
      if Ascii.eqb e "e" || Ascii.eqb e "E" then
        let '(sign, r2) :=
          match r1 with
          | String c r => if Ascii.eqb c "-" || Ascii.eqb c "+"
                          then (String c "", r) else ("", r1)
          | "" => ("", r1)
          end in
        match span_digits r2 with
        | ("", _) => ("", s)
        | (d, r) => (String e (sign +:+ d), r)
        end
      else ("", s)
  | "" => ("", s)
  end.

(** [int(s)] for the text of an integer: [ValueError] when it has more
    digits than the limit. *)
Definition int_value (s : string) : option Z :=
  if (int_max_str_digits <? String.length (unsigned s))%nat then None
  else
    match NilEmpty.int_of_string s with
    | Some d => Some (Z.of_int d)
    | None => None
    end.

(** A JSON number at the head of [s]. *)
Definition scan_number (s : string) : option (json * string) :=
  let '(sign, s1) :=
    match s with
    | String "-" r => ("-", r)
    | _ => ("", s)
    end in
  match scan_int s1 with
  | None => None
  | Some (int, r1) =>
      let '(frac, r2) := scan_frac r1 in
      let '(exp, r3) := scan_exp r2 in
      match frac, exp with
      | "", "" =>
          match int_value (sign +:+ int) with
          | Some n => Some (JInt n, r3)
          | None => None
          end
      | _, _ => Some (JFloat (py_float (sign +:+ int +:+ frac +:+ exp)), r3)
      end
  end.

(** [s] without the literal [lit] at its head. *)
Fixpoint strip (lit s : string) : option string :=
  match lit, s with
  | "", _ => Some s
  | String a lit', String b s' => if Ascii.eqb a b then strip lit' s' else None
  | _, "" => None
  end.

(** [dict(pairs)]: a later pair replaces the value of an earlier one. *)
Definition dict_of_pairs (pairs : list (string * json)) : list (string * json) :=
  fold_left (fun d p => assoc_set (fst p) (snd p) d) pairs [].

(** The scanner: a value at the head of [s], and what follows it.  The
    first argument bounds the work, the second is the room for
    containers: the scanner gives up ([RecursionError]) at a bracket
    that opens one level more. *)
Fixpoint parse_value (fuel depth : nat) (s : string) : option (json * string) :=
  match fuel with
  | O => None
  | S fuel =>
      match s with
      | "" => None
      | String c rest =>
          if Ascii.eqb c dquote then
            match scan_string rest with
            | Some (str, r) => Some (JStr str, r)
            | None => None
            end
          else if Ascii.eqb c "{" then
            match depth with
            | O => None
            | S depth =>
                match skip_ws rest with
                | String "}" r => Some (JObj [], r)
                | r =>
                    match parse_members fuel depth r with
                    | Some (pairs, r') => Some (JObj (dict_of_pairs pairs), r')
                    | None => None
                    end
                end
            end
          else if Ascii.eqb c "[" then
            match depth with
            | O => None
            | S depth =>
                match skip_ws rest with
                | String "]" r => Some (JArr [], r)
                | r =>
                    match parse_items fuel depth r with
                    | Some (vs, r') => Some (JArr vs, r')
                    | None => None
                    end
                end
            end
          else
            match strip "null" s, strip "true" s, strip "false" s,
                  strip "NaN" s, strip "Infinity" s, strip "-Infinity" s with
            | Some r, _, _, _, _, _ => Some (JNull, r)
            | _, Some r, _, _, _, _ => Some (JBool true, r)
            | _, _, Some r, _, _, _ => Some (JBool false, r)
            | _, _, _, Some r, _, _ => Some (JFloat FNan, r)
            | _, _, _, _, Some r, _ => Some (JFloat (FInf false), r)
            | _, _, _, _, _, Some r => Some (JFloat (FInf true), r)
            | _, _, _, _, _, _ => scan_number s
            end
      end
  end
with parse_items (fuel depth : nat) (s : string) : option (list json * string) :=
  match fuel with
  | O => None
  | S fuel =>
      match parse_value fuel depth s with
      | None => None
      | Some (v, r) =>
          match skip_ws r with
          | String "]" r' => Some ([v], r')
          | String "," r' =>
              match parse_items fuel depth (skip_ws r') with
              | Some (vs, r'') => Some (v :: vs, r'')
              | None => None
              end
          | _ => None
          end
      end
  end
with parse_members (fuel depth : nat) (s : string)
  : option (list (string * json) * string) :=
  match fuel with
  | O => None
  | S fuel =>
      match s with
      | String c rest =>
          if Ascii.eqb c dquote then
            match scan_string rest with
            | None => None
            | Some (key, r) =>
                match skip_ws r with
                | String ":" r1 =>
                    match parse_value fuel depth (skip_ws r1) with
                    | None => None
                    | Some (v, r2) =>
                        match skip_ws r2 with
                        | String "}" r3 => Some ([(key, v)], r3)
                        | String "," r3 =>
                            match parse_members fuel depth (skip_ws r3) with
                            | Some (ps, r4) => Some ((key, v) :: ps, r4)
                            | None => None
                            end
                        | _ => None
                        end
                    end
                | _ => None
                end
            end
          else None
      | "" => None
      end
  end.

(** The byte order mark U+FEFF. *)
Definition BOM : string := utf8_encode_cp 0xFEFF.

(** [json.loads(s)] *)
Definition loads (s : string) : res json :=
  if String.prefix BOM s then Exn
  else
    match parse_value (S (String.length s)) (2 + scanner_room) (skip_ws s) with
    | Some (v, r) => match skip_ws r with "" => Val v | _ => Exn end
    | None => Exn
    end.

(** [bs.decode("utf-8")] *)
Definition utf8_decode_str (bs : string) : res string :=
  if utf8_valid bs then Val bs else Exn.

(** [s.encode("utf-8")] *)
Definition utf8_encode_str (s : string) : res string :=
  if utf8_valid s then Val s else Exn.

(** [decode_user_config(config_string)]: [None] is [JNull]. *)
Definition decode_user_config (config_string : string) : json :=
  match res_bind (b64decode config_string) (fun bs =>
        res_bind (utf8_decode_str bs) loads) with
  | Val config => config
  | Exn => JNull
  end.

(** [encode_user_config(config_dict)] *)
Definition encode_user_config (config_dict : json) : res string :=
  res_bind (dumps config_dict) (fun json_str =>
  res_bind (utf8_encode_str json_str) (fun bs =>
  utf8_decode_str (b64encode bs))).

(** ** The metadata source and the fetch run *)

(** The three upstream calls of a fetch run.  A watch-provider or
    external-id call is identified by the record's [id] value, which only
    its URL mentions. *)
Inductive request :=
| Discover (api_key : json) (language today : string) (page : Z)
| WatchProviders (api_key : json) (movie_id : json)
| ExternalIds (api_key : json) (movie_id : json).

(** What [requests.get] gives back: [body] is [None] when
    [response.json()] raises. *)
Record response := { status_code : Z; body : option json }.

(** The upstream as the run sees it: the answer to the [n]-th call of the
    run, [None] when [requests.get] raises (connection error, timeout). *)
Definition upstream := nat -> request -> option response.

(** What a run has done so far: the calls it made, in order, and the
    list [final_movies]. *)
Record run_state := { trace : list request; final_movies : list json }.

(** A step of the run: it returns or raises, and the state it leaves
    behind is kept in both cases. *)
Definition M (A : Type) : Type := run_state -> res A * run_state.

Definition ret {A} (a : A) : M A := fun s => (Val a, s).

Definition bind {A B} (m : M A) (k : A -> M B) : M B :=
  fun s =>
    match m s with
    | (Val a, s') => k a s'
    | (Exn, s') => (Exn, s')
    end.

(** [try: m  except Exception: h] *)
Definition try_except {A} (m : M A) (h : M A) : M A :=
  fun s =>
    match m s with
    | (Val a, s') => (Val a, s')
    | (Exn, s') => h s'
    end.

(** A pure expression that may raise. *)
Definition lift {A} (r : res A) : M A := fun s => (r, s).

Declare Scope run_scope.
Delimit Scope run_scope with run.
Notation "x <- m ;; k" := (bind m (fun x => k))
  (at level 100, m at next level, right associativity) : run_scope.
Notation "m ;;; k" := (bind m (fun _ => k))
  (at level 100, right associativity) : run_scope.
Local Open Scope run_scope.

(** How a loop body ends: fall through to the next round, or [break]. *)
Inductive flow := Next | Break.

(** [for x in xs: body x], where the body may [break]. *)
Fixpoint for_each {A} (body : A -> M flow) (xs : list A) : M flow :=
  match xs with
  | [] => ret Next
  | x :: rest =>
      f <- body x ;;
      match f with
      | Break => ret Break
      | Next => for_each body rest
      end
  end.

(** [range(lo, lo + n)] *)
Fixpoint py_range (lo : Z) (n : nat) : list Z :=
  match n with
  | O => []
  | S n' => lo :: py_range (lo + 1) n'
  end.

Definition TMDB_pages : list Z := py_range 1 999.

Section Fetch.

(** A run of [fetch_and_cache_movies(api_key, language)]: [api_key] is
    whatever the configuration holds under ["api_key"], [language] is a
    [str], [today] is the date the run reads from the clock. *)
Variable env : upstream.
Variable api_key : json.
Variables language today : string.

(** [requests.get(url, params=..., timeout=10)] *)
Definition http_get (r : request) : M response :=
  fun s =>
    let s' := {| trace := trace s ++ [r]; final_movies := final_movies s |} in
    match env (length (trace s)) r with
    | Some resp => (Val resp, s')
    | None => (Exn, s')
    end.

(** [response.json()] *)
Definition resp_json (r : response) : res json :=
  match body r with
  | Some v => Val v
  | None => Exn
  end.

(** [final_movies.append(movie)] *)
Definition append_movie (movie : json) : M unit :=
  fun s => (Val tt, {| trace := trace s; final_movies := final_movies s ++ [movie] |}).

(** ["results" in prov_data and "IN" in prov_data["results"]] *)
Definition has_region (prov_data : json) : res bool :=
  res_bind (py_in "results" prov_data) (fun c =>
  if c then res_bind (py_index prov_data "results") (py_in "IN")
  else Val false).

(** ["flatrate" in prov_data["results"]["IN"]] *)
Definition has_flatrate (prov_data : json) : res bool :=
  res_bind (py_index prov_data "results") (fun r =>
  res_bind (py_index r "IN") (py_in "flatrate")).

(** [imdb_id and imdb_id.startswith("tt")] *)
Definition valid_imdb (imdb_id : json) : res bool :=
  if truthy imdb_id then py_startswith imdb_id "tt" else Val false.

(** The body of the inner [try] (lines 58-73). *)
Definition check_movie (movie movie_id : json) : M unit :=
  prov_response <- http_get (WatchProviders api_key movie_id) ;;
  prov_data <- lift (resp_json prov_response) ;;
  region <- lift (has_region prov_data) ;;
  if region then
    flat <- lift (has_flatrate prov_data) ;;
    if flat then
      ext_response <- http_get (ExternalIds api_key movie_id) ;;
      ext_data <- lift (resp_json ext_response) ;;
      imdb_id <- lift (py_get ext_data "imdb_id") ;;
      ok <- lift (valid_imdb imdb_id) ;;
      if ok then
        movie' <- lift (py_setitem movie "imdb_id" imdb_id) ;;
        append_movie movie'
      else ret tt
    else ret tt
  else ret tt.

(** The handler of the inner [try] (lines 74-76): it prints the record's
    [id], and [continue]s. *)
Definition report_failure (movie_id : json) : M flow :=
  lift (print [fstr movie_id]) ;;; ret Next.

(** The body of [for movie in results] (lines 51-76).  When the print of
    the handler raises, the exception leaves the loop over the records:
    the handler is no part of the inner [try]. *)
Definition movie_step (movie : json) : M flow :=
  movie_id <- lift (py_get movie "id") ;;
  title <- lift (py_get movie "title") ;;
  if negb (truthy movie_id) || negb (truthy title) then ret Next
  else try_except (check_movie movie movie_id ;;; ret Next)
                  (report_failure movie_id).

(** The body of the outer [try] (lines 40-76). *)
Definition page_body (page : Z) : M flow :=
  resp <- http_get (Discover api_key language today page) ;;
  if negb (status_code resp =? 200) then ret Break
  else
    data <- lift (resp_json resp) ;;
    results <- lift (py_get_default data "results" (JArr [])) ;;
    if negb (truthy results) then ret Break
    else
      movies <- lift (py_iter results) ;;
      for_each movie_step movies ;;;
      ret Next.

(** The body of [for page in range(1, 1000)] (lines 29-80). *)
Definition page_step (page : Z) : M flow :=
  try_except (page_body page) (ret Break).

(** Lines 83-89, with [seen_ids] as the list of its elements. *)
Fixpoint dedup (movies seen_ids unique_movies : list json) : res (list json) :=
  match movies with
  | [] => Val unique_movies
  | movie :: rest =>
      res_bind (py_get movie "imdb_id") (fun imdb_id =>
      if truthy imdb_id then
        res_bind (set_contains seen_ids imdb_id) (fun seen =>
        if seen then dedup rest seen_ids unique_movies
        else dedup rest (imdb_id :: seen_ids) (unique_movies ++ [movie]))
      else dedup rest seen_ids unique_movies)
  end.

(** [f"{api_key}_{language}"] *)
Definition cache_key : string := fstr api_key +:+ "_" +:+ language.

Definition start : run_state := {| trace := []; final_movies := [] |}.

(** State of the run when the page loop is left. *)
Definition collect : res flow * run_state := for_each page_step TMDB_pages start.

(** Line 24: the first line the run prints. *)
Definition announce : res unit := print [py_upper language].

(** Lines 94-95: the last line the run prints, and what it returns. *)
Definition report (unique_movies : list json) : res (list json) :=
  res_map (fun _ => unique_movies) (print [py_upper language; check_mark]).

(** [fetch_and_cache_movies(api_key, language)] on a cache: what it
    returns (or that it raises), the cache afterwards, and the calls it
    made.  When the first print raises, nothing was asked and nothing is
    written; when the last one does, the list is written already. *)
Definition fetch_and_cache_movies (movie_cache : gmap string (list json))
  : res (list json) * gmap string (list json) * list request :=
  match announce with
  | Exn => (Exn, movie_cache, [])
  | Val _ =>
      match collect with
      | (Val _, s) =>
          match dedup (final_movies s) [] [] with
          | Val unique_movies =>
              (report unique_movies,
               <[cache_key := unique_movies]> movie_cache, trace s)
          | Exn => (Exn, movie_cache, trace s)
          end
      | (Exn, s) => (Exn, movie_cache, trace s)
      end
  end.

End Fetch.

(** ** The catalog endpoint *)

(** [to_stremio_meta(movie)]: [None] is [JNull]. *)
Definition to_stremio_meta (movie : json) : json :=
  let image (size field : string) : res json :=
    res_bind (py_get movie field) (fun path =>
    if truthy path then
      res_bind (py_index movie field) (fun path' =>
      Val (JStr ("https://image.tmdb.org/t/p/" +:+ size +:+ fstr path')))
    else Val JNull) in
  let meta :=
    res_bind (py_get movie "imdb_id") (fun imdb_id =>
    res_bind (py_get movie "title") (fun title =>
    if negb (truthy imdb_id) || negb (truthy title) then Val JNull
    else
      res_bind (image "w500" "poster_path") (fun poster =>
      res_bind (py_get_default movie "overview" (JStr "")) (fun description =>
      res_bind (py_get_default movie "release_date" (JStr "")) (fun release =>
      res_bind (image "w780" "backdrop_path") (fun background =>
      Val (JObj [("id", imdb_id); ("type", JStr "movie"); ("name", title);
                 ("poster", poster); ("description", description);
                 ("releaseInfo", release); ("background", background)]))))))) in
  match meta with
  | Val v => v
  | Exn => JNull
  end.

(** The shared state of the process: the cache, and the fetch runs that
    were started in a thread and have not written their list yet, each
    with the arguments it was started with. *)
Record server := {
  movie_cache : gmap string (list json);
  threads : list (json * string)
}.

(** What the catalog endpoint answers: the HTTP status and the list under
    ["metas"]. *)
Record reply := { status : Z; metas : list json }.

(** [int(request.args.get("skip", 0))] *)
Definition skip_of (skip_arg : option string) : res Z :=
  match skip_arg with
  | Some s => py_int s
  | None => Val 0
  end.

(** [not config or "api_key" not in config] *)
Definition invalid_config (config : json) : res bool :=
  if negb (truthy config) then Val true
  else res_map negb (py_in "api_key" config).

(** [catalog(config_string, language)] for a request whose query has the
    [skip] argument [skip_arg], if any.  The check of the cache and the
    start of the thread happen under [cache_lock]; an exception leaves
    the handler (and the state as it was). *)
Definition catalog (config_string language : string) (skip_arg : option string)
    (srv : server) : res reply * server :=
  let config := decode_user_config config_string in
  match invalid_config config with
  | Exn => (Exn, srv)
  | Val true => (Val {| status := 400; metas := [] |}, srv)
  | Val false =>
      match py_index config "api_key" with
      | Exn => (Exn, srv)
      | Val api_key =>
          match skip_of skip_arg with
          | Exn => (Exn, srv)
          | Val skip =>
              match movie_cache srv !! cache_key api_key language with
              | None =>
                  (Val {| status := 200; metas := [] |},
                   {| movie_cache := movie_cache srv;
                      threads := threads srv ++ [(api_key, language)] |})
              | Some cached_movies =>
                  let paginated_movies := py_slice cached_movies skip (skip + 100) in
                  (Val {| status := 200;
                          metas := List.filter truthy
                                     (map to_stremio_meta paginated_movies) |},
                   srv)
              end
          end
      end
  end.

(** The [i]-th started run comes to its end against the upstream [env]:
    it writes its list and is gone. *)
Definition finish (env : upstream) (today : string) (i : nat) (srv : server)
  : server :=
  match threads srv !! i with
  | None => srv
  | Some (api_key, language) =>
      {| movie_cache :=
           (fetch_and_cache_movies env api_key language today (movie_cache srv)).1.2;
         threads := delete i (threads srv) |}
  end.

(** The states the process gets into by catalog requests and by runs
    that end. *)
Inductive reachable : server -> Prop :=
| reach_start : reachable {| movie_cache := ∅; threads := [] |}
| reach_catalog srv config_string language skip_arg :
    reachable srv ->
    reachable (catalog config_string language skip_arg srv).2
| reach_finish srv env today i :
    reachable srv ->
    reachable (finish env today i srv).

(** How many started runs will write under [key]. *)
Definition in_flight (srv : server) (key : string) : nat :=
  length (List.filter (fun t => String.eqb (cache_key t.1 t.2) key) (threads srv)).


(** ** The other endpoints *)

(** [str.isspace] for one code point: the blanks of [py_space] and the
    separators 28 to 31. *)
Definition py_isspace (c : N) : bool :=
  py_space c || ((28 <=? c) && (c <=? 31))%N.

Fixpoint lstrip (cps : list N) : list N :=
  match cps with
  | c :: rest => if py_isspace c then lstrip rest else cps
  | [] => []
  end.

(** [s.strip()] *)
Definition py_strip (s : string) : string :=
  utf8_encode (rev (lstrip (rev (lstrip (utf8_decode s))))).

(** [s.rstrip("/")] *)
Fixpoint py_rstrip_slash (s : string) : string :=
  match s with
  | "" => ""
  | String c r =>
      match py_rstrip_slash r with
      | "" => if Ascii.eqb c "/" then "" else String c ""
      | r' => String c r'
      end
  end.

(** What a handler returns: a text or [jsonify] of a value, with the
    status, or [redirect(location)]. *)
Inductive answer :=
| Text (st : Z) (text : string)
| Json (st : Z) (value : json)
| Redirect (location : string).

(** [configure_post()] for a form with the value [form_api_key] of the
    field ["api_key"], if it has one, and the values [form_languages] of
    the field ["languages"], on a request whose [host_url] is
    [host_url]. *)
Definition configure_post (form_api_key : option string)
    (form_languages : list string) (host_url : string) : res answer :=
  let api_key := py_strip (default "" form_api_key) in
  if negb (truthy (JStr api_key)) then Val (Text 400 "API key is required")
  else
    let languages :=
      if negb (truthy (JArr (JStr <$> form_languages))) then [JStr "ml"]
      else JStr <$> form_languages in
    let config := JObj [("api_key", JStr api_key); ("languages", JArr languages)] in
    res_bind (encode_user_config config) (fun config_string =>
    let base_url := py_rstrip_slash host_url in
    let manifest_url := base_url +:+ "/" +:+ config_string +:+ "/manifest.json" in
    Val (Redirect manifest_url)).

(** The list of [f x] for the [x] of [l], up to the first that raises. *)
Fixpoint res_list {A B} (f : A -> res B) (l : list A) : res (list B) :=
  match l with
  | [] => Val []
  | x :: rest =>
      res_bind (f x) (fun y => res_map (cons y) (res_list f rest))
  end.

Definition language_names : list (string * json) :=
  [("ml", JStr "Malayalam"); ("hi", JStr "Hindi"); ("ta", JStr "Tamil");
   ("te", JStr "Telugu"); ("kn", JStr "Kannada")].

(** The catalog the manifest lists for [lang]; [lang.upper()] is
    evaluated before [get] is called, and only a [str] has it. *)
Definition catalog_entry (lang : json) : res json :=
  match lang with
  | JStr l =>
      Val (JObj [("type", JStr "movie");
                 ("id", lang);
                 ("name", default (JStr (py_upper l)) (assoc l language_names));
                 ("extra", JArr [JObj [("name", JStr "skip");
                                       ("isRequired", JBool false)]])])
  | _ => Exn
  end.

(** [manifest(config_string)] *)
Definition manifest (config_string : string) : res answer :=
  let config := decode_user_config config_string in
  match invalid_config config with
  | Exn => Exn
  | Val true => Val (Json 400 (JObj [("error", JStr "Invalid configuration")]))
  | Val false =>
      res_bind (py_get_default config "languages" (JArr [JStr "ml"])) (fun languages =>
      res_bind (py_iter languages) (fun langs =>
      res_bind (res_list catalog_entry langs) (fun catalogs =>
      Val (Json 200
             (JObj [("id", JStr "org.indcat");
                    ("version", JStr "1.0.0");
                    ("name", JStr "IndCat");
                    ("description", JStr "Indian OTT Movies Catalog");
                    ("resources", JArr [JStr "catalog"]);
                    ("types", JArr [JStr "movie"]);
                    ("catalogs", JArr catalogs);
                    ("idPrefixes", JArr [JStr "tt"]);
                    ("behaviorHints", JObj [("configurable", JBool true)])])))))
  end.

(** [refresh(config_string)]: the answer, and the arguments [api_key]
    and [languages] of the thread it starts, if it starts one. *)
Definition refresh (config_string : string) : res (answer * option (json * json)) :=
  let config := decode_user_config config_string in
  match invalid_config config with
  | Exn => Exn
  | Val true =>
      Val (Json 400 (JObj [("error", JStr "Invalid configuration")]), None)
  | Val false =>
      res_bind (py_index config "api_key") (fun api_key =>
      res_bind (py_get_default config "languages" (JArr [JStr "ml"])) (fun languages =>
      Val (Json 200 (JObj [("status", JStr "refresh started in background")]),
           Some (api_key, languages))))
  end.

(** The loop of [do_refresh] from its [i]-th turn on: the run of turn
    [i] talks to the upstream [env i] on the day [today i].  For a
    [lang] that is no [str], [language.upper()] raises in
    [fetch_and_cache_movies] before anything is asked or written, and
    [lang.upper()] raises again in the handler of the exception: that
    ends the thread.  For a [str] that the stream cannot write in upper
    case, the first print of the run raises, and so does the print of
    the handler (line 537), which ends the thread as well.  Any other
    [str] is fetched; when the last print of the run or the print of
    line 535 raises (the stream cannot write the check mark), the
    handler prints and the loop goes on. *)
Fixpoint refresh_loop (env : nat -> upstream) (today : nat -> string)
    (api_key : json) (i : nat) (langs : list json)
    (movie_cache : gmap string (list json)) : gmap string (list json) :=
  match langs with
  | [] => movie_cache
  | JStr lang :: rest =>
      let run := fetch_and_cache_movies (env i) api_key lang (today i) movie_cache in
      let done :=
        res_bind run.1.1 (fun _ => print [py_upper lang; check_mark]) in
      match done with
      | Val _ => refresh_loop env today api_key (S i) rest run.1.2
      | Exn =>
          match print [py_upper lang] with
          | Val _ => refresh_loop env today api_key (S i) rest run.1.2
          | Exn => run.1.2
          end
      end
  | _ :: _ => movie_cache
  end.

(** The thread [do_refresh] that [refresh] starts, run to its end: the
    cache it leaves. *)
Definition do_refresh (env : nat -> upstream) (today : nat -> string)
    (api_key languages : json) (movie_cache : gmap string (list json))
  : gmap string (list json) :=
  match py_iter languages with
  | Val langs => refresh_loop env today api_key 0 langs movie_cache
  | Exn => movie_cache
  end.
(** ** What the fetch run guarantees *)

(** [k in v] holds: [v] is a dict with the key [k], a list with the
    element [k], or a text with [k] inside. *)
Definition mentions (k : string) (v : json) : Prop :=
  (exists kv x, v = JObj kv /\ assoc k kv = Some x) \/
  (exists l, v = JArr l /\ JStr k ∈ l) \/
  (exists a b, v = JStr (a +:+ k +:+ b)).

(** A watch-provider answer that lists [flatrate] for India: a dict
    whose ["results"] is a dict whose ["IN"] mentions ["flatrate"].
    That is less than a subscription offer: nothing is asked of what
    stands under ["flatrate"], nor of the status of the answer. *)
Definition lists_flatrate (prov_data : json) : Prop :=
  exists kv regions region,
    prov_data = JObj kv /\
    assoc "results" kv = Some (JObj regions) /\
    assoc "IN" regions = Some region /\
    mentions "flatrate" region.

(** Some watch-provider answer for the record's [id] listed [flatrate]
    for India. *)
Definition available (env : upstream) (api_key movie_id : json) : Prop :=
  exists n resp prov,
    env n (WatchProviders api_key movie_id) = Some resp /\
    body resp = Some prov /\
    lists_flatrate prov.



(** Some external-id answer for the record's [id] carried the IMDb
    identifier [imdb], a [str] that starts with [tt]. *)
Definition cross_reference (env : upstream) (api_key movie_id : json)
    (imdb : string) : Prop :=
  exists n resp ext,
    env n (ExternalIds api_key movie_id) = Some resp /\
    body resp = Some ext /\
    py_get ext "imdb_id" = Val (JStr imdb) /\
    String.prefix "tt" imdb = true.

(** [item] is a discovered record with an [id] and a [title], available
    and cross-referenced, stored with its IMDb identifier. *)
Definition eligible (env : upstream) (api_key item : json) : Prop :=
  exists movie movie_id title imdb,
    py_get movie "id" = Val movie_id /\ truthy movie_id = true /\
    py_get movie "title" = Val title /\ truthy title = true /\
    available env api_key movie_id /\
    cross_reference env api_key movie_id imdb /\
    py_setitem movie "imdb_id" (JStr imdb) = Val item.

(** What [d.get(k, default)] gives on the items [kv] of a dict. *)
Definition get_or (kv : list (string * json)) (k : string) (default : json) : json :=
  match assoc k kv with
  | Some v => v
  | None => default
  end.





(** A record whose round cannot end its page: a dict whose [id] the
    stream can write. *)
Definition plain_record (movie : json) : Prop :=
  exists kv, movie = JObj kv /\ writes (fstr (get_or kv "id" JNull)) = true.

(** A discovery answer that keeps the page loop going: status 200 and a
    list of records, at least one, none of which can end the page. *)
Definition full_page (r : option response) : Prop :=
  exists resp data movies,
    r = Some resp /\ status_code resp = 200 /\ body resp = Some data /\
    py_get_default data "results" (JArr []) = Val (JArr movies) /\
    movies <> [] /\ Forall plain_record movies.

(** The IMDb identifier an entry is stored under. *)
Definition imdb_of (m : json) : option string :=
  match py_get m "imdb_id" with
  | Val (JStr s) => Some s
  | _ => None
  end.

(** The pages the run asked the discovery endpoint for, in order. *)
Fixpoint discover_pages (tr : list request) : list Z :=
  match tr with
  | [] => []
  | Discover _ _ _ p :: rest => p :: discover_pages rest
  | _ :: rest => discover_pages rest
  end.

(** The first entry of [ms] stored under the identifier [i]. *)
Definition first_occurrence (i : string) (ms : list json) : option json :=
  List.find (fun m => bool_decide (imdb_of m = Some i)) ms.

(** [unique] is [collected] without its later duplicates: the entries
    keep their order, no identifier occurs twice, every identifier of
    [collected] is still there, and the entry kept for an identifier is
    the first one [collected] has for it. *)
Record deduplicated (collected unique : list json) : Prop := {
  dd_order : sublist unique collected;
  dd_nodup : NoDup (imdb_of <$> unique);
  dd_every : forall m, m ∈ collected ->
             exists m', m' ∈ unique /\ imdb_of m' = imdb_of m;
  dd_first : forall m', m' ∈ unique ->
             exists i, imdb_of m' = Some i /\ first_occurrence i collected = Some m'
}.

(** An entry as the run stores it: a dict whose ["imdb_id"] is a
    non-empty [str]. *)
Definition has_id (m : json) : Prop :=
  exists kv i, m = JObj kv /\ assoc "imdb_id" kv = Some (JStr i) /\ i <> "".

(** A discovery answer that ends the run's pagination on the spot: no
    answer at all, or a status other than 200. *)
Definition page_fails (r : option response) : Prop :=
  match r with
  | None => True
  | Some resp => status_code resp <> 200
  end.

(** A discovery answer that stops the page loop: a failure, or a page
    whose [results] are the empty list (or missing). *)
Definition page_stops (r : option response) : Prop :=
  match r with
  | None => True
  | Some resp =>
      status_code resp <> 200 \/
      exists data, body resp = Some data /\
                   py_get_default data "results" (JArr []) = Val (JArr [])
  end.


(** What a stretch of the run adds: no page request beyond [pages], and
    only eligible entries, appended to [final_movies]. *)
Definition extends (env : upstream) (api_key : json) (pages : list Z)
    (s s' : run_state) : Prop :=
  discover_pages (trace s') = discover_pages (trace s) ++ pages /\
  exists items,
    final_movies s' = final_movies s ++ items /\
    Forall (eligible env api_key) items.

(** The state in which a page is asked for, and the state a stopping
    answer leaves. *)
Definition asked (api_key : json) (language today : string) (page : Z)
    (s : run_state) : run_state :=
  {| trace := trace s ++ [Discover api_key language today page];
     final_movies := final_movies s |}.

(** ** What the catalog endpoint guarantees *)

(** A request the handler gets through its checks with: the
    configuration decodes to a value that holds an ["api_key"], and the
    [skip] argument is the text of an integer. *)
Definition request_for (config_string : string) (skip_arg : option string)
    (api_key : json) (skip : Z) : Prop :=
  invalid_config (decode_user_config config_string) = Val false /\
  py_index (decode_user_config config_string) "api_key" = Val api_key /\
  skip_of skip_arg = Val skip.

(** An entry the conversion accepts: a dict with an identifier and a
    title. *)
Definition servable (m : json) : Prop :=
  exists kv i title,
    m = JObj kv /\
    assoc "imdb_id" kv = Some (JStr i) /\ i <> "" /\
    assoc "title" kv = Some title /\ truthy title = true.

(** The claim of C1 as the specification words it: in every state the
    process gets into, at most one started run will write under a key. *)
Definition at_most_one_in_flight : Prop :=
  forall srv key, reachable srv -> (in_flight srv key <= 1)%nat.

(** ** What the configuration codec round-trips *)

(** Keys that differ from one another. *)
Fixpoint distinct (ks : list string) : bool :=
  match ks with
  | [] => true
  | k :: rest => negb (existsb (String.eqb k) rest) && distinct rest
  end.

(** A float whose [repr] is plain ASCII and is read back by [json.loads]
    as the float itself (as [repr] and [float] of the interpreter have
    it).  The infinities are written by name; so is not-a-number, which
    is read back but equals no float, itself included, and is left
    out. *)
Definition float_ok (f : pyfloat) : bool :=
  match f with
  | FFin m e =>
      let text := py_repr (JFloat f) in
      is_ascii text &&
      match scan_number text with
      | Some (JFloat (FFin m' e'), "") => (m' =? m) && (e' =? e)
      | _ => false
      end
  | FInf _ => true
  | FNan => false
  end.

(** A value [json.loads] can give back as it is: every text in it is
    well-formed UTF-8 (no surrogate), every dict has different keys,
    every [int] has a [repr] (no more digits than the limit), and every
    float is a number that is read back from its [repr]. *)
Fixpoint well_formed (v : json) : bool :=
  match v with
  | JNull | JBool _ => true
  | JInt n => match int_repr n with Val _ => true | Exn => false end
  | JFloat f => float_ok f
  | JStr s => utf8_valid s
  | JArr l => forallb well_formed l
  | JObj kv =>
      distinct (map fst kv) &&
      forallb (fun p => utf8_valid (fst p) && well_formed (snd p)) kv
  end.

(** What [json_text] writes behind the first item of a list, and behind the
    first member of a dict. *)
Fixpoint dump_items (l : list json) : string :=
  match l with
  | [] => "]"
  | y :: l' => ", " +:+ json_text y +:+ dump_items l'
  end.

Fixpoint dump_members (l : list (string * json)) : string :=
  match l with
  | [] => "}"
  | (k, y) :: l' => ", " +:+ quote k +:+ ": " +:+ json_text y +:+ dump_members l'
  end.

(** A bound on the nesting the scanner needs for a value. *)
Fixpoint size (v : json) : nat :=
  match v with
  | JArr l => S (list_sum (map (fun x => S (size x)) l))
  | JObj kv => S (list_sum (map (fun p => S (size (snd p))) kv))
  | _ => 1
  end.

(** What may follow the text of a number without being taken for a part
    of it. *)
Definition ends_number (rest : string) : bool :=
  match rest with
  | "" => true
  | String c _ =>
      negb (is_digit c || Ascii.eqb c "." || Ascii.eqb c "e" || Ascii.eqb c "E"
            || Ascii.eqb c "+" || Ascii.eqb c "-")
  end.

(** What may stand behind a value inside a text [json_text] wrote. *)
Definition follows (rest : string) : bool :=
  match rest with
  | "" => true
  | String c _ => Ascii.eqb c "," || Ascii.eqb c "]" || Ascii.eqb c "}"
  end.

(** The first character of a value: no blank, no closing bracket, ASCII. *)
Definition value_head (s : string) : bool :=
  match s with
  | "" => false
  | String c _ =>
      negb (is_ws c) && negb (Ascii.eqb c "]") && negb (Ascii.eqb c "}")
      && (code c <? 0x80)%N
  end.

(** What a value inside [json_text] may be: well-formed, and read back by
    the scanner in front of whatever may follow it. *)
Definition reads_back (v : json) : Prop :=
  well_formed v = true /\
  forall n d rest,
    (size v <= n)%nat -> (nesting v <= d)%nat -> follows rest = true ->
    parse_value n d (json_text v +:+ rest) = Some (v, rest).

(** A value that goes no deeper than the encoder and the scanner have
    room for. *)
Definition shallow (v : json) : bool :=
  (nesting v <=? 2 + encoder_room)%nat && (nesting v <=? 2 + scanner_room)%nat.

(** The claim of C9 as it is worded: every configuration dict that can
    be encoded is decoded to itself. *)
Definition round_trips : Prop :=
  forall kv config_string,
    encode_user_config (JObj kv) = Val config_string ->
    decode_user_config config_string = JObj kv.

(** ** More to state about the handlers and the run *)


(** An upstream that answers a request the same way whenever it is
    asked. *)
Definition steady (answers : request -> option response) : upstream :=
  fun _ r => answers r.

(** A discovery answer with the records [page], of which there is at
    least one. *)
Definition page_of (r : option response) (page : list json) : Prop :=
  exists resp data,
    r = Some resp /\ status_code resp = 200 /\ body resp = Some data /\
    py_get_default data "results" (JArr []) = Val (JArr page) /\ page <> [].

(** The record [movie] has an [id] and a [title], and the answers for its
    [id] show a subscription offer in India and an IMDb identifier;
    [item] is the record with that identifier put in. *)
Definition offered (answers : request -> option response) (api_key : json)
    (movie item : json) : Prop :=
  exists kv movie_id title prov_response prov_data ext_response ext_data imdb,
    movie = JObj kv /\
    assoc "id" kv = Some movie_id /\ truthy movie_id = true /\
    assoc "title" kv = Some title /\ truthy title = true /\
    answers (WatchProviders api_key movie_id) = Some prov_response /\
    body prov_response = Some prov_data /\
    has_region prov_data = Val true /\ has_flatrate prov_data = Val true /\
    answers (ExternalIds api_key movie_id) = Some ext_response /\
    body ext_response = Some ext_data /\
    py_get ext_data "imdb_id" = Val (JStr imdb) /\
    String.prefix "tt" imdb = true /\
    item = JObj (assoc_set "imdb_id" (JStr imdb) kv).

(** The order a run keeps in its calls: every call carries the key of the
    run, every discovery call its language and date, and a call for the
    external identifiers of a record comes right after a watch-provider
    call for the same record, whose answer showed a subscription offer in
    India. *)
Definition disciplined (env : upstream) (api_key : json) (language today : string)
    (tr : list request) : Prop :=
  forall n r, tr !! n = Some r ->
    match r with
    | Discover k l t _ => k = api_key /\ l = language /\ t = today
    | WatchProviders k _ => k = api_key
    | ExternalIds k movie_id =>
        k = api_key /\
        exists m prov_response prov_data,
          n = S m /\
          tr !! m = Some (WatchProviders api_key movie_id) /\
          env m (WatchProviders api_key movie_id) = Some prov_response /\
          body prov_response = Some prov_data /\
          has_region prov_data = Val true /\
          has_flatrate prov_data = Val true
    end.

(** A byte of plain ASCII other than [>], [?], [~] and the delete
    character. *)
Definition tame (c : ascii) : bool :=
  ((code c <? 0x80)
   && negb ((code c =? 0x3E) || (code c =? 0x3F) || (code c =? 0x7E)
            || (code c =? 0x7F)))%N.

Definition all_tame (s : string) : bool := forallb tame (list_ascii_of_string s).

(** A code point other than [>], [?] and [~]. *)
Definition mild (c : N) : bool :=
  negb ((c =? 0x3E) || (c =? 0x3F) || (c =? 0x7E))%N.

(** A text without [>], [?] and [~]. *)
Definition all_mild (s : string) : bool := forallb mild (utf8_decode s).

(** A letter or a digit of ASCII, or [=]. *)
Definition url_plain (c : ascii) : bool :=
  let n := code c in
  (((65 <=? n) && (n <=? 90)) || ((97 <=? n) && (n <=? 122))
   || ((48 <=? n) && (n <=? 57)) || (n =? 61))%N.

(** A text of blanks only (as [str.isspace] has them), or of nothing. *)
Definition blank (s : string) : bool := forallb py_isspace (utf8_decode s).

(** The languages a configuration made by the form holds. *)
Definition chosen (form_languages : list string) : list string :=
  match form_languages with
  | [] => ["ml"]
  | _ => form_languages
  end.

(** A [str]. *)
Definition is_text (v : json) : Prop := exists s, v = JStr s.

(** What the manifest and the refresh answer to a configuration they
    reject. *)
Definition invalid_configuration : json :=
  JObj [("error", JStr "Invalid configuration")].

(** The name the manifest shows for a language. *)
Definition display_name (lang : string) : json :=
  match assoc lang language_names with
  | Some name => name
  | None => JStr (py_upper lang)
  end.

(** A list as a run writes it: some list of eligible entries without
    its later duplicates. *)
Definition fetched (cached : list json) : Prop :=
  exists env api_key collected,
    Forall (eligible env api_key) collected /\ deduplicated collected cached.

(** The identifier of an entry of an answer. *)
Definition meta_id (meta : json) : res json := py_get meta "id".

(** Every float of the value has a [repr] of plain ASCII (as all floats
    of the interpreter have). *)
Fixpoint ascii_floats (v : json) : bool :=
  match v with
  | JFloat (FFin m e) => is_ascii (py_repr (JFloat (FFin m e)))
  | JArr l => forallb ascii_floats l
  | JObj kv => forallb (fun p => ascii_floats (snd p)) kv
  | _ => true
  end.
Lemma assoc_set_same k v kv : assoc k (assoc_set k v kv) = Some v.
Proof.
  induction kv as [|[k' v'] kv IH]; simpl.
  - by rewrite String.eqb_refl.
  - destruct (String.eqb k k') eqn:E; simpl; rewrite E; auto.
Qed.

Lemma assoc_set_other k k' v kv :
  k' <> k -> assoc k' (assoc_set k v kv) = assoc k' kv.
Proof.
  intros Hne. induction kv as [|[k0 v0] kv IH]; simpl.
  - destruct (String.eqb k' k) eqn:E; [apply String.eqb_eq in E; done | done].
  - destruct (String.eqb k k0) eqn:E; simpl.
    + apply String.eqb_eq in E; subst k0.
      destruct (String.eqb k' k) eqn:E'; [apply String.eqb_eq in E'; done | done].
    + by rewrite IH.
Qed.

Lemma discover_pages_app tr1 tr2 :
  discover_pages (tr1 ++ tr2) = discover_pages tr1 ++ discover_pages tr2.
Proof.
  induction tr1 as [|r tr1 IH]; simpl; [done|].
  destruct r; simpl; by rewrite ?IH.
Qed.

Lemma has_id_imdb_of m : has_id m -> exists i, imdb_of m = Some i /\ i <> "".
Proof.
  intros (kv & i & -> & Hkv & Hi). exists i. unfold imdb_of; simpl. by rewrite Hkv.
Qed.

Lemma seen_ids_contains i ids :
  existsb (key_eqb (JStr i)) (JStr <$> ids) = bool_decide (i ∈ ids).
Proof.
  induction ids as [|j ids IH].
  - symmetry. apply bool_decide_eq_false_2, not_elem_of_nil.
  - rewrite fmap_cons. cbn [existsb key_eqb]. rewrite IH.
    destruct (String.eqb i j) eqn:E; simpl.
    + apply String.eqb_eq in E; subst. symmetry. apply bool_decide_eq_true_2. left.
    + apply String.eqb_neq in E.
      apply bool_decide_ext. rewrite elem_of_cons.
      split; [by right | by intros [->|H]].
Qed.

(** The dedup loop from any point on: with the identifiers [ids] seen and
    the entries [unique] kept so far, it adds to [unique] the first
    entry of every identifier not seen yet. *)
Lemma dedup_spec movies :
  Forall has_id movies ->
  forall ids unique,
  exists kept,
    dedup movies (JStr <$> ids) unique = Val (unique ++ kept) /\
    sublist kept movies /\
    NoDup (imdb_of <$> kept) /\
    (forall m', m' ∈ kept ->
       exists i, imdb_of m' = Some i /\ (i ∉ ids) /\
                 first_occurrence i movies = Some m') /\
    (forall m i, m ∈ movies -> imdb_of m = Some i ->
       i ∈ ids \/ exists m', m' ∈ kept /\ imdb_of m' = Some i).
Proof.
  induction 1 as [|m movies Hm _ IH]; intros ids unique.
  - exists []. simpl. rewrite app_nil_r.
    split; [done|]. split; [done|]. split; [constructor|].
    split; [intros m' Hin | intros m i Hin _]; by apply elem_of_nil in Hin.
  - pose proof Hm as (kv & i & -> & Hkv & Hi).
    assert (imdb_of (JObj kv) = Some i) as Himdb
      by (unfold imdb_of; simpl; by rewrite Hkv).
    simpl. rewrite Hkv. simpl.
    destruct (String.eqb i "") eqn:E; [apply String.eqb_eq in E; done|]. simpl.
    rewrite seen_ids_contains.
    destruct (bool_decide (i ∈ ids)) eqn:Hseen.
    + apply bool_decide_eq_true in Hseen.
      destruct (IH ids unique) as (kept & -> & Hsub & Hnd & Hfirst & Hall).
      exists kept. split; [done|]. split; [by apply sublist_cons|].
      split; [done|]. split.
      * intros m' Hin. destruct (Hfirst m' Hin) as (i' & Hi' & Hni & Hf).
        exists i'. split; [done|]. split; [done|].
        unfold first_occurrence. simpl. rewrite Himdb.
        rewrite bool_decide_eq_false_2; [done|]. intros [= ->]. done.
      * intros m i' Hin Hi'. apply elem_of_cons in Hin as [->|Hin].
        -- left. congruence.
        -- by apply (Hall m).
    + apply bool_decide_eq_false in Hseen.
      destruct (IH (i :: ids) (unique ++ [JObj kv]))
        as (kept & Hd & Hsub & Hnd & Hfirst & Hall).
      rewrite fmap_cons in Hd.
      exists (JObj kv :: kept).
      split; [by rewrite Hd, <- app_assoc|]. split; [by apply sublist_skip|].
      split; [|split].
      * rewrite fmap_cons. constructor; [|done].
        rewrite Himdb. intros Hin. apply list_elem_of_fmap in Hin as (m' & Heq & Hin).
        destruct (Hfirst m' Hin) as (i' & Hi' & Hni & _).
        apply Hni. rewrite <- Heq in Hi'. injection Hi' as ->. left.
      * intros m' Hin. apply elem_of_cons in Hin as [->|Hin].
        -- exists i. split; [done|]. split; [done|].
           unfold first_occurrence. simpl. rewrite Himdb.
           by rewrite bool_decide_eq_true_2.
        -- destruct (Hfirst m' Hin) as (i' & Hi' & Hni & Hf).
           exists i'. split; [done|]. split; [intros Hc; apply Hni; by right|].
           unfold first_occurrence. simpl. rewrite Himdb.
           rewrite bool_decide_eq_false_2; [done|]. intros [= ->]. apply Hni. left.
      * intros m i' Hin Hi'. apply elem_of_cons in Hin as [->|Hin].
        -- right. exists (JObj kv). split; [left|congruence].
        -- destruct (Hall m i' Hin Hi') as [Hin'|(m' & Hm' & Hid)].
           ++ apply elem_of_cons in Hin' as [->|Hin']; [|by left].
              right. exists (JObj kv). split; [left|done].
           ++ right. exists m'. split; [by right|done].
Qed.

(** The loop of lines 83-89 never raises on entries that have an
    identifier, and it deduplicates them. *)
Lemma dedup_deduplicated movies :
  Forall has_id movies ->
  exists unique, dedup movies [] [] = Val unique /\ deduplicated movies unique.
Proof.
  intros Hall.
  destruct (dedup_spec movies Hall [] []) as (kept & Hd & Hsub & Hnd & Hfirst & Hevery).
  exists kept. split; [done|]. split; [done|done| |].
  - intros m Hin. destruct (has_id_imdb_of m) as (i & Hi & _).
    { by eapply Forall_forall in Hall. }
    destruct (Hevery m i Hin Hi) as [Hin'|(m' & Hm' & Hid)].
    + by apply elem_of_nil in Hin'.
    + exists m'. split; [done|congruence].
  - intros m' Hin. destruct (Hfirst m' Hin) as (i & Hi & _ & Hf). by exists i.
Qed.

Lemma prefix_tt_nonempty i : String.prefix "tt" i = true -> i <> "".
Proof. by destruct i. Qed.

Lemma eligible_has_id env api_key item : eligible env api_key item -> has_id item.
Proof.
  intros (movie & movie_id & title & imdb & _ & _ & _ & _ & _ & Hx & Hset).
  destruct Hx as (_ & _ & _ & _ & _ & _ & Htt).
  destruct movie; try done. injection Hset as <-.
  eexists _, imdb. split; [done|]. split; [apply assoc_set_same|].
  by apply prefix_tt_nonempty.
Qed.

Lemma eligible_imdb_of env api_key item :
  eligible env api_key item ->
  exists imdb, imdb_of item = Some imdb /\ String.prefix "tt" imdb = true /\ imdb <> "".
Proof.
  intros (movie & movie_id & title & imdb & _ & _ & _ & _ & _ & Hx & Hset).
  destruct Hx as (_ & _ & _ & _ & _ & _ & Htt).
  destruct movie; try done. injection Hset as <-.
  exists imdb. unfold imdb_of. simpl. rewrite assoc_set_same.
  split; [done|]. split; [done|]. by apply prefix_tt_nonempty.
Qed.

Lemma py_range_app lo n m :
  py_range lo (n + m) = py_range lo n ++ py_range (lo + Z.of_nat n) m.
Proof.
  revert lo. induction n as [|n IH]; intros lo.
  - simpl. by rewrite Z.add_0_r.
  - cbn [py_range Nat.add]. rewrite IH. simpl. do 3 f_equal. lia.
Qed.

Lemma py_range_length lo n : length (py_range lo n) = n.
Proof. revert lo. induction n; intros; simpl; auto. Qed.

Lemma take_py_range lo n m : (n <= m)%nat -> take n (py_range lo m) = py_range lo n.
Proof.
  intros Hle. replace m with (n + (m - n))%nat by lia.
  rewrite py_range_app, take_app_length'; [done|]. by rewrite py_range_length.
Qed.

(** A loop over [xs ++ ys] runs over [ys] when it got through [xs]. *)
Lemma for_each_app {A} (body : A -> M flow) xs ys s :
  for_each body (xs ++ ys) s =
  match for_each body xs s with
  | (Val Next, s') => for_each body ys s'
  | other => other
  end.
Proof.
  revert s. induction xs as [|x xs IH]; intros s; simpl; [done|].
  unfold bind. destruct (body x s) as [[[|]|] s1]; auto.
Qed.

Lemma prefix_split sub s : String.prefix sub s = true -> exists b, s = sub +:+ b.
Proof.
  revert s. induction sub as [|c sub IH]; intros s H.
  - by exists s.
  - destruct s as [|d s]; [done|]. simpl in H.
    destruct (ascii_dec c d) as [->|]; [|done].
    destruct (IH s H) as [b ->]. by exists b.
Qed.

Lemma str_contains_split sub s :
  str_contains sub s = true -> exists a b, s = a +:+ sub +:+ b.
Proof.
  induction s as [|c s IH]; cbn [str_contains]; intros H.
  - rewrite orb_false_r in H. apply prefix_split in H as [b ->]. by exists "", b.
  - apply orb_true_iff in H as [H|H].
    + apply prefix_split in H as [b ->]. by exists "", b.
    + destruct (IH H) as (a & b & ->). by exists (String c a), b.
Qed.

Lemma py_in_mentions k v : py_in k v = Val true -> mentions k v.
Proof.
  destruct v as [| | | |s|l|kv]; try done; cbn [py_in]; intros [= H].
  - right. right. apply str_contains_split in H as (a & b & ->). by exists a, b.
  - right. left. exists l. split; [done|].
    apply existsb_exists in H as (x & Hin & Hx).
    destruct x as [| | | |s| |]; try done. apply String.eqb_eq in Hx. subst.
    by apply list_elem_of_In.
  - left. destruct (assoc k kv) as [x|] eqn:E; [|done]. by exists kv, x.
Qed.

(** The tests of lines 63 and 64 pass only on an answer that lists
    [flatrate] for India. *)
Lemma tests_list_flatrate prov :
  has_region prov = Val true -> has_flatrate prov = Val true -> lists_flatrate prov.
Proof.
  unfold has_region, has_flatrate. intros _.
  destruct prov as [| | | | | |kv]; try done. cbn [py_index res_bind].
  destruct (assoc "results" kv) as [r|] eqn:Hr; [|done]. cbn [res_bind].
  destruct r as [| | | | | |regions]; try done. cbn [py_index].
  destruct (assoc "IN" regions) as [region|] eqn:Hin; [|done]. cbn [res_bind].
  intros H. exists kv, regions, region. repeat split; try done.
  by apply py_in_mentions.
Qed.

Section FetchFacts.

Variable env : upstream.
Variable api_key : json.
Variables language today : string.

(** The inner [try] body either leaves [final_movies] alone or returns
    after appending one eligible entry; it never asks for a page. *)
Lemma check_movie_spec movie movie_id s r s' :
  check_movie env api_key movie movie_id s = (r, s') ->
  discover_pages (trace s') = discover_pages (trace s) /\
  (final_movies s' = final_movies s \/
   exists imdb item,
     r = Val tt /\
     available env api_key movie_id /\
     cross_reference env api_key movie_id imdb /\
     py_setitem movie "imdb_id" (JStr imdb) = Val item /\
     final_movies s' = final_movies s ++ [item]).
Proof.
  unfold check_movie, bind, lift, http_get, ret, append_movie, resp_json.
  intros H.
  destruct (env (length (trace s)) (WatchProviders api_key movie_id))
    as [presp|] eqn:Hp; simpl in H;
    [|inversion H; subst; simpl; rewrite discover_pages_app, app_nil_r; auto].
  destruct (body presp) as [prov|] eqn:Hpb; simpl in H;
    [|inversion H; subst; simpl; rewrite discover_pages_app, app_nil_r; auto].
  destruct (has_region prov) as [[|]|] eqn:Hreg; simpl in H;
    try (inversion H; subst; simpl; rewrite discover_pages_app, app_nil_r; auto; fail).
  destruct (has_flatrate prov) as [[|]|] eqn:Hflat; simpl in H;
    try (inversion H; subst; simpl; rewrite discover_pages_app, app_nil_r; auto; fail).
  destruct (env (length (trace s ++ [WatchProviders api_key movie_id]))
              (ExternalIds api_key movie_id)) as [eresp|] eqn:He; simpl in H;
    [|inversion H; subst; simpl; rewrite !discover_pages_app, !app_nil_r; auto].
  destruct (body eresp) as [ext|] eqn:Heb; simpl in H;
    [|inversion H; subst; simpl; rewrite !discover_pages_app, !app_nil_r; auto].
  destruct (py_get ext "imdb_id") as [imdb_id|] eqn:Hget; simpl in H;
    [|inversion H; subst; simpl; rewrite !discover_pages_app, !app_nil_r; auto].
  destruct (valid_imdb imdb_id) as [[|]|] eqn:Hval; simpl in H;
    try (inversion H; subst; simpl; rewrite !discover_pages_app, !app_nil_r; auto; fail).
  destruct (py_setitem movie "imdb_id" imdb_id) as [item|] eqn:Hset; simpl in H;
    [|inversion H; subst; simpl; rewrite !discover_pages_app, !app_nil_r; auto].
  inversion H; subst; simpl. rewrite !discover_pages_app, !app_nil_r.
  split; [done|]. right.
  unfold valid_imdb in Hval. destruct (truthy imdb_id); [|done].
  destruct imdb_id as [| | | |imdb| |]; try done. simpl in Hval.
  exists imdb, item. repeat split; auto.
  - exists (length (trace s)), presp, prov.
    split; [done|]. split; [done|]. by apply tests_list_flatrate.
  - eexists _, eresp, ext. repeat split; eauto. congruence.
Qed.

Lemma extends_refl s : extends env api_key [] s s.
Proof. split; [by rewrite app_nil_r|]. exists []. by rewrite app_nil_r. Qed.

Lemma extends_trans p1 p2 s1 s2 s3 :
  extends env api_key p1 s1 s2 -> extends env api_key p2 s2 s3 -> extends env api_key (p1 ++ p2) s1 s3.
Proof.
  intros [Ht1 (i1 & Hf1 & He1)] [Ht2 (i2 & Hf2 & He2)]. split.
  - by rewrite Ht2, Ht1, app_assoc.
  - exists (i1 ++ i2). split; [by rewrite Hf2, Hf1, app_assoc|].
    by apply Forall_app.
Qed.

Lemma movie_step_spec movie s r s' :
  movie_step env api_key movie s = (r, s') -> extends env api_key [] s s'.
Proof.
  unfold movie_step, bind, lift, try_except, ret. intros H.
  destruct (py_get movie "id") as [movie_id|] eqn:Hid;
    [|inversion H; subst; apply extends_refl].
  destruct (py_get movie "title") as [title|] eqn:Htitle;
    [|inversion H; subst; apply extends_refl].
  destruct (truthy movie_id) eqn:Tid; simpl in H;
    [|inversion H; subst; apply extends_refl].
  destruct (truthy title) eqn:Ttitle; simpl in H;
    [|inversion H; subst; apply extends_refl].
  destruct (check_movie env api_key movie movie_id s) as [r1 s1] eqn:Hc.
  unfold report_failure, bind, lift, ret in H.
  assert (s' = s1) as ->
    by (destruct r1; [by inversion H|destruct (print _); by inversion H]).
  apply check_movie_spec in Hc as [Ht [Hf|(imdb & item & _ & Ha & Hx & Hset & Hf)]].
  - split; [by rewrite app_nil_r|]. exists []. by rewrite app_nil_r.
  - split; [by rewrite app_nil_r|]. exists [item]. split; [done|].
    constructor; [|done]. by exists movie, movie_id, title, imdb.
Qed.

Lemma for_each_movie_spec movies s r s' :
  for_each (movie_step env api_key) movies s = (r, s') -> extends env api_key [] s s'.
Proof.
  revert s. induction movies as [|m movies IH]; simpl; intros s H.
  - inversion H; subst. apply extends_refl.
  - unfold bind in H.
    destruct (movie_step env api_key m s) as [r1 s1] eqn:Hm.
    apply movie_step_spec in Hm.
    destruct r1 as [[|]|].
    + apply IH in H. apply (extends_trans [] [] _ _ _ Hm H).
    + inversion H; by subst.
    + inversion H; by subst.
Qed.

(** One round of the page loop: it never raises, and it asks for its own
    page exactly once. *)
Lemma page_step_spec page s :
  exists f s',
    page_step env api_key language today page s = (Val f, s') /\
    extends env api_key [page] s s'.
Proof.
  unfold page_step, try_except, page_body, bind, lift, http_get, ret, resp_json.
  set (s1 := {| trace := trace s ++ [Discover api_key language today page];
                final_movies := final_movies s |}).
  assert (extends env api_key [page] s s1) as H1.
  { split; simpl; [by rewrite discover_pages_app|]. exists []. by rewrite app_nil_r. }
  destruct (env (length (trace s)) (Discover api_key language today page))
    as [resp|]; [|by exists Break, s1].
  destruct (status_code resp =? 200); simpl; [|by exists Break, s1].
  destruct (body resp) as [data|]; [|by exists Break, s1].
  destruct (py_get_default data "results" (JArr [])) as [results|];
    [|by exists Break, s1].
  destruct (truthy results); simpl; [|by exists Break, s1].
  destruct (py_iter results) as [movies|]; [|by exists Break, s1].
  destruct (for_each (movie_step env api_key) movies s1) as [r2 s2] eqn:H2.
  apply for_each_movie_spec in H2.
  pose proof (extends_trans [page] [] _ _ _ H1 H2) as H3.
  rewrite app_nil_r in H3.
  destruct r2; [by exists Next, s2 | by exists Break, s2].
Qed.

(** The page loop over any list of pages: it never raises, it asks for a
    prefix of the pages, each once and in order, and it leaves at a
    [break] or when the pages are used up. *)
Lemma page_loop_spec pages s :
  exists f s' n,
    for_each (page_step env api_key language today) pages s = (Val f, s') /\
    extends env api_key (take n pages) s s' /\
    (n <= length pages)%nat /\
    (pages <> [] -> (1 <= n)%nat) /\
    (f = Break \/ n = length pages).
Proof.
  revert s. induction pages as [|p pages IH]; intros s; simpl.
  - exists Next, s, 0%nat.
    split; [done|]. split; [apply extends_refl|]. split; [done|]. by split; [|right].
  - unfold bind.
    destruct (page_step_spec p s) as (f1 & s1 & -> & H1).
    destruct f1.
    + destruct (IH s1) as (f & s' & n & -> & H2 & Hn & _ & Hf).
      exists f, s', (S n).
      split; [done|]. split; [by apply (extends_trans [p] _ _ _ _ H1 H2)|].
      split; [simpl; lia|]. split; [lia|]. destruct Hf; [by left|right; simpl; lia].
    + exists Break, s1, 1%nat.
      split; [done|]. split; [by simpl; rewrite take_0|].
      split; [simpl; lia|]. split; [lia|by left].
Qed.

Lemma page_stops_break page s :
  page_stops (env (length (trace s)) (Discover api_key language today page)) ->
  page_step env api_key language today page s = (Val Break, asked api_key language today page s).
Proof.
  unfold page_stops, page_step, try_except, page_body, bind, lift, http_get, ret,
    resp_json, asked.
  destruct (env (length (trace s)) (Discover api_key language today page))
    as [resp|]; [|done].
  intros [Hst|(data & Hb & Hres)].
  - apply Z.eqb_neq in Hst. by rewrite Hst.
  - destruct (status_code resp =? 200); simpl; [|done]. by rewrite Hb, Hres.
Qed.

Lemma page_fails_stops r : page_fails r -> page_stops r.
Proof. destruct r; simpl; auto. Qed.

(** What the round of a dict does: nothing for a record without [id]
    or [title]; otherwise the enrichment, and after a failure of it the
    print of the handler. *)
Lemma movie_step_dict kv s :
  let movie_id := get_or kv "id" JNull in
  let title := get_or kv "title" JNull in
  let checked := check_movie env api_key (JObj kv) movie_id s in
  movie_step env api_key (JObj kv) s =
    if truthy movie_id && truthy title then
      (match checked.1 with
       | Val _ => Val Next
       | Exn => if writes (fstr movie_id) then Val Next else Exn
       end, checked.2)
    else (Val Next, s).
Proof.
  cbn zeta. unfold movie_step, bind, lift, ret, try_except, py_get, py_get_default, get_or.
  destruct (truthy (match assoc "id" kv with Some v => v | None => JNull end)); [|done].
  destruct (truthy (match assoc "title" kv with Some v => v | None => JNull end)); [|done].
  cbn [negb orb andb].
  destruct (check_movie _ _ _ _ s) as [[[]|] s1]; [done|].
  cbn [fst snd]. unfold report_failure, bind, lift, ret, print. cbn [forallb].
  rewrite andb_true_r. by destruct (writes _).
Qed.

Lemma movie_step_plain movie s :
  plain_record movie ->
  exists s1, movie_step env api_key movie s = (Val Next, s1).
Proof.
  intros (kv & -> & Hw). rewrite movie_step_dict. cbn zeta. rewrite Hw.
  destruct (truthy _ && truthy _); [|by exists s].
  destruct (check_movie _ _ _ _ s) as [[[]|] s1]; by exists s1.
Qed.

Lemma for_each_plain movies :
  Forall plain_record movies ->
  forall s, exists s1, for_each (movie_step env api_key) movies s = (Val Next, s1).
Proof.
  induction 1 as [|movie movies Hm _ IH]; intros s; [by exists s|].
  cbn [for_each]. unfold bind.
  destruct (movie_step_plain movie s Hm) as (s1 & ->). apply IH.
Qed.

(** A full page never ends the page loop. *)
Lemma page_step_full page s :
  full_page (env (length (trace s)) (Discover api_key language today page)) ->
  exists s1,
    page_step env api_key language today page s = (Val Next, s1) /\
    discover_pages (trace s1) = discover_pages (trace s) ++ [page].
Proof.
  intros (resp & data & movies & Hr & Hst & Hb & Hres & Hne & Hplain).
  destruct (page_step_spec page s) as (f & s1 & Hstep & [Hd _]).
  exists s1. split; [|done]. rewrite Hstep. f_equal. f_equal.
  revert Hstep.
  unfold page_step, try_except, page_body, bind, lift, http_get, ret, resp_json.
  rewrite Hr, Hst, Hb, Hres. cbn [Z.eqb Pos.eqb negb].
  destruct movies as [|m movies]; [done|]. cbn [truthy negb py_iter].
  destruct (for_each_plain _ Hplain
              {| trace := trace s ++ [Discover api_key language today page];
                 final_movies := final_movies s |}) as (s2 & ->).
  by intros [= <- _].
Qed.

Lemma page_loop_full pages :
  (forall n page, full_page (env n (Discover api_key language today page))) ->
  forall s, exists s1,
    for_each (page_step env api_key language today) pages s = (Val Next, s1) /\
    discover_pages (trace s1) = discover_pages (trace s) ++ pages.
Proof.
  intros Hfull. induction pages as [|page pages IH]; intros s.
  - exists s. by rewrite app_nil_r.
  - cbn [for_each]. unfold bind.
    destruct (page_step_full page s (Hfull _ _)) as (s1 & -> & Hd1).
    destruct (IH s1) as (s2 & -> & Hd2). exists s2. split; [done|].
    by rewrite Hd2, Hd1, <- app_assoc.
Qed.

(** The page loop and the dedup loop never raise, the collected entries
    are eligible, and the dedup loop deduplicates them. *)
Lemma collect_spec :
  exists f s unique,
    collect env api_key language today = (Val f, s) /\
    Forall (eligible env api_key) (final_movies s) /\
    dedup (final_movies s) [] [] = Val unique /\
    deduplicated (final_movies s) unique.
Proof.
  destruct (page_loop_spec TMDB_pages start) as (f & s & n & Hc & [_ Hext] & _).
  destruct Hext as (items & Hitems & Helig). simpl in Hitems. subst items.
  destruct (dedup_deduplicated (final_movies s)) as (unique & Hd & Hdd).
  { eapply Forall_impl; [exact Helig|]. intros. by eapply eligible_has_id. }
  by exists f, s, unique.
Qed.

Lemma announce_writes : announce language = if writes (py_upper language) then Val tt else Exn.
Proof. unfold announce, print. cbn [forallb]. by rewrite andb_true_r. Qed.

Lemma writes_check_mark : writes check_mark = stdout 0x2705.
Proof.
  unfold writes. replace (utf8_decode check_mark) with [0x2705%N] by (by vm_compute).
  cbn [forallb]. rewrite andb_true_r. reflexivity.
Qed.

(** What the run returns when it has written: its list, unless the
    stream cannot write the check mark. *)
Lemma report_writes unique :
  writes (py_upper language) = true ->
  report language unique = if stdout 0x2705 then Val unique else Exn.
Proof.
  intros Hw. unfold report, print. cbn [forallb].
  rewrite Hw, writes_check_mark. by destruct (stdout 0x2705).
Qed.

(** The run as a whole: when the stream writes its first line, the
    deduplicated list is written under the run's key; when it does not,
    the run raises before it asks or writes anything. *)
Lemma fetch_spec (movie_cache : gmap string (list json)) :
  exists f s unique,
    collect env api_key language today = (Val f, s) /\
    Forall (eligible env api_key) (final_movies s) /\
    dedup (final_movies s) [] [] = Val unique /\
    deduplicated (final_movies s) unique /\
    fetch_and_cache_movies env api_key language today movie_cache =
      if writes (py_upper language)
      then (report language unique,
            <[cache_key api_key language := unique]> movie_cache, trace s)
      else (Exn, movie_cache, []).
Proof.
  destruct collect_spec as (f & s & unique & Hc & Hel & Hd & Hdd).
  exists f, s, unique. split; [done|]. split; [done|]. split; [done|]. split; [done|].
  unfold fetch_and_cache_movies. rewrite announce_writes.
  destruct (writes (py_upper language)); [|done]. by rewrite Hc, Hd.
Qed.

End FetchFacts.


(** C3. Whatever the upstream answers, the list a run writes into the
    cache is the list it collected without its later duplicates: no two
    entries share an IMDb identifier, the entry kept for an identifier is
    the first one collected for it, and the kept entries stand in the
    order in which they were collected.  The run writes that list
    whenever the stream writes its first line (and returns it when the
    stream writes the check mark of its last line); otherwise it raises
    before it asks or writes anything. *)
Theorem cached_list_deduplicated env api_key language today
    (movie_cache : gmap string (list json)) :
  exists f s unique,
    collect env api_key language today = (Val f, s) /\
    fetch_and_cache_movies env api_key language today movie_cache =
      (if writes (py_upper language)
       then (if stdout 0x2705 then Val unique else Exn,
             <[cache_key api_key language := unique]> movie_cache, trace s)
       else (Exn, movie_cache, [])) /\
    deduplicated (final_movies s) unique.
Proof.
  destruct (fetch_spec env api_key language today movie_cache)
    as (f & s & unique & Hc & _ & _ & Hdd & Hf).
  exists f, s, unique. split; [done|]. split; [|done].
  rewrite Hf. destruct (writes (py_upper language)) eqn:Hw; [|done].
  by rewrite report_writes.
Qed.



(** C6. When the pages before page [1 + n] went through and the answer
    for page [1 + n] is a transport failure or a status other than 200,
    the run asks for nothing more (that page is not asked for again, no
    later page is asked for); what the earlier pages collected is kept,
    deduplicated and written under the run's key, and the run returns
    without raising (on a stream that writes the check mark of its last
    line).  This is so in every run that asks for a page at all: a run
    whose first line the stream does not write raises before its first
    request. *)
Theorem page_failure_keeps_collected env api_key language today
    (movie_cache : gmap string (list json)) (n : nat) (s : run_state) :
  (n < 999)%nat ->
  for_each (page_step env api_key language today) (py_range 1 n) start
    = (Val Next, s) ->
  page_fails (env (length (trace s))
                  (Discover api_key language today (1 + Z.of_nat n))) ->
  exists unique,
    fetch_and_cache_movies env api_key language today movie_cache =
      (if writes (py_upper language)
       then (if stdout 0x2705 then Val unique else Exn,
             <[cache_key api_key language := unique]> movie_cache,
             trace s ++ [Discover api_key language today (1 + Z.of_nat n)])
       else (Exn, movie_cache, [])) /\
    deduplicated (final_movies s) unique /\
    Forall (eligible env api_key) (final_movies s).
Proof.
  intros Hn Hpre Hfail.
  assert (collect env api_key language today
          = (Val Break, asked api_key language today (1 + Z.of_nat n) s)) as Hc.
  { unfold collect, TMDB_pages.
    replace 999%nat with (n + S (998 - n))%nat by lia.
    rewrite py_range_app, for_each_app, Hpre. cbn [py_range for_each]. unfold bind.
    rewrite page_stops_break; [done|by apply page_fails_stops]. }
  destruct (fetch_spec env api_key language today movie_cache)
    as (f & s' & unique & Hc' & Helig & _ & Hdd & Hf).
  rewrite Hc in Hc'. injection Hc' as <- <-.
  exists unique. rewrite Hf. split; [|done].
  destruct (writes (py_upper language)) eqn:Hw; [|done].
  by rewrite report_writes.
Qed.


(** C8. The page loop always comes to an end.  It asks for the pages
    1, 2, ..., n, each once and in this order, with n at most 999; it
    leaves at a [break] or after page 999.  An answer that is a
    transport failure, a status other than 200 or an empty page is the
    last one the loop asks for; after an answer with status 200 and
    records none of which ends the page, the loop goes on with the next
    page; and against an upstream that never stops answering so, the
    loop asks for the pages 1 to 999 and ends there. *)
Theorem pagination_terminates env api_key language today :
  (exists f s n,
     collect env api_key language today = (Val f, s) /\
     (1 <= n <= 999)%nat /\
     discover_pages (trace s) = py_range 1 n /\
     (f = Break \/ n = 999%nat)) /\
  (forall page rest s0,
     page_stops (env (length (trace s0)) (Discover api_key language today page)) ->
     for_each (page_step env api_key language today) (page :: rest) s0
       = (Val Break, asked api_key language today page s0)) /\
  (forall page rest s0,
     full_page (env (length (trace s0)) (Discover api_key language today page)) ->
     exists s1,
       page_step env api_key language today page s0 = (Val Next, s1) /\
       discover_pages (trace s1) = discover_pages (trace s0) ++ [page] /\
       for_each (page_step env api_key language today) (page :: rest) s0
       = for_each (page_step env api_key language today) rest s1) /\
  ((forall n page, full_page (env n (Discover api_key language today page))) ->
   exists s,
     collect env api_key language today = (Val Next, s) /\
     discover_pages (trace s) = py_range 1 999).
Proof.
  split; [|split; [|split]].
  - destruct (page_loop_spec env api_key language today TMDB_pages start)
      as (f & s & n & Hc & [Ht _] & Hn & H1 & Hf).
    unfold TMDB_pages in *. rewrite py_range_length in *.
    exists f, s, n. split; [done|]. split; [split; [by apply H1|done]|].
    split; [|done]. rewrite Ht. unfold start. cbn [trace discover_pages app].
    by rewrite take_py_range.
  - intros page rest s0 Hstop. cbn [for_each]. unfold bind.
    by rewrite page_stops_break.
  - intros page rest s0 Hfull.
    destruct (page_step_full env api_key language today page s0 Hfull)
      as (s1 & Hstep & Hd).
    exists s1. split; [done|]. split; [done|].
    cbn [for_each]. unfold bind. by rewrite Hstep.
  - intros Hfull.
    destruct (page_loop_full env api_key language today TMDB_pages Hfull start)
      as (s & Hc & Hd).
    exists s. split; [done|]. by rewrite Hd.
Qed.

(** ** More about the fetch run *)

Lemma movie_step_offered answers api_key movie item s :
  offered answers api_key movie item ->
  exists movie_id,
    movie_step (steady answers) api_key movie s
    = (Val Next,
       {| trace := trace s ++ [WatchProviders api_key movie_id;
                               ExternalIds api_key movie_id];
          final_movies := final_movies s ++ [item] |}).
Proof.
  intros (kv & movie_id & title & presp & prov & eresp & ext & imdb & -> & Hid & Tid
          & Htitle & Tt & Hp & Hpb & Hr & Hf & He & Heb & Hi & Hpre & ->).
  exists movie_id.
  unfold movie_step, bind, lift, py_get, py_get_default. rewrite Hid, Htitle, Tid, Tt.
  cbn [negb orb].
  unfold try_except, check_movie, bind, http_get, steady, lift, resp_json, ret.
  rewrite Hp, Hpb, Hr, Hf. cbn [trace final_movies]. rewrite He, Heb, Hi.
  unfold valid_imdb, py_startswith. cbn [truthy].
  destruct (String.eqb imdb "") eqn:E.
  { apply String.eqb_eq in E. subst. done. }
  cbn [negb]. rewrite Hpre. unfold py_setitem, append_movie. cbn [trace final_movies].
  by rewrite <- app_assoc.
Qed.

Lemma for_each_offered answers api_key page items :
  Forall2 (offered answers api_key) page items ->
  forall s, exists tr,
    for_each (movie_step (steady answers) api_key) page s
    = (Val Next, {| trace := trace s ++ tr;
                    final_movies := final_movies s ++ items |}) /\
    discover_pages tr = [].
Proof.
  induction 1 as [|movie item page items Ho _ IH]; intros s.
  - exists []. rewrite !app_nil_r. by destruct s.
  - cbn [for_each]. unfold bind.
    destruct (movie_step_offered answers api_key movie item s Ho) as (movie_id & ->).
    destruct (IH {| trace := trace s ++ [WatchProviders api_key movie_id;
                                         ExternalIds api_key movie_id];
                    final_movies := final_movies s ++ [item] |}) as (tr & -> & Htr).
    exists ([WatchProviders api_key movie_id; ExternalIds api_key movie_id] ++ tr).
    cbn [trace final_movies]. rewrite <- !app_assoc. split; [done|].
    by rewrite discover_pages_app, Htr.
Qed.

Lemma page_step_offered answers api_key language today p page items s :
  page_of (answers (Discover api_key language today p)) page ->
  Forall2 (offered answers api_key) page items ->
  exists tr,
    page_step (steady answers) api_key language today p s
    = (Val Next, {| trace := trace s ++ Discover api_key language today p :: tr;
                    final_movies := final_movies s ++ items |}) /\
    discover_pages tr = [].
Proof.
  intros (resp & data & Hr & Hst & Hb & Hres & Hne) Ho.
  unfold page_step, try_except, page_body, bind, http_get, steady, lift, resp_json, ret.
  rewrite Hr, Hst, Hb, Hres. cbn [Z.eqb Pos.eqb negb].
  destruct page as [|movie page]; [done|]. cbn [truthy negb py_iter].
  change (fun (_ : nat) (r : request) => answers r) with (steady answers).
  destruct (for_each_offered answers api_key _ _ Ho
              {| trace := trace s ++ [Discover api_key language today p];
                 final_movies := final_movies s |}) as (tr & -> & Htr).
  exists tr. cbn [trace final_movies]. by rewrite <- app_assoc.
Qed.

Lemma pages_offered answers api_key language today pages items :
  Forall2 (Forall2 (offered answers api_key)) pages items ->
  forall lo s,
    (forall i page, pages !! i = Some page ->
       page_of (answers (Discover api_key language today (lo + Z.of_nat i))) page) ->
    exists s',
      for_each (page_step (steady answers) api_key language today)
        (py_range lo (length pages)) s = (Val Next, s') /\
      final_movies s' = final_movies s ++ concat items /\
      discover_pages (trace s') = discover_pages (trace s) ++ py_range lo (length pages).
Proof.
  induction 1 as [|page its pages items Ho _ IH]; intros lo s Hpages.
  - exists s. by rewrite !app_nil_r.
  - cbn [length py_range for_each concat]. unfold bind.
    destruct (page_step_offered answers api_key language today lo page its s)
      as (tr & -> & Htr); [|done|].
    { specialize (Hpages 0%nat page eq_refl). by rewrite Z.add_0_r in Hpages. }
    destruct (IH (lo + 1) {| trace := trace s ++ Discover api_key language today lo :: tr;
                             final_movies := final_movies s ++ its |})
      as (s' & -> & Hf & Hd).
    { intros i pg Hi. specialize (Hpages (S i) pg Hi).
      by replace (lo + 1 + Z.of_nat i) with (lo + Z.of_nat (S i)) by lia. }
    exists s'. split; [done|]. cbn [trace final_movies] in Hf, Hd.
    split; [by rewrite Hf, <- app_assoc|].
    rewrite Hd, discover_pages_app. cbn [discover_pages]. rewrite Htr.
    by rewrite <- app_assoc.
Qed.

Lemma deduplicated_nodup collected unique :
  deduplicated collected unique ->
  Forall has_id collected ->
  NoDup (imdb_of <$> collected) ->
  unique = collected.
Proof.
  intros [Hsub _ Hevery _]. revert Hevery.
  induction Hsub as [|x l1 l2 Hsub IH|x l1 l2 Hsub IH]; intros Hevery Hids Hnd.
  - done.
  - f_equal. rewrite fmap_cons in Hnd. apply NoDup_cons in Hnd as [Hx Hnd].
    apply Forall_cons in Hids as [_ Hids].
    apply IH; [|done|done].
    intros m Hin. destruct (Hevery m) as (m' & Hin' & Heq); [by right|].
    apply elem_of_cons in Hin' as [->|Hin']; [|by exists m'].
    exfalso. apply Hx. rewrite Heq. apply list_elem_of_fmap. by exists m.
  - exfalso. rewrite fmap_cons in Hnd. apply NoDup_cons in Hnd as [Hx _].
    destruct (Hevery x) as (m' & Hin' & Heq); [left|].
    apply Hx. rewrite <- Heq. apply list_elem_of_fmap. exists m'. split; [done|].
    by eapply elem_of_sublist.
Qed.

Lemma offered_has_id answers api_key movie item :
  offered answers api_key movie item -> has_id item.
Proof.
  intros (kv & movie_id & title & presp & prov & eresp & ext & imdb & -> & _ & _
          & _ & _ & _ & _ & _ & _ & _ & _ & _ & Hpre & ->).
  exists (assoc_set "imdb_id" (JStr imdb) kv), imdb.
  split; [done|]. split; [apply assoc_set_same|by apply prefix_tt_nonempty].
Qed.

(** X6. Against an upstream that answers every request the same way
    whenever it is asked, that has the pages [pages] (fewer than 999,
    none of them empty) and then stops, and whose answers for every
    record on them show a subscription offer and an IMDb identifier, a
    run collects every record of every page, in the order of the pages:
    what it writes is that list without its later duplicates, so the
    whole list when the identifiers are all different (and it returns
    that list when the stream writes the check mark of its last line);
    it asks for one page more than there are, and no further.  This is
    so in every run that asks for a page at all: a run whose first line
    the stream does not write raises before its first request. *)
Theorem fetch_collects_every_offer answers api_key language today movie_cache
    (pages items : list (list json)) :
  (length pages < 999)%nat ->
  (forall i page, pages !! i = Some page ->
     page_of (answers (Discover api_key language today (1 + Z.of_nat i))) page) ->
  page_stops (answers (Discover api_key language today (1 + Z.of_nat (length pages)))) ->
  Forall2 (Forall2 (offered answers api_key)) pages items ->
  exists unique tr,
    fetch_and_cache_movies (steady answers) api_key language today movie_cache
    = (if writes (py_upper language)
       then (if stdout 0x2705 then Val unique else Exn,
             <[cache_key api_key language := unique]> movie_cache, tr)
       else (Exn, movie_cache, [])) /\
    deduplicated (concat items) unique /\
    (NoDup (imdb_of <$> concat items) -> unique = concat items) /\
    discover_pages tr = py_range 1 (S (length pages)).
Proof.
  intros Hlen Hpages Hstop Hoff.
  destruct (pages_offered answers api_key language today pages items Hoff 1 start Hpages)
    as (s1 & Hloop & Hf & Hd).
  assert (Forall has_id (concat items)) as Hids.
  { apply Forall_concat. clear -Hoff.
    induction Hoff as [|page its pages items Ho _ IH]; constructor; [|done].
    clear -Ho. induction Ho; constructor; [|done]. by eapply offered_has_id. }
  destruct (dedup_deduplicated (concat items) Hids) as (unique & Hdd & Hded).
  exists unique, (trace s1 ++ [Discover api_key language today
                                 (1 + Z.of_nat (length pages))]).
  assert (collect (steady answers) api_key language today
          = (Val Break, asked api_key language today (1 + Z.of_nat (length pages)) s1))
    as Hc.
  { unfold collect, TMDB_pages.
    replace 999%nat with (length pages + S (998 - length pages))%nat by lia.
    rewrite py_range_app, for_each_app, Hloop. cbn [py_range for_each]. unfold bind.
    by rewrite (page_stops_break (steady answers)). }
  split; [|split; [done|split]].
  - unfold fetch_and_cache_movies. rewrite announce_writes.
    destruct (writes (py_upper language)) eqn:Hw; [|done]. rewrite Hc.
    cbn [final_movies asked trace].
    rewrite Hf. cbn [start final_movies app]. by rewrite Hdd, report_writes.
  - intros Hnd. by apply deduplicated_nodup.
  - rewrite discover_pages_app, Hd. cbn [start trace discover_pages app].
    replace (S (length pages)) with (length pages + 1)%nat by lia.
    by rewrite py_range_app.
Qed.

Section Discipline.

Variable env : upstream.
Variable api_key : json.
Variables language today : string.

Lemma disciplined_snoc tr r :
  disciplined env api_key language today tr ->
  match r with
  | Discover k l t _ => k = api_key /\ l = language /\ t = today
  | WatchProviders k _ => k = api_key
  | ExternalIds _ _ => False
  end ->
  disciplined env api_key language today (tr ++ [r]).
Proof.
  intros Htr Hr n r' Hn.
  apply lookup_app_Some in Hn as [Hn|[Hlen Hn]].
  - specialize (Htr n r' Hn). destruct r'; [done..|].
    destruct Htr as (Hk & m & resp & prov & -> & Hm & Hrest). split; [done|].
    exists m, resp, prov. split; [done|]. split; [|done].
    by apply lookup_app_l_Some.
  - apply list_lookup_singleton_Some in Hn as [_ <-]. by destruct r.
Qed.

Lemma disciplined_external tr movie_id prov_response prov_data :
  disciplined env api_key language today tr ->
  env (length tr) (WatchProviders api_key movie_id) = Some prov_response ->
  body prov_response = Some prov_data ->
  has_region prov_data = Val true ->
  has_flatrate prov_data = Val true ->
  disciplined env api_key language today
    ((tr ++ [WatchProviders api_key movie_id]) ++ [ExternalIds api_key movie_id]).
Proof.
  intros Htr Hp Hb Hr Hf n r' Hn.
  apply lookup_app_Some in Hn as [Hn|[Hlen Hn]].
  - specialize (disciplined_snoc tr (WatchProviders api_key movie_id) Htr eq_refl n r' Hn)
      as H.
    destruct r'; [done..|].
    destruct H as (Hk & m & resp & prov & -> & Hm & Hrest). split; [done|].
    exists m, resp, prov. split; [done|]. split; [|done].
    by apply lookup_app_l_Some.
  - apply list_lookup_singleton_Some in Hn as [Hn <-]. split; [done|].
    rewrite length_app in Hlen, Hn. simpl in Hlen, Hn.
    exists (length tr), prov_response, prov_data.
    split; [lia|]. split; [|done].
    apply lookup_app_l_Some. by rewrite lookup_app_r, Nat.sub_diag.
Qed.

(** A step that leaves the calls of the run in order. *)
Definition keeps {A} (m : M A) : Prop :=
  forall s, disciplined env api_key language today (trace s) ->
            disciplined env api_key language today (trace (m s).2).

Lemma keeps_lift {A} (r : res A) : keeps (lift r).
Proof. by intros s. Qed.

Lemma keeps_bind {A B} (m : M A) (k : A -> M B) :
  keeps m -> (forall a, keeps (k a)) -> keeps (bind m k).
Proof.
  intros Hm Hk s Hs. unfold bind. specialize (Hm s Hs).
  destruct (m s) as [[a|] s1]; [|done]. by apply Hk.
Qed.

Lemma keeps_try {A} (m h : M A) : keeps m -> keeps h -> keeps (try_except m h).
Proof.
  intros Hm Hh s Hs. unfold try_except. specialize (Hm s Hs).
  destruct (m s) as [[a|] s1]; [done|]. by apply Hh.
Qed.

Lemma keeps_for_each {A} (body : A -> M flow) xs :
  (forall x, keeps (body x)) -> keeps (for_each body xs).
Proof.
  intros Hbody. induction xs as [|x xs IH]; [by intros s|].
  apply keeps_bind; [done|]. intros []; [done|by intros s].
Qed.

Lemma keeps_check_movie movie movie_id :
  keeps (check_movie env api_key movie movie_id).
Proof.
  intros s Hs.
  pose proof (disciplined_snoc _ (WatchProviders api_key movie_id) Hs eq_refl) as Hw.
  unfold check_movie, bind, http_get, lift, resp_json, ret.
  destruct (env (length (trace s)) (WatchProviders api_key movie_id))
    as [prov_response|] eqn:Hp; [|done]. cbn [trace final_movies].
  destruct (body prov_response) as [prov_data|] eqn:Hb; [|done].
  destruct (has_region prov_data) as [[]|] eqn:Hr; [|done..].
  destruct (has_flatrate prov_data) as [[]|] eqn:Hf; [|done..].
  pose proof (disciplined_external _ _ _ _ Hs Hp Hb Hr Hf) as He.
  cbn [trace final_movies].
  destruct (env _ (ExternalIds api_key movie_id)) as [ext_response|]; [|done].
  destruct (body ext_response) as [ext_data|]; [|done].
  destruct (py_get ext_data "imdb_id") as [imdb_id|]; [|done].
  destruct (valid_imdb imdb_id) as [[]|]; [|done..].
  by destruct (py_setitem movie "imdb_id" imdb_id).
Qed.

Lemma keeps_movie_step movie : keeps (movie_step env api_key movie).
Proof.
  unfold movie_step.
  apply keeps_bind; [apply keeps_lift|]. intros movie_id.
  apply keeps_bind; [apply keeps_lift|]. intros title.
  destruct (negb (truthy movie_id) || negb (truthy title)); [by intros s|].
  apply keeps_try.
  - apply keeps_bind; [apply keeps_check_movie|]. by intros _ s.
  - unfold report_failure. apply keeps_bind; [apply keeps_lift|]. by intros _ s.
Qed.

Lemma keeps_page_step page : keeps (page_step env api_key language today page).
Proof.
  unfold page_step. apply keeps_try; [|by intros s].
  unfold page_body. apply keeps_bind.
  { intros s Hs. unfold http_get.
    pose proof (disciplined_snoc _ (Discover api_key language today page) Hs
                  (conj eq_refl (conj eq_refl eq_refl))) as Hd.
    by destruct (env _ _). }
  intros resp. destruct (negb (status_code resp =? 200)); [by intros s|].
  apply keeps_bind; [apply keeps_lift|]. intros data.
  apply keeps_bind; [apply keeps_lift|]. intros results.
  destruct (negb (truthy results)); [by intros s|].
  apply keeps_bind; [apply keeps_lift|]. intros movies.
  apply keeps_bind; [|by intros _ s].
  apply keeps_for_each, keeps_movie_step.
Qed.

(** X7. In every run, whatever the upstream answers, every call carries
    the key of the run and every discovery call its language and date;
    and the run asks for the external identifiers of a record only right
    after a watch-provider call for the same record whose answer showed
    a subscription offer in India. *)
Theorem fetch_calls_in_order (movie_cache : gmap string (list json)) :
  disciplined env api_key language today
    (fetch_and_cache_movies env api_key language today movie_cache).2.
Proof.
  assert (disciplined env api_key language today
            (trace (collect env api_key language today).2)) as H.
  { apply keeps_for_each; [apply keeps_page_step|]. by intros n r Hn. }
  unfold fetch_and_cache_movies.
  destruct (announce language); [|by intros n r Hn].
  destruct (collect env api_key language today) as [[f|] s]; [|done].
  by destruct (dedup (final_movies s) [] []).
Qed.

End Discipline.
(** ** Facts about the catalog endpoint *)

Lemma eligible_servable env api_key item : eligible env api_key item -> servable item.
Proof.
  intros (movie & movie_id & title & imdb & _ & _ & Ht & Htt & _ & Hx & Hset).
  destruct Hx as (_ & _ & _ & _ & _ & _ & Hpre).
  destruct movie as [| | | | | |kv]; try done. injection Hset as <-.
  exists (assoc_set "imdb_id" (JStr imdb) kv), imdb, title.
  split; [done|]. split; [apply assoc_set_same|].
  split; [by apply prefix_tt_nonempty|].
  rewrite assoc_set_other by done.
  unfold py_get, py_get_default in Ht. injection Ht as Ht.
  destruct (assoc "title" kv) as [t|]; [by subst|]. by subst.
Qed.

Lemma truthy_str i : i <> "" -> truthy (JStr i) = true.
Proof. intros Hi. simpl. destruct (String.eqb_spec i ""); done. Qed.

(** The conversion of a servable entry is a dict that carries the
    entry's identifier and title. *)
Lemma to_stremio_meta_servable m :
  servable m ->
  exists fields i,
    to_stremio_meta m = JObj fields /\
    imdb_of m = Some i /\
    py_get (to_stremio_meta m) "id" = Val (JStr i) /\
    py_get (to_stremio_meta m) "name" = py_get m "title" /\
    truthy (to_stremio_meta m) = true.
Proof.
  intros (kv & i & title & -> & Hid & Hi & Ht & Htt).
  assert (String.eqb i "" = false) as Hne by (by apply String.eqb_neq).
  unfold to_stremio_meta, imdb_of. simpl. rewrite Hid, Ht. simpl.
  rewrite Hne, Htt. simpl.
  destruct (assoc "poster_path" kv) as [p|]; simpl;
    [destruct (truthy p)|]; simpl;
    (destruct (assoc "backdrop_path" kv) as [b|]; simpl;
       [destruct (truthy b)|]; simpl; eexists _, i; done).
Qed.

Lemma filter_truthy_servable page :
  Forall servable page ->
  List.filter truthy (map to_stremio_meta page) = map to_stremio_meta page.
Proof.
  induction 1 as [|m page Hm _ IH]; simpl; [done|].
  destruct (to_stremio_meta_servable m Hm) as (? & ? & _ & _ & _ & _ & ->).
  by rewrite IH.
Qed.



Lemma in_flight_started srv api_key language :
  in_flight {| movie_cache := movie_cache srv;
               threads := threads srv ++ [(api_key, language)] |}
            (cache_key api_key language)
  = S (in_flight srv (cache_key api_key language)).
Proof.
  unfold in_flight. simpl. rewrite List.filter_app, length_app. simpl.
  rewrite String.eqb_refl. simpl. lia.
Qed.

(** C1, amended.  A catalog request starts a fetch run for its key
    exactly when the cache has no list under the key at that moment: it
    then answers with no entries, leaves the cache as it is, and one more
    run is under way for the key, however many already are.  When the
    cache has a list under the key, the request starts no run and changes
    nothing. *)
Theorem catalog_starts_run_iff_uncached srv config_string language skip_arg
    api_key skip :
  request_for config_string skip_arg api_key skip ->
  let key := cache_key api_key language in
  let after := (catalog config_string language skip_arg srv).2 in
  match movie_cache srv !! key with
  | None =>
      catalog config_string language skip_arg srv
        = (Val {| status := 200; metas := [] |},
           {| movie_cache := movie_cache srv;
              threads := threads srv ++ [(api_key, language)] |}) /\
      in_flight after key = S (in_flight srv key)
  | Some _ => after = srv
  end.
Proof.
  intros (Hvalid & Hkey & Hskip). simpl.
  unfold catalog. rewrite Hvalid, Hkey, Hskip.
  destruct (movie_cache srv !! cache_key api_key language); simpl; [done|].
  split; [done|]. apply in_flight_started.
Qed.


(** C10. The handler is not total in the [skip] argument: there is a
    request with a configuration that holds an API key whose [skip] is
    not the text of an integer, and the handler raises on it, in every
    state (and leaves the state as it is). *)
Theorem catalog_skip_not_total :
  exists config_string language skip_arg api_key,
    invalid_config (decode_user_config config_string) = Val false /\
    py_index (decode_user_config config_string) "api_key" = Val api_key /\
    py_int skip_arg = Exn /\
    forall srv, catalog config_string language (Some skip_arg) srv = (Exn, srv).
Proof.
  exists "eyJhcGlfa2V5IjogImsifQ==", "ml", "abc", (JStr "k").
  split; [by vm_compute|]. split; [by vm_compute|]. split; [by vm_compute|].
  intros srv. unfold catalog.
  replace (decode_user_config "eyJhcGlfa2V5IjogImsifQ==")
    with (JObj [("api_key", JStr "k")]) by (by vm_compute).
  reflexivity.
Qed.

(** ** More about the catalog endpoint and the conversion *)

Lemma py_slice_sublist {A} (l : list A) lo hi : sublist (py_slice l lo hi) l.
Proof.
  unfold py_slice. etrans; [apply sublist_take|apply sublist_drop].
Qed.

Lemma py_slice_hundred {A} (l : list A) skip :
  (length (py_slice l skip (skip + 100)) <= 100)%nat.
Proof.
  unfold py_slice. rewrite length_take.
  destruct (skip <? 0) eqn:E1, (skip + 100 <? 0) eqn:E2; lia.
Qed.

(** X1. A configuration that does not decode (the text is not ASCII, or
    any step of the decoding raises, which leaves [None]), or that
    decodes to a dict without ["api_key"], is answered with status 400
    and no entries, whatever the [skip] argument is: the handler starts
    no run and changes nothing. *)
Theorem catalog_rejects_bad_config config_string language skip_arg srv :
  is_ascii config_string = false \/
  decode_user_config config_string = JNull \/
  (exists kv, decode_user_config config_string = JObj kv /\
              assoc "api_key" kv = None) ->
  catalog config_string language skip_arg srv
  = (Val {| status := 400; metas := [] |}, srv).
Proof.
  intros H.
  assert (invalid_config (decode_user_config config_string) = Val true) as Hi.
  { destruct H as [H|[H|(kv & H & Hk)]].
    - unfold decode_user_config, b64decode. by rewrite H.
    - by rewrite H.
    - rewrite H. unfold invalid_config. destruct (truthy (JObj kv)); [|done].
      simpl. by rewrite Hk. }
  unfold catalog. by rewrite Hi.
Qed.

(** X2. Whatever the request is, the catalog handler never writes into
    the cache, and it starts at most one run: the runs under way are the
    ones there were, with at most one added at the end. *)
Theorem catalog_only_reads config_string language skip_arg srv :
  let after := (catalog config_string language skip_arg srv).2 in
  movie_cache after = movie_cache srv /\
  exists started,
    threads after = threads srv ++ started /\ (length started <= 1)%nat.
Proof.
  unfold catalog. simpl.
  assert (forall r : res reply,
            movie_cache (r, srv).2 = movie_cache srv /\
            exists started, threads (r, srv).2 = threads srv ++ started /\
                            (length started <= 1)%nat) as Hsame.
  { intros r. split; [done|]. exists []. rewrite app_nil_r. split; [done|simpl; lia]. }
  destruct (invalid_config _) as [[]|]; [apply Hsame| |apply Hsame].
  destruct (py_index _ _) as [api_key|]; [|apply Hsame].
  destruct (skip_of skip_arg) as [skip|]; [|apply Hsame].
  destruct (movie_cache srv !! _); [apply Hsame|].
  split; [done|]. exists [(api_key, language)]. split; [done|simpl; lia].
Qed.

(** X3. An answer of the catalog handler never has more than 100
    entries, for any [skip], also a negative one (which Python counts
    from the end of the list); no entry is [None], and every entry is the
    conversion of an entry of the list cached under the key of the
    request. *)
Theorem catalog_answer_bounded config_string language skip_arg srv r after :
  catalog config_string language skip_arg srv = (Val r, after) ->
  (length (metas r) <= 100)%nat /\
  Forall (fun meta => truthy meta = true) (metas r) /\
  forall meta, meta ∈ metas r ->
    exists api_key cached item,
      py_index (decode_user_config config_string) "api_key" = Val api_key /\
      movie_cache srv !! cache_key api_key language = Some cached /\
      item ∈ cached /\ meta = to_stremio_meta item.
Proof.
  unfold catalog.
  assert (forall st,
    (length (metas {| status := st; metas := [] |}) <= 100)%nat /\
    Forall (fun meta => truthy meta = true) (metas {| status := st; metas := [] |}) /\
    forall meta, meta ∈ metas {| status := st; metas := [] |} ->
      exists api_key cached item,
        py_index (decode_user_config config_string) "api_key" = Val api_key /\
        movie_cache srv !! cache_key api_key language = Some cached /\
        item ∈ cached /\ meta = to_stremio_meta item) as Hnone.
  { intros st. simpl. split; [lia|]. split; [constructor|].
    intros meta Hin. by apply elem_of_nil in Hin. }
  destruct (invalid_config _) as [[]|]; [intros [= <- <-]; apply Hnone| |done].
  destruct (py_index _ _) as [api_key|] eqn:Hkey; [|done].
  destruct (skip_of skip_arg) as [skip|]; [|done].
  destruct (movie_cache srv !! _) as [cached|] eqn:Hc;
    [|intros [= <- <-]; apply Hnone].
  intros [= <- <-]. simpl. split; [|split].
  - etrans; [apply filter_length_le|]. rewrite length_map. apply py_slice_hundred.
  - apply Forall_forall. intros meta Hin.
    apply list_elem_of_In, filter_In in Hin as [_ Hin]. done.
  - intros meta Hin. apply list_elem_of_In, filter_In in Hin as [Hin _].
    apply in_map_iff in Hin as (item & <- & Hin).
    exists api_key, cached, item. split; [done|]. split; [done|]. split; [|done].
    eapply elem_of_sublist; [by apply list_elem_of_In|apply py_slice_sublist].
Qed.


(** X5. A run replaces the list under its key wholesale and touches no
    other key: the list it writes does not depend on what the cache
    held, a later run for the same key leaves the cache as if the earlier
    one had never been, and every other key keeps what it had. *)
Theorem fetch_replaces_wholesale env1 env2 api_key language today1 today2
    (movie_cache : gmap string (list json)) :
  let first := fetch_and_cache_movies env1 api_key language today1 movie_cache in
  fetch_and_cache_movies env2 api_key language today2 first.1.2
  = fetch_and_cache_movies env2 api_key language today2 movie_cache /\
  forall key, key <> cache_key api_key language -> first.1.2 !! key = movie_cache !! key.
Proof.
  cbn zeta.
  destruct (fetch_spec env1 api_key language today1 movie_cache)
    as (f1 & s1 & u1 & _ & _ & _ & _ & ->).
  destruct (writes (py_upper language)) eqn:Hw; cbn [fst snd]; [|done].
  split.
  - destruct (fetch_spec env2 api_key language today2 movie_cache)
      as (f2 & s2 & u2 & Hc2 & _ & Hd2 & _ & ->).
    destruct (fetch_spec env2 api_key language today2
                (<[cache_key api_key language := u1]> movie_cache))
      as (f3 & s3 & u3 & Hc3 & _ & Hd3 & _ & ->).
    rewrite Hc2 in Hc3. injection Hc3 as <- <-.
    rewrite Hd2 in Hd3. injection Hd3 as <-.
    by rewrite Hw, insert_insert_eq.
  - intros key Hkey. by rewrite lookup_insert_ne.
Qed.
(** ** The configuration codec *)

(** *** Base64 *)

Lemma b64_step b0 b1 b2 b3 b4 b5 rest quad pads :
  let v := Ascii b0 b1 b2 b3 b4 b5 false false in
  a2b_base64 (String (b64_char v) rest) quad pads =
  match quad with
  | [s1; s2; s3] =>
      let '(a, b, c) := octets s1 s2 s3 v in
      res_map (fun out => String a (String b (String c out)))
              (a2b_base64 rest [] 0)
  | _ => a2b_base64 rest (quad ++ [v]) 0
  end.
Proof. destruct b0, b1, b2, b3, b4, b5; reflexivity. Qed.

Lemma b64_char_ascii b0 b1 b2 b3 b4 b5 :
  (code (b64_char (Ascii b0 b1 b2 b3 b4 b5 false false)) <? 0x80)%N = true.
Proof. destruct b0, b1, b2, b3, b4, b5; reflexivity. Qed.

Lemma is_ascii_cons c s :
  is_ascii (String c s) = (code c <? 0x80)%N && is_ascii s.
Proof. reflexivity. Qed.

Lemma b64encode_ascii bs : is_ascii (b64encode bs) = true.
Proof.
  assert (forall n bs, (String.length bs < n)%nat -> is_ascii (b64encode bs) = true)
    as H; [|apply (H (S (String.length bs))); lia].
  clear bs. induction n as [|n IH]; intros bs Hn; [lia|].
  destruct bs as [|[a0 a1 a2 a3 a4 a5 a6 a7] [|[b0 b1 b2 b3 b4 b5 b6 b7]
    [|[c0 c1 c2 c3 c4 c5 c6 c7] rest]]]; [done| | |].
  - cbn [b64encode sextets zero]. by rewrite !is_ascii_cons, !b64_char_ascii.
  - cbn [b64encode sextets zero]. by rewrite !is_ascii_cons, !b64_char_ascii.
  - cbn [b64encode sextets]. rewrite !is_ascii_cons, !b64_char_ascii. simpl.
    apply IH. simpl in Hn. lia.
Qed.

(** Decoding what [b64encode] wrote gives the bytes back. *)
Lemma a2b_b64encode bs : a2b_base64 (b64encode bs) [] 0 = Val bs.
Proof.
  assert (forall n bs, (String.length bs < n)%nat ->
                       a2b_base64 (b64encode bs) [] 0 = Val bs)
    as H; [|apply (H (S (String.length bs))); lia].
  clear bs. induction n as [|n IH]; intros bs Hn; [lia|].
  destruct bs as [|[a0 a1 a2 a3 a4 a5 a6 a7] [|[b0 b1 b2 b3 b4 b5 b6 b7]
    [|[c0 c1 c2 c3 c4 c5 c6 c7] rest]]]; [done| | |].
  - cbn [b64encode sextets zero]. by rewrite !b64_step.
  - cbn [b64encode sextets zero]. by rewrite !b64_step.
  - cbn [b64encode sextets]. rewrite !b64_step. cbn [app octets].
    rewrite IH; [done|]. simpl in Hn. lia.
Qed.

Lemma b64decode_b64encode bs : b64decode (b64encode bs) = Val bs.
Proof. unfold b64decode. by rewrite b64encode_ascii, a2b_b64encode. Qed.

(** *** UTF-8 *)

Lemma code_chr n : (n < 256)%N -> code (chr n) = n.
Proof. apply N_ascii_embedding. Qed.

Lemma chr_code c : chr (code c) = c.
Proof. apply ascii_N_embedding. Qed.

Lemma utf8_decode_ascii s :
  is_ascii s = true ->
  utf8_decode s = map code (list_ascii_of_string s) /\
  utf8_encode (utf8_decode s) = s.
Proof.
  induction s as [|c s IH]; [done|].
  rewrite is_ascii_cons. intros [Hc Hs]%andb_true_iff.
  destruct (IH Hs) as [Hd He].
  cbn [utf8_decode]. unfold utf8_first. rewrite Hc. split.
  - cbn [list_ascii_of_string map]. by rewrite Hd.
  - unfold utf8_encode in *. cbn [fold_right]. unfold utf8_encode_cp at 1.
    rewrite Hc, chr_code, He. done.
Qed.

(** ASCII text is well-formed UTF-8. *)
Lemma utf8_valid_ascii s : is_ascii s = true -> utf8_valid s = true.
Proof.
  intros Hs. destruct (utf8_decode_ascii s Hs) as [Hd He].
  unfold utf8_valid. rewrite He, String.eqb_refl, andb_true_r, Hd.
  apply forallb_forall. intros c Hin. apply in_map_iff in Hin as (a & <- & Hin).
  unfold is_ascii in Hs. rewrite forallb_forall in Hs. specialize (Hs a Hin).
  unfold is_scalar. apply N.ltb_lt in Hs. apply orb_true_iff. left.
  apply N.ltb_lt. lia.
Qed.

(** *** Strings *)

Lemma append_assoc (a b c : string) : (a +:+ b) +:+ c = a +:+ (b +:+ c).
Proof. induction a as [|x a IH]; [done|]. cbn [String.append]. by f_equal. Qed.

Lemma append_nil_r (a : string) : a +:+ "" = a.
Proof. induction a as [|x a IH]; [done|]. cbn [String.append]. by f_equal. Qed.

Lemma hex_value_digit d : (d < 16)%N -> hex_value (hex_digit d) = Some d.
Proof.
  intros H.
  assert (d = 0 \/ d = 1 \/ d = 2 \/ d = 3 \/ d = 4 \/ d = 5 \/ d = 6 \/ d = 7 \/
          d = 8 \/ d = 9 \/ d = 10 \/ d = 11 \/ d = 12 \/ d = 13 \/ d = 14 \/
          d = 15)%N as Hd by lia.
  repeat (destruct Hd as [->|Hd]; [reflexivity|]). by subst.
Qed.

Lemma hex4_value_hex4 n :
  (n < 65536)%N ->
  hex4_value (hex_digit (n / 4096 mod 16)) (hex_digit (n / 256 mod 16))
             (hex_digit (n / 16 mod 16)) (hex_digit (n mod 16)) = Some n.
Proof.
  intros H. unfold hex4_value.
  rewrite !hex_value_digit by (apply N.mod_lt; lia).
  f_equal.
  replace (n / 256)%N with (n / 16 / 16)%N by (by rewrite N.Div0.div_div).
  replace (n / 4096)%N with (n / 16 / 16 / 16)%N by (by rewrite !N.Div0.div_div).
  pose proof (N.div_mod n 16 ltac:(lia)) as H1.
  pose proof (N.div_mod (n / 16) 16 ltac:(lia)) as H2.
  pose proof (N.div_mod (n / 16 / 16) 16 ltac:(lia)) as H3.
  assert (n / 16 / 16 / 16 < 16)%N as H4.
  { rewrite !N.Div0.div_div. apply N.Div0.div_lt_upper_bound. simpl. lia. }
  rewrite (N.mod_small _ 16 H4).
  generalize dependent (n / 16 / 16 / 16)%N. intros q3 H3 H4.
  generalize dependent (n / 16 / 16)%N. intros q2 H2 H3.
  generalize dependent (n / 16)%N. intros q1 H1 H2.
  lia.
Qed.

(** The scanner on a [\u] escape. *)
Lemma scan_u_escape h1 h2 h3 h4 r2 :
  scan_string (String backslash (String "u"
                 (String h1 (String h2 (String h3 (String h4 r2)))))) =
  match hex4_value h1 h2 h3 h4 with
  | None => None
  | Some u =>
      match r2 with
      | String b (String e2 (String g1 (String g2 (String g3 (String g4 r3))))) =>
          if is_high u && Ascii.eqb b backslash && Ascii.eqb e2 "u" then
            match hex4_value g1 g2 g3 g4 with
            | None => None
            | Some l =>
                if is_low l
                then put (utf8_encode_cp (join_surrogates u l)) (scan_string r3)
                else put (utf8_encode_cp u) (scan_string r2)
            end
          else put (utf8_encode_cp u) (scan_string r2)
      | _ => put (utf8_encode_cp u) (scan_string r2)
      end
  end.
Proof. reflexivity. Qed.

Lemma scan_single n rest :
  (n < 65536)%N -> is_high n = false ->
  scan_string (u_escape n +:+ rest) = put (utf8_encode_cp n) (scan_string rest).
Proof.
  intros Hn Hh. unfold u_escape, hex4. cbn [String.append].
  rewrite scan_u_escape, hex4_value_hex4 by done. rewrite Hh. simpl.
  by destruct rest as [|? [|? [|? [|? [|? [|? ?]]]]]].
Qed.

Lemma scan_pair h l rest :
  (h < 65536)%N -> (l < 65536)%N -> is_high h = true -> is_low l = true ->
  scan_string (u_escape h +:+ u_escape l +:+ rest)
  = put (utf8_encode_cp (join_surrogates h l)) (scan_string rest).
Proof.
  intros Hh Hl Hhi Hlo. unfold u_escape, hex4. cbn [String.append].
  rewrite scan_u_escape, hex4_value_hex4 by done.
  rewrite Hhi. cbn [andb Ascii.eqb backslash]. 
  replace (Ascii.eqb backslash backslash) with true by reflexivity.
  replace (Ascii.eqb "u" "u") with true by reflexivity.
  cbn [andb]. by rewrite hex4_value_hex4, Hlo.
Qed.

Lemma scan_plain ch rest :
  ch <> dquote -> ch <> backslash -> (code ch <? 0x20)%N = false ->
  scan_string (String ch rest) = put (String ch "") (scan_string rest).
Proof.
  intros H1%Ascii.eqb_neq H2%Ascii.eqb_neq H3. cbn [scan_string].
  by rewrite H1, H2, H3.
Qed.

Lemma chr_inj_lt n m : (n < 256)%N -> (m < 256)%N -> chr n = chr m -> n = m.
Proof. intros Hn Hm H. by rewrite <- (code_chr n), <- (code_chr m), H. Qed.

(** The scanner reads what [ensure_ascii] wrote for a scalar value. *)
Lemma scan_escape_cp c rest :
  is_scalar c = true ->
  scan_string (escape_cp c +:+ rest) = put (utf8_encode_cp c) (scan_string rest).
Proof.
  intros Hc. unfold escape_cp.
  destruct (N.eqb_spec c 0x22) as [->|N1]; [reflexivity|].
  destruct (N.eqb_spec c 0x5C) as [->|N2]; [reflexivity|].
  destruct (N.eqb_spec c 0x0A) as [->|N3]; [reflexivity|].
  destruct (N.eqb_spec c 0x0D) as [->|N4]; [reflexivity|].
  destruct (N.eqb_spec c 0x09) as [->|N5]; [reflexivity|].
  destruct (N.eqb_spec c 0x08) as [->|N6]; [reflexivity|].
  destruct (N.eqb_spec c 0x0C) as [->|N7]; [reflexivity|].
  unfold is_scalar in Hc.
  destruct (N.leb_spec 0x20 c) as [L1|L1]; cbn [andb];
    [destruct (N.leb_spec c 0x7E) as [L2|L2]|].
  - cbn [String.append]. rewrite scan_plain.
    + unfold utf8_encode_cp. destruct (N.ltb_spec c 0x80); [done|lia].
    + intros E. apply (chr_inj_lt c 0x22) in E; lia.
    + intros E. apply (chr_inj_lt c 0x5C) in E; lia.
    + rewrite code_chr by lia. apply N.ltb_ge. lia.
  - destruct (N.ltb_spec c 0x10000) as [L3|L3].
    + apply scan_single; [done|]. unfold is_high.
      destruct (N.leb_spec 0xD800 c), (N.leb_spec c 0xDBFF); try done.
      destruct (N.ltb_spec c 0xD800); [lia|].
      destruct (N.leb_spec 0xE000 c); [lia|done].
    + destruct (N.ltb_spec c 0xD800); [lia|]. cbn [orb] in Hc.
      apply andb_true_iff in Hc as [_ Hc%N.ltb_lt].
      pose proof (N.div_mod (c - 0x10000) 1024 ltac:(lia)) as Hdm.
      pose proof (N.mod_lt (c - 0x10000) 1024 ltac:(lia)) as Hm.
      assert ((c - 0x10000) / 1024 < 1024)%N as Hq
        by (apply N.Div0.div_lt_upper_bound; lia).
      rewrite (N.mod_small _ 1024 Hq).
      set (q := ((c - 0x10000) / 1024)%N) in *.
      set (m := ((c - 0x10000) mod 1024)%N) in *. clearbody q m.
      rewrite append_assoc, scan_pair.
      * do 2 f_equal. unfold join_surrogates. lia.
      * lia.
      * lia.
      * unfold is_high. apply andb_true_iff. split; apply N.leb_le; lia.
      * unfold is_low. apply andb_true_iff. split; apply N.leb_le; lia.
  - destruct (N.ltb_spec c 0x10000); [|lia].
    apply scan_single; [lia|]. unfold is_high.
    destruct (N.leb_spec 0xD800 c); [lia|done].
Qed.

Lemma put_put a b r : put a (put b r) = put (a +:+ b) r.
Proof. destruct r as [[s rest]|]; simpl; [|done]. by rewrite append_assoc. Qed.

Lemma scan_escape cps rest :
  forallb is_scalar cps = true ->
  scan_string (escape cps +:+ String dquote rest) = Some (utf8_encode cps, rest).
Proof.
  induction cps as [|c cps IH]; intros H.
  - reflexivity.
  - cbn [forallb] in H. apply andb_true_iff in H as [Hc Hs].
    unfold escape, utf8_encode in *. cbn [fold_right].
    rewrite append_assoc, scan_escape_cp, IH by done. done.
Qed.

(** A quoted text is read back as it was. *)
Lemma scan_quote s rest :
  utf8_valid s = true ->
  scan_string (escape (utf8_decode s) +:+ String dquote rest) = Some (s, rest).
Proof.
  unfold utf8_valid. intros [Hs He%String.eqb_eq]%andb_true_iff.
  rewrite scan_escape by done. by rewrite He.
Qed.

(** *** Numbers *)

Lemma span_digits_app s d r rest :
  span_digits s = (d, r) ->
  (r = "" -> ends_number rest = true) ->
  span_digits (s +:+ rest) = (d, r +:+ rest).
Proof.
  revert d r. induction s as [|c s IH]; intros d r Hs Hr.
  - injection Hs as <- <-. simpl.
    destruct rest as [|c rest]; [done|]. simpl in *.
    specialize (Hr eq_refl). destruct (is_digit c); [done|done].
  - cbn [span_digits String.append] in *.
    destruct (is_digit c).
    + destruct (span_digits s) as [d' r'] eqn:E. injection Hs as <- <-.
      by rewrite (IH d' r' eq_refl Hr).
    + by injection Hs as <- <-.
Qed.

Lemma scan_int_app s i r rest :
  scan_int s = Some (i, r) ->
  ends_number rest = true ->
  scan_int (s +:+ rest) = Some (i, r +:+ rest).
Proof.
  intros Hs Hr. destruct s as [|c s]; [done|].
  cbn [scan_int String.append] in *.
  destruct (Ascii.eqb c "0"); [by injection Hs as <- <-|].
  destruct (is_digit c); [|done].
  destruct (span_digits s) as [d' r'] eqn:E. injection Hs as <- <-.
  by rewrite (span_digits_app s d' r' rest E).
Qed.

Lemma ends_number_head c rest :
  ends_number (String c rest) = true ->
  is_digit c = false /\ c <> "."%char /\ c <> "e"%char /\ c <> "E"%char /\
  c <> "+"%char /\ c <> "-"%char.
Proof.
  simpl. intros H%negb_true_iff.
  repeat (apply orb_false_iff in H as [H ?]).
  repeat split; try done; by apply Ascii.eqb_neq.
Qed.

Lemma scan_frac_app s f r rest :
  scan_frac s = (f, r) ->
  ends_number rest = true ->
  scan_frac (s +:+ rest) = (f, r +:+ rest).
Proof.
  intros Hs Hr. destruct s as [|c s].
  - injection Hs as <- <-. simpl. destruct rest as [|c rest]; [done|].
    apply ends_number_head in Hr as (_ & Hdot & _).
    unfold scan_frac.
    destruct c as [[] [] [] [] [] [] [] []]; try done.
    all: by destruct rest.
  - destruct (Ascii.eqb_spec c ".") as [->|Hc].
    + destruct s as [|c2 s].
      * injection Hs as <- <-. simpl.
        destruct rest as [|c rest]; [done|].
        apply ends_number_head in Hr as (-> & _). done.
      * cbn [scan_frac String.append] in *. destruct (is_digit c2); [|by injection Hs as <- <-].
        destruct (span_digits (String c2 s)) as [d' r'] eqn:E.
        injection Hs as <- <-.
        change (String c2 (s +:+ rest)) with (String c2 s +:+ rest).
        by rewrite (span_digits_app (String c2 s) d' r' rest E).
    + assert (scan_frac (String c s) = ("", String c s)) as H1.
      { destruct c as [[] [] [] [] [] [] [] []]; try done. }
      assert (scan_frac (String c s +:+ rest) = ("", String c s +:+ rest)) as H2.
      { cbn [String.append]. destruct c as [[] [] [] [] [] [] [] []]; try done. }
      rewrite H1 in Hs. injection Hs as <- <-. done.
Qed.

Lemma scan_exp_app s x r rest :
  scan_exp s = (x, r) ->
  ends_number rest = true ->
  scan_exp (s +:+ rest) = (x, r +:+ rest).
Proof.
  intros Hs Hr. destruct s as [|e s].
  - injection Hs as <- <-. simpl. destruct rest as [|c rest]; [done|].
    apply ends_number_head in Hr as (_ & _ & He1%Ascii.eqb_neq & He2%Ascii.eqb_neq & _).
    cbn [scan_exp]. by rewrite He1, He2.
  - cbn [scan_exp String.append] in *.
    destruct (Ascii.eqb e "e" || Ascii.eqb e "E"); [|by injection Hs as <- <-].
    destruct s as [|c s].
    + cbn [String.append]. simpl in Hs. injection Hs as <- <-.
      destruct rest as [|c rest]; [done|].
      apply ends_number_head in Hr
        as (Hd & _ & _ & _ & Hp%Ascii.eqb_neq & Hm%Ascii.eqb_neq).
      rewrite Hp, Hm. simpl. by rewrite Hd.
    + cbn [String.append].
      destruct (Ascii.eqb c "-" || Ascii.eqb c "+").
      * destruct (span_digits s) as [d' r'] eqn:E.
        rewrite (span_digits_app s d' r' rest E) by (intros; done).
        destruct d'; by injection Hs as <- <-.
      * destruct (span_digits (String c s)) as [d' r'] eqn:E.
        change (String c (s +:+ rest)) with (String c s +:+ rest).
        rewrite (span_digits_app (String c s) d' r' rest E) by (intros; done).
        destruct d'; by injection Hs as <- <-.
Qed.

(** A number that was read to its end is read the same way in front of
    anything that ends a number. *)
Lemma scan_number_app s v rest :
  scan_number s = Some (v, "") ->
  ends_number rest = true ->
  scan_number (s +:+ rest) = Some (v, rest).
Proof.
  intros Hs Hr. unfold scan_number in *.
  assert (exists sign s1,
    (match s with String "-" r => ("-", r) | _ => ("", s) end) = (sign, s1) /\
    (match s +:+ rest with String "-" r => ("-", r) | _ => ("", s +:+ rest) end)
      = (sign, s1 +:+ rest) /\ s1 <> "") as (sign & s1 & E1 & E2 & Hne).
  { destruct s as [|c s]; [done|].
    destruct (Ascii.eqb_spec c "-") as [->|Hc].
    - exists "-", s. split; [done|]. split; [done|]. intros ->. done.
    - exists "", (String c s). split; [|split; [|done]].
      + destruct c as [[] [] [] [] [] [] [] []]; done.
      + cbn [String.append]. destruct c as [[] [] [] [] [] [] [] []]; done. }
  rewrite E1 in Hs. rewrite E2.
  destruct (scan_int s1) as [[i r1]|] eqn:Ei; [|done].
  rewrite (scan_int_app s1 i r1 rest Ei Hr).
  destruct (scan_frac r1) as [f r2] eqn:Ef.
  rewrite (scan_frac_app r1 f r2 rest Ef Hr).
  destruct (scan_exp r2) as [x r3] eqn:Ex.
  rewrite (scan_exp_app r2 x r3 rest Ex Hr).
  destruct f, x; try (by injection Hs as <- ->).
  destruct (int_value (sign +:+ i)); [|done]. by injection Hs as <- ->.
Qed.

Lemma span_digits_uint d :
  span_digits (NilEmpty.string_of_uint d) = (NilEmpty.string_of_uint d, "").
Proof. induction d; simpl; rewrite ?IHd; done. Qed.

Lemma is_ascii_uint d : is_ascii (NilEmpty.string_of_uint d) = true.
Proof. induction d; simpl; try done; by rewrite is_ascii_cons, IHd. Qed.

Lemma to_uint_head p : forall u, Pos.to_uint p <> Decimal.D0 u.
Proof.
  intros u Hu.
  assert (Decimal.unorm (Pos.to_uint p) = Pos.to_uint p) as Hn.
  { rewrite <- (DecimalPos.Unsigned.to_of (Pos.to_uint p)).
    by rewrite DecimalPos.Unsigned.of_to. }
  rewrite Hu, DecimalFacts.unorm_D0 in Hn.
  destruct (Decimal.uint_eq_dec u Decimal.Nil) as [->|Hnil].
  - by apply (DecimalPos.Unsigned.to_uint_nonzero p).
  - pose proof (DecimalFacts.nb_digits_unorm u Hnil) as Hle.
    rewrite Hn in Hle. simpl in Hle. lia.
Qed.

(** A run of digits that does not start with [0], with or without a
    sign in front, is read as the integer it spells. *)
Lemma scan_number_uint d (negative : bool) :
  d <> Decimal.Nil -> (forall u, d <> Decimal.D0 u) ->
  let text := NilEmpty.string_of_int (if negative then Decimal.Neg d else Decimal.Pos d) in
  (String.length (unsigned text) <= int_max_str_digits)%nat ->
  scan_number text
  = Some (JInt (Z.of_int (if negative then Decimal.Neg d else Decimal.Pos d)), "").
Proof.
  intros Hnil Hzero text Hlen.
  assert (exists c s, NilEmpty.string_of_uint d = String c s /\
                      scan_int (String c s) = Some (String c s, "") /\
                      c <> "-"%char) as (c & s & Hd & Hscan & Hc).
  { destruct d; try done; [by destruct (Hzero d)|..]; simpl;
      eexists _, _; (split; [done|]);
      (split; [simpl; by rewrite span_digits_uint|done]). }
  assert (int_value text = Some (Z.of_int (if negative then Decimal.Neg d else Decimal.Pos d)))
    as Hval.
  { unfold int_value.
    destruct (Nat.ltb_spec int_max_str_digits (String.length (unsigned text)));
      [lia|].
    unfold text. by rewrite NilEmpty.isi. }
  unfold scan_number.
  destruct negative; unfold text in *; cbn [NilEmpty.string_of_int] in *.
  - rewrite Hd in *. rewrite Hscan. simpl. simpl in Hval. by rewrite Hval.
  - rewrite Hd in *.
    assert ((match String c s with String "-" r => ("-", r) | _ => ("", String c s) end)
            = ("", String c s)) as ->.
    { destruct c as [[] [] [] [] [] [] [] []]; done. }
    rewrite Hscan. simpl. by rewrite Hval.
Qed.

(** [json.loads] reads an integer as [json.dumps] writes it. *)
Lemma small_int_length n :
  well_formed (JInt n) = true ->
  (String.length (unsigned (int_text n)) <= int_max_str_digits)%nat.
Proof.
  cbn [well_formed]. unfold int_repr.
  by destruct (Nat.ltb_spec int_max_str_digits (String.length (unsigned (int_text n)))).
Qed.

Lemma scan_number_int n :
  well_formed (JInt n) = true -> scan_number (int_text n) = Some (JInt n, "").
Proof.
  intros Hlen%small_int_length. revert Hlen.
  unfold int_text. rewrite <- (DecimalZ.of_to n) at 3.
  destruct n as [|p|p]; [reflexivity|..]; cbn [Z.to_int]; intros Hlen.
  - apply (scan_number_uint (Pos.to_uint p) false);
      [apply DecimalPos.Unsigned.to_uint_nonnil|apply to_uint_head|done].
  - apply (scan_number_uint (Pos.to_uint p) true);
      [apply DecimalPos.Unsigned.to_uint_nonnil|apply to_uint_head|done].
Qed.

Lemma is_ascii_int n : is_ascii (int_text n) = true.
Proof.
  unfold int_text.
  destruct (Z.to_int n); simpl; [|rewrite is_ascii_cons]; by rewrite is_ascii_uint.
Qed.

(** *** Values *)

(** Induction over a value and the values inside it. *)
Lemma json_nested_ind (P : json -> Prop) :
  P JNull -> (forall b, P (JBool b)) -> (forall n, P (JInt n)) ->
  (forall f, P (JFloat f)) -> (forall s, P (JStr s)) ->
  (forall l, Forall P l -> P (JArr l)) ->
  (forall kv, Forall (fun p => P (snd p)) kv -> P (JObj kv)) ->
  forall v, P v.
Proof.
  intros Hnull Hbool Hint Hfloat Hstr Harr Hobj.
  fix IH 1.
  intros [| b | n | f | s | l | kv];
    [exact Hnull | apply Hbool | apply Hint | apply Hfloat | apply Hstr | | ].
  - apply Harr. revert l. fix IHl 1. intros [|x l]; constructor; [apply IH|apply IHl].
  - apply Hobj. revert kv. fix IHl 1.
    intros [|[k x] kv]; constructor; [apply IH|apply IHl].
Qed.

Lemma dumps_arr x l : json_text (JArr (x :: l)) = "[" +:+ json_text x +:+ dump_items l.
Proof. reflexivity. Qed.

Lemma dumps_obj k x l :
  json_text (JObj ((k, x) :: l)) = "{" +:+ quote k +:+ ": " +:+ json_text x +:+ dump_members l.
Proof. reflexivity. Qed.

Lemma follows_ends_number rest : follows rest = true -> ends_number rest = true.
Proof.
  destruct rest as [|c rest]; [done|]. simpl.
  intros H. repeat (apply orb_true_iff in H as [H|H]);
    apply Ascii.eqb_eq in H; by subst.
Qed.

Lemma value_head_app s rest : value_head s = true -> value_head (s +:+ rest) = true.
Proof. by destruct s. Qed.

Lemma skip_ws_value s : value_head s = true -> skip_ws s = s.
Proof.
  destruct s as [|c s]; [done|]. simpl.
  destruct (is_ws c); [done|done].
Qed.

Lemma scan_number_head s v r :
  scan_number s = Some (v, r) -> value_head s = true.
Proof.
  destruct s as [|c s]; [done|].
  destruct c as [[] [] [] [] [] [] [] []]; try done.
Qed.

(** The scanner takes a text that reads as a number for a number. *)
Lemma parse_value_number n d s v r :
  scan_number s = Some (v, r) -> parse_value (S n) d s = Some (v, r).
Proof.
  destruct s as [|c s]; [done|].
  destruct c as [[] [] [] [] [] [] [] []]; try done.
  intros H. destruct s as [|c s]; [done|].
  destruct c as [[] [] [] [] [] [] [] []]; try done.
Qed.

Lemma float_ok_scan m e :
  float_ok (FFin m e) = true ->
  is_ascii (py_repr (JFloat (FFin m e))) = true /\
  scan_number (py_repr (JFloat (FFin m e))) = Some (JFloat (FFin m e), "").
Proof.
  unfold float_ok. intros [Ha Hs]%andb_true_iff. split; [done|].
  destruct (scan_number _) as [[[| | |[| |m' e']| | |] [|? ?]]|]; try done.
  apply andb_true_iff in Hs as [->%Z.eqb_eq ->%Z.eqb_eq]. done.
Qed.

Lemma value_head_dumps v : well_formed v = true -> value_head (json_text v) = true.
Proof.
  destruct v as [|[]|n|[|[]|m e]|s|[|x l]|[|[k x] kv]]; try done.
  - intros Hn. by eapply scan_number_head, scan_number_int.
  - intros [_ H]%float_ok_scan. by eapply scan_number_head.
Qed.

Lemma follows_items l rest : follows (dump_items l +:+ rest) = true.
Proof. by destruct l. Qed.

Lemma follows_members l rest : follows (dump_members l +:+ rest) = true.
Proof. by destruct l as [|[k x] l]. Qed.

Lemma assoc_set_fresh k v kv :
  existsb (String.eqb k) (map fst kv) = false -> assoc_set k v kv = kv ++ [(k, v)].
Proof.
  induction kv as [|[k' v'] kv IH]; simpl; [done|].
  intros [Hk Hkv]%orb_false_iff. by rewrite Hk, IH.
Qed.

Lemma existsb_app_false {A} (f : A -> bool) l1 l2 :
  existsb f (l1 ++ l2) = false <-> existsb f l1 = false /\ existsb f l2 = false.
Proof. rewrite existsb_app. apply orb_false_iff. Qed.

(** [dict(pairs)] of pairs with different keys is the pairs themselves. *)
Lemma dict_of_pairs_distinct kv : distinct (map fst kv) = true -> dict_of_pairs kv = kv.
Proof.
  unfold dict_of_pairs.
  assert (forall acc,
    distinct (map fst kv) = true ->
    (forall k, In k (map fst kv) -> existsb (String.eqb k) (map fst acc) = false) ->
    fold_left (fun d p => assoc_set (fst p) (snd p) d) kv acc = acc ++ kv) as H.
  { induction kv as [|[k v] kv IH]; intros acc Hd Hacc; simpl.
    - by rewrite app_nil_r.
    - simpl in Hd. apply andb_true_iff in Hd as [Hk%negb_true_iff Hd].
      rewrite assoc_set_fresh by (apply Hacc; by left).
      rewrite IH; [by rewrite <- app_assoc|done|].
      intros k' Hin. rewrite map_app. apply existsb_app_false. split.
      + apply Hacc. by right.
      + simpl. rewrite orb_false_r. apply String.eqb_neq. intros ->.
        assert (existsb (String.eqb k) (map fst kv) = true) as Hex; [|congruence].
        apply existsb_exists. exists k. split; [done|apply String.eqb_refl]. }
  intros Hd. by apply (H []).
Qed.

Lemma parse_string_value n d s rest :
  utf8_valid s = true ->
  parse_value (S n) d (quote s +:+ rest) = Some (JStr s, rest).
Proof.
  intros Hs. unfold quote. cbn [String.append parse_value].
  replace (Ascii.eqb dquote dquote) with true by reflexivity.
  rewrite append_assoc. cbn [String.append]. by rewrite (scan_quote s rest Hs).
Qed.

Lemma items_cons y l rest :
  dump_items (y :: l) +:+ rest
  = String "," (String " " (json_text y +:+ dump_items l +:+ rest)).
Proof. cbn [dump_items]. by rewrite !append_assoc. Qed.

Lemma members_cons k y l rest :
  dump_members ((k, y) :: l) +:+ rest
  = String "," (String " " (quote k +:+ ": " +:+ json_text y +:+ dump_members l +:+ rest)).
Proof. cbn [dump_members]. by rewrite !append_assoc. Qed.

Lemma member_text k x tail :
  quote k +:+ ": " +:+ x +:+ tail
  = String dquote (escape (utf8_decode k) +:+
                   String dquote (String ":" (String " " (x +:+ tail)))).
Proof. unfold quote. cbn [String.append]. by rewrite !append_assoc. Qed.

Lemma parse_items_dumps l : forall x m d rest,
  reads_back x -> Forall reads_back l ->
  (list_sum (map (fun x => S (size x)) (x :: l)) <= m)%nat ->
  (list_max (map nesting (x :: l)) <= d)%nat ->
  follows rest = true ->
  parse_items m d (json_text x +:+ dump_items l +:+ rest) = Some (x :: l, rest).
Proof.
  induction l as [|y l IH]; intros x m d rest [Hx IHx] Hall Hm Hd Hrest;
    (destruct m as [|m]; [simpl in Hm; lia|]); cbn [parse_items];
    cbn [map list_max fold_right] in Hd.
  - rewrite IHx; [done| simpl in Hm; lia | lia | done].
  - rewrite IHx; [| simpl in Hm; lia | lia | by rewrite items_cons].
    apply Forall_cons in Hall as [Hy Hall].
    rewrite items_cons.
    change (skip_ws (String "," ?s)) with (String "," s). cbv beta iota.
    change (skip_ws (String " " ?s)) with (skip_ws s).
    rewrite skip_ws_value by (apply value_head_app, value_head_dumps, Hy).
    rewrite (IH y m d rest Hy Hall); [done| | |done].
    + cbn [list_sum map fold_right] in *. lia.
    + cbn [map list_max fold_right]. lia.
Qed.

Lemma parse_members_dumps kv : forall k x m d rest,
  utf8_valid k = true -> reads_back x ->
  Forall (fun p => utf8_valid (fst p) = true /\ reads_back (snd p)) kv ->
  (list_sum (map (fun p => S (size (snd p))) ((k, x) :: kv)) <= m)%nat ->
  (list_max (map (fun p => nesting (snd p)) ((k, x) :: kv)) <= d)%nat ->
  follows rest = true ->
  parse_members m d (quote k +:+ ": " +:+ json_text x +:+ dump_members kv +:+ rest)
  = Some ((k, x) :: kv, rest).
Proof.
  induction kv as [|[k' y] kv IH]; intros k x m d rest Hk [Hx IHx] Hall Hm Hd Hrest;
    (destruct m as [|m]; [simpl in Hm; lia|]);
    cbn [map list_max fold_right snd] in Hd;
    rewrite member_text; cbn [parse_members];
    replace (Ascii.eqb dquote dquote) with true by reflexivity;
    rewrite (scan_quote k _ Hk);
    change (skip_ws (String ":" ?s)) with (String ":" s); cbv beta iota;
    change (skip_ws (String " " ?s)) with (skip_ws s);
    rewrite skip_ws_value by (apply value_head_app, value_head_dumps, Hx).
  - rewrite IHx; [done| simpl in Hm; lia | lia | done].
  - rewrite IHx; [| simpl in Hm; lia | lia | by rewrite members_cons].
    apply Forall_cons in Hall as [[Hk' Hy] Hall]. simpl in Hk', Hy.
    rewrite members_cons.
    change (skip_ws (String "," ?s)) with (String "," s). cbv beta iota.
    change (skip_ws (String " " ?s)) with (skip_ws s).
    assert (skip_ws (quote k' +:+ ": " +:+ json_text y +:+ dump_members kv +:+ rest)
            = quote k' +:+ ": " +:+ json_text y +:+ dump_members kv +:+ rest) as ->
      by reflexivity.
    rewrite (IH k' y m d rest Hk' Hy Hall); [done| | |done].
    + cbn [list_sum map fold_right snd] in *. lia.
    + cbn [map list_max fold_right snd]. lia.
Qed.

(** The scanner reads back what [json_text] wrote for a well-formed value,
    given room for its nesting. *)
Lemma parse_dumps v : well_formed v = true -> reads_back v.
Proof.
  induction v as [|b|i|f|s|l IHl|kv IHkv] using json_nested_ind;
    intros Hwf; (split; [done|]); intros n d rest Hn Hd Hrest;
    (destruct n as [|n]; [simpl in Hn; lia|]).
  - reflexivity.
  - by destruct b.
  - apply parse_value_number, scan_number_app;
      [by apply scan_number_int|by apply follows_ends_number].
  - destruct f as [|[]|m e]; [done|reflexivity..|].
    apply float_ok_scan in Hwf as [_ Hs].
    apply parse_value_number, scan_number_app; [done|by apply follows_ends_number].
  - by apply parse_string_value.
  - cbn [nesting] in Hd. destruct d as [|d]; [lia|]. apply le_S_n in Hd.
    destruct l as [|x l]; [reflexivity|].
    cbn [well_formed forallb] in Hwf. apply andb_true_iff in Hwf as [Hx Hl].
    apply Forall_cons in IHl as [IHx IHl].
    assert (Forall reads_back l) as Hall.
    { rewrite forallb_forall in Hl. apply Forall_forall. intros y Hy.
      eapply Forall_forall in IHl; [apply IHl|done].
      apply Hl. by apply list_elem_of_In. }
    rewrite dumps_arr, !append_assoc.
    change ("[" +:+ ?s) with (String "[" s). cbn [parse_value].
    replace (Ascii.eqb "[" dquote) with false by reflexivity.
    replace (Ascii.eqb "[" "{") with false by reflexivity.
    replace (Ascii.eqb "[" "[") with true by reflexivity.
    assert (parse_items n d (json_text x +:+ dump_items l +:+ rest) = Some (x :: l, rest))
      as Hp by (apply parse_items_dumps;
                [by apply IHx|done|simpl in Hn; simpl; lia|done|done]).
    assert (value_head (json_text x +:+ dump_items l +:+ rest) = true) as Hh
      by (by apply value_head_app, value_head_dumps).
    rewrite skip_ws_value by done.
    destruct (json_text x +:+ dump_items l +:+ rest) as [|c s]; [done|].
    destruct c as [[] [] [] [] [] [] [] []]; try done; cbv beta iota; by rewrite Hp.
  - cbn [nesting] in Hd. destruct d as [|d]; [lia|]. apply le_S_n in Hd.
    destruct kv as [|[k x] kv]; [reflexivity|].
    cbn [well_formed] in Hwf. apply andb_true_iff in Hwf as [Hdist Hwf].
    cbn [forallb fst snd] in Hwf.
    apply andb_true_iff in Hwf as [[Hk Hx]%andb_true_iff Hl].
    apply Forall_cons in IHkv as [IHx IHkv]. simpl in IHx.
    assert (Forall (fun p => utf8_valid (fst p) = true /\ reads_back (snd p)) kv) as Hall.
    { rewrite forallb_forall in Hl. apply Forall_forall. intros p Hp.
      pose proof (Hl p (proj1 (list_elem_of_In _ _) Hp)) as [Hq1 Hq2]%andb_true_iff.
      split; [done|]. by apply (proj1 (Forall_forall _ _) IHkv p Hp). }
    rewrite dumps_obj, !append_assoc.
    change ("{" +:+ ?s) with (String "{" s). cbn [parse_value].
    replace (Ascii.eqb "{" dquote) with false by reflexivity.
    replace (Ascii.eqb "{" "{") with true by reflexivity.
    assert (parse_members n d (quote k +:+ ": " +:+ json_text x +:+ dump_members kv +:+ rest)
            = Some ((k, x) :: kv, rest))
      as Hp by (apply parse_members_dumps;
                [done|by apply IHx|done|simpl in Hn; simpl; lia|done|done]).
    rewrite member_text in *.
    change (skip_ws (String dquote ?s)) with (String dquote s).
    unfold dquote in *. cbv beta iota.
    rewrite Hp, dict_of_pairs_distinct by done. reflexivity.
Qed.

(** *** The text [json_text] writes *)

Lemma is_ascii_app a b : is_ascii (a +:+ b) = is_ascii a && is_ascii b.
Proof.
  induction a as [|c a IH]; [done|].
  cbn [String.append]. by rewrite !is_ascii_cons, IH, andb_assoc.
Qed.

Lemma length_append a b :
  String.length (a +:+ b) = (String.length a + String.length b)%nat.
Proof. induction a as [|c a IH]; [done|]. cbn [String.append String.length]. by rewrite IH. Qed.

Lemma hex_digit_ascii d : (d < 16)%N -> (code (hex_digit d) <? 0x80)%N = true.
Proof.
  intros H.
  assert (d = 0 \/ d = 1 \/ d = 2 \/ d = 3 \/ d = 4 \/ d = 5 \/ d = 6 \/ d = 7 \/
          d = 8 \/ d = 9 \/ d = 10 \/ d = 11 \/ d = 12 \/ d = 13 \/ d = 14 \/
          d = 15)%N as Hd by lia.
  repeat (destruct Hd as [->|Hd]; [reflexivity|]). by subst.
Qed.

Lemma is_ascii_u_escape n : is_ascii (u_escape n) = true.
Proof.
  unfold u_escape, hex4. rewrite !is_ascii_cons.
  rewrite !hex_digit_ascii by (apply N.mod_lt; lia). done.
Qed.

Lemma is_ascii_escape_cp c : is_ascii (escape_cp c) = true.
Proof.
  unfold escape_cp.
  repeat (match goal with |- context [if ?b then _ else _] => destruct b eqn:? end);
    rewrite ?is_ascii_app, ?is_ascii_u_escape; try done.
  rewrite is_ascii_cons.
  match goal with H : _ && _ = true |- _ =>
    apply andb_true_iff in H as [H1%N.leb_le H2%N.leb_le] end.
  rewrite code_chr by lia. rewrite andb_true_r. apply N.ltb_lt. lia.
Qed.

Lemma is_ascii_quote s : is_ascii (quote s) = true.
Proof.
  unfold quote. rewrite is_ascii_cons, is_ascii_app. simpl.
  rewrite andb_true_r. unfold escape.
  induction (utf8_decode s) as [|c cps IH]; [done|].
  cbn [fold_right]. by rewrite is_ascii_app, is_ascii_escape_cp.
Qed.

(** A well-formed value is written in plain ASCII. *)
Lemma is_ascii_dumps v : well_formed v = true -> is_ascii (json_text v) = true.
Proof.
  induction v as [|b|i|f|s|l IHl|kv IHkv] using json_nested_ind; intros Hwf.
  - done.
  - by destruct b.
  - apply is_ascii_int.
  - destruct f as [|[]|m e]; [done..|]. by apply float_ok_scan in Hwf as [? _].
  - apply is_ascii_quote.
  - destruct l as [|x l]; [done|]. rewrite dumps_arr.
    cbn [well_formed forallb] in Hwf. apply andb_true_iff in Hwf as [Hx Hl].
    apply Forall_cons in IHl as [IHx IHl].
    rewrite !is_ascii_app, (IHx Hx). simpl.
    revert Hl IHl. induction l as [|y l IH]; intros Hl IHl; [done|].
    cbn [forallb] in Hl. apply andb_true_iff in Hl as [Hy Hl].
    apply Forall_cons in IHl as [IHy IHl].
    cbn [dump_items]. rewrite !is_ascii_app, (IHy Hy), (IH Hl IHl). done.
  - destruct kv as [|[k x] kv]; [done|]. rewrite dumps_obj.
    cbn [well_formed] in Hwf. apply andb_true_iff in Hwf as [_ Hwf].
    cbn [forallb fst snd] in Hwf.
    apply andb_true_iff in Hwf as [[_ Hx]%andb_true_iff Hl].
    apply Forall_cons in IHkv as [IHx IHkv]. simpl in IHx.
    rewrite !is_ascii_app, is_ascii_quote, (IHx Hx). simpl.
    revert Hl IHkv. induction kv as [|[k' y] kv IH]; intros Hl IHkv; [done|].
    cbn [forallb fst snd] in Hl.
    apply andb_true_iff in Hl as [[_ Hy]%andb_true_iff Hl].
    apply Forall_cons in IHkv as [IHy IHkv]. simpl in IHy.
    cbn [dump_members]. rewrite !is_ascii_app, is_ascii_quote, (IHy Hy), (IH Hl IHkv). done.
Qed.

Lemma value_head_length s : value_head s = true -> (1 <= String.length s)%nat.
Proof. destruct s; [done|]. simpl. lia. Qed.

(** The text of a well-formed value is at least as long as the value is
    deep: the scanner never lacks room on it. *)
Lemma size_dumps v : well_formed v = true -> (size v <= String.length (json_text v))%nat.
Proof.
  induction v as [|b|i|f|s|l IHl|kv IHkv] using json_nested_ind; intros Hwf;
    try (by apply (value_head_length (json_text _)), value_head_dumps).
  - destruct l as [|x l]; [simpl; lia|]. rewrite dumps_arr.
    cbn [well_formed forallb] in Hwf. apply andb_true_iff in Hwf as [Hx Hl].
    apply Forall_cons in IHl as [IHx IHl]. specialize (IHx Hx).
    rewrite !length_append. cbn [size map list_sum fold_right String.length].
    assert (list_sum (map (fun x => S (size x)) l) < String.length (dump_items l))%nat;
      [|unfold list_sum in *; lia].
    revert Hl IHl. induction l as [|y l IH]; intros Hl IHl; [simpl; lia|].
    cbn [forallb] in Hl. apply andb_true_iff in Hl as [Hy Hl].
    apply Forall_cons in IHl as [IHy IHl]. specialize (IHy Hy). specialize (IH Hl IHl).
    cbn [dump_items map list_sum fold_right]. rewrite !length_append.
    cbn [String.length]. unfold list_sum in *. lia.
  - destruct kv as [|[k x] kv]; [simpl; lia|]. rewrite dumps_obj.
    cbn [well_formed] in Hwf. apply andb_true_iff in Hwf as [_ Hwf].
    cbn [forallb fst snd] in Hwf.
    apply andb_true_iff in Hwf as [[_ Hx]%andb_true_iff Hl].
    apply Forall_cons in IHkv as [IHx IHkv]. simpl in IHx. specialize (IHx Hx).
    rewrite !length_append. cbn [size map list_sum fold_right String.length snd].
    assert (list_sum (map (fun p => S (size (snd p))) kv)
            < String.length (dump_members kv))%nat;
      [|unfold list_sum in *; lia].
    revert Hl IHkv. induction kv as [|[k' y] kv IH]; intros Hl IHkv; [simpl; lia|].
    cbn [forallb fst snd] in Hl.
    apply andb_true_iff in Hl as [[_ Hy]%andb_true_iff Hl].
    apply Forall_cons in IHkv as [IHy IHkv]. simpl in IHy.
    specialize (IHy Hy). specialize (IH Hl IHkv).
    cbn [dump_members map list_sum fold_right snd]. rewrite !length_append.
    cbn [String.length]. unfold list_sum in *. lia.
Qed.

(** [json.loads] reads back what [json.dumps] wrote for a well-formed
    value that it has room for. *)
Lemma loads_dumps v :
  well_formed v = true -> (nesting v <= 2 + scanner_room)%nat ->
  loads (json_text v) = Val v.
Proof.
  intros Hwf Hdeep. unfold loads.
  pose proof (value_head_dumps v Hwf) as Hh.
  assert (String.prefix BOM (json_text v) = false) as ->.
  { destruct (json_text v) as [|c s]; [done|].
    destruct c as [[] [] [] [] [] [] [] []]; done. }
  rewrite skip_ws_value by done.
  destruct (parse_dumps v Hwf) as [_ Hp].
  rewrite <- (append_nil_r (json_text v)) at 2.
  rewrite Hp; [done| |done|done].
  pose proof (size_dumps v Hwf). lia.
Qed.

Lemma small_ints_well_formed v : well_formed v = true -> small_ints v = true.
Proof.
  induction v as [|b|i|f|s|l IHl|kv IHkv] using json_nested_ind; intros Hwf;
    try done.
  - cbn [well_formed small_ints] in *. apply forallb_forall. intros x Hx.
    rewrite Forall_forall in IHl. rewrite forallb_forall in Hwf.
    apply IHl; [by apply list_elem_of_In|by apply Hwf].
  - cbn [well_formed small_ints] in *. apply andb_true_iff in Hwf as [_ Hwf].
    apply forallb_forall. intros p Hp.
    rewrite Forall_forall in IHkv. rewrite forallb_forall in Hwf.
    specialize (Hwf p Hp). apply andb_true_iff in Hwf as [_ Hwf].
    apply IHkv; [by apply list_elem_of_In|done].
Qed.

(** What both halves of the codec do on a value that [json.loads] can
    give back and that both have room for. *)
Lemma encode_then_decode config :
  well_formed config = true -> shallow config = true ->
  encode_user_config config = Val (b64encode (json_text config)) /\
  decode_user_config (b64encode (json_text config)) = config.
Proof.
  intros Hwf [He%Nat.leb_le Hs%Nat.leb_le]%andb_true_iff.
  pose proof (utf8_valid_ascii _ (is_ascii_dumps config Hwf)) as Hd.
  pose proof (utf8_valid_ascii _ (b64encode_ascii (json_text config))) as Hb.
  unfold encode_user_config, decode_user_config, dumps, utf8_encode_str, utf8_decode_str.
  rewrite (small_ints_well_formed _ Hwf), (proj2 (Nat.leb_le _ _) He).
  cbn [andb res_bind]. rewrite Hd. cbn [res_bind].
  rewrite Hb. split; [done|].
  rewrite b64decode_b64encode. cbn [res_bind]. rewrite Hd. cbn [res_bind].
  by rewrite loads_dumps.
Qed.
(** C9, amended.  Encoding a configuration and decoding the result gives
    the configuration back, for every configuration that is a JSON value
    as [json.loads] builds them and can give back: its texts are
    well-formed Unicode (no surrogate), the keys of each of its dicts
    differ, its integers have no more digits than the interpreter
    converts, its floats are numbers that are read back from their
    [repr], and it goes no deeper than the encoder and the scanner have
    room for. *)
Theorem decode_encode_user_config (config : json) :
  well_formed config = true ->
  shallow config = true ->
  exists config_string,
    encode_user_config config = Val config_string /\
    decode_user_config config_string = config.
Proof.
  intros Hwf Hdeep. exists (b64encode (json_text config)).
  by apply encode_then_decode.
Qed.

(** ** More about the configuration codec *)

(** *** UTF-8: decoding what was encoded *)

Lemma utf8_decode_encode_cp c rest :
  (c < 0x110000)%N ->
  utf8_decode (utf8_encode_cp c +:+ rest) = c :: utf8_decode rest.
Proof.
  intros Hc. unfold utf8_encode_cp.
  pose proof (N.div_mod c 64 ltac:(lia)) as D1.
  pose proof (N.mod_lt c 64 ltac:(lia)) as M1.
  pose proof (N.div_mod (c / 64) 64 ltac:(lia)) as D2.
  pose proof (N.mod_lt (c / 64) 64 ltac:(lia)) as M2.
  pose proof (N.div_mod (c / 64 / 64) 64 ltac:(lia)) as D3.
  pose proof (N.mod_lt (c / 64 / 64) 64 ltac:(lia)) as M3.
  replace (c / 4096)%N with (c / 64 / 64)%N by (by rewrite N.Div0.div_div).
  replace (c / 262144)%N with (c / 64 / 64 / 64)%N by (by rewrite !N.Div0.div_div).
  set (r1 := (c mod 64)%N) in *. set (q1 := (c / 64)%N) in *.
  set (r2 := (q1 mod 64)%N) in *. set (q2 := (q1 / 64)%N) in *.
  set (r3 := (q2 mod 64)%N) in *. set (q3 := (q2 / 64)%N) in *.
  clearbody r1 q1 r2 q2 r3 q3.
  destruct (N.ltb_spec c 0x80); [|destruct (N.ltb_spec c 0x800);
    [|destruct (N.ltb_spec c 0x10000)]];
    cbn [String.append utf8_decode]; unfold utf8_first, is_cont;
    rewrite ?code_chr by lia;
    repeat match goal with
    | |- context [(?a <? ?b)%N] => destruct (N.ltb_spec a b); try lia
    | |- context [(?a <=? ?b)%N] => destruct (N.leb_spec a b); try lia
    end; cbn [negb andb]; f_equal; lia.
Qed.

Lemma utf8_decode_encode cps :
  Forall (fun c => (c < 0x110000)%N) cps -> utf8_decode (utf8_encode cps) = cps.
Proof.
  induction 1 as [|c cps Hc _ IH]; [done|].
  unfold utf8_encode in *. cbn [fold_right].
  by rewrite utf8_decode_encode_cp, IH.
Qed.

Lemma is_scalar_bound c : is_scalar c = true -> (c < 0x110000)%N.
Proof.
  unfold is_scalar. intros [H%N.ltb_lt|[_ H%N.ltb_lt]%andb_true_iff]%orb_true_iff; lia.
Qed.

(** The encoding of scalar values is well-formed. *)
Lemma utf8_valid_encode cps :
  forallb is_scalar cps = true ->
  utf8_valid (utf8_encode cps) = true /\ utf8_decode (utf8_encode cps) = cps.
Proof.
  intros Hs.
  assert (utf8_decode (utf8_encode cps) = cps) as Hd.
  { apply utf8_decode_encode, Forall_forall. intros c Hin.
    apply is_scalar_bound. rewrite forallb_forall in Hs. apply Hs.
    by apply list_elem_of_In. }
  split; [|done]. unfold utf8_valid. by rewrite Hd, Hs, String.eqb_refl.
Qed.

(** *** [str.strip] *)

Lemma lstrip_nil cps : lstrip cps = [] <-> forallb py_isspace cps = true.
Proof.
  induction cps as [|c cps IH]; [done|]. simpl.
  destruct (py_isspace c); [done|]. split; intros; done.
Qed.

Lemma lstrip_sublist cps : sublist (lstrip cps) cps.
Proof.
  induction cps as [|c cps IH]; [done|]. simpl.
  destruct (py_isspace c); [by apply sublist_cons|done].
Qed.

Lemma forallb_sublist {A} (f : A -> bool) l k :
  sublist l k -> forallb f k = true -> forallb f l = true.
Proof.
  intros Hsub Hk. apply forallb_forall. intros x Hx.
  rewrite forallb_forall in Hk. apply Hk.
  apply list_elem_of_In. eapply elem_of_sublist; [|done]. by apply list_elem_of_In.
Qed.

Lemma forallb_rev {A} (f : A -> bool) l : forallb f (rev l) = forallb f l.
Proof.
  induction l as [|x l IH]; [done|]. simpl.
  rewrite forallb_app, IH. simpl. rewrite andb_true_r. apply andb_comm.
Qed.

Lemma forallb_strip (f : N -> bool) cps :
  forallb f cps = true -> forallb f (rev (lstrip (rev (lstrip cps)))) = true.
Proof.
  intros H. rewrite forallb_rev.
  apply (forallb_sublist f _ _ (lstrip_sublist _)). rewrite forallb_rev.
  by apply (forallb_sublist f _ _ (lstrip_sublist _)).
Qed.

Lemma strip_nil cps :
  rev (lstrip (rev (lstrip cps))) = [] <-> forallb py_isspace cps = true.
Proof.
  rewrite <- lstrip_nil. split.
  - intros H. apply (f_equal (@rev N)) in H. rewrite rev_involutive in H. simpl in H.
    apply lstrip_nil in H. rewrite forallb_rev in H.
    destruct (lstrip cps) as [|c r] eqn:E; [done|].
    assert (py_isspace c = false) as Hc.
    { clear H. induction cps as [|x cps IH]; [done|]. simpl in E.
      destruct (py_isspace x) eqn:Ex; [by apply IH|]. by injection E as -> _. }
    simpl in H. by rewrite Hc in H.
  - by intros ->.
Qed.

Lemma utf8_encode_nil cps : utf8_encode cps = "" -> cps = [].
Proof.
  destruct cps as [|c cps]; [done|]. unfold utf8_encode. cbn [fold_right].
  unfold utf8_encode_cp.
  by repeat (match goal with |- context [if ?b then _ else _] => destruct b end).
Qed.

Lemma utf8_valid_scalars s : utf8_valid s = true -> forallb is_scalar (utf8_decode s) = true.
Proof. unfold utf8_valid. by intros [H _]%andb_true_iff. Qed.

(** What [strip] makes of a well-formed text: a well-formed text, with
    the code points that are left. *)
Lemma py_strip_valid s :
  utf8_valid s = true ->
  utf8_valid (py_strip s) = true /\
  utf8_decode (py_strip s) = rev (lstrip (rev (lstrip (utf8_decode s)))).
Proof.
  intros Hs. apply utf8_valid_encode, forallb_strip. by apply utf8_valid_scalars.
Qed.

Lemma py_strip_blank s : blank s = true -> py_strip s = "".
Proof. unfold blank, py_strip. intros H%strip_nil. by rewrite H. Qed.

Lemma py_strip_not_blank s : blank s = false -> py_strip s <> "".
Proof.
  unfold blank, py_strip. intros H E. apply utf8_encode_nil, strip_nil in E. congruence.
Qed.

(** *** The alphabet of an encoded configuration *)

Lemma all_tame_cons c s : all_tame (String c s) = tame c && all_tame s.
Proof. reflexivity. Qed.

Lemma all_tame_app a b : all_tame (a +:+ b) = all_tame a && all_tame b.
Proof.
  induction a as [|c a IH]; [done|].
  cbn [String.append]. by rewrite !all_tame_cons, IH, andb_assoc.
Qed.

Lemma tame_bits c0 c1 c2 c3 c4 c5 c6 c7 :
  tame (Ascii c0 c1 c2 c3 c4 c5 c6 c7) = true ->
  c7 = false /\ c1 && c2 && c3 && c4 && c5 = false.
Proof. by destruct c0, c1, c2, c3, c4, c5, c6, c7. Qed.

Lemma b64_char_plain b0 b1 b2 b3 b4 b5 :
  b1 && b2 && b3 && b4 && b5 = false ->
  url_plain (b64_char (Ascii b0 b1 b2 b3 b4 b5 false false)) = true.
Proof. by destruct b0, b1, b2, b3, b4, b5. Qed.

(** Base64 of tame bytes needs neither [+] nor [/]. *)
Lemma b64encode_plain bs :
  all_tame bs = true ->
  forallb url_plain (list_ascii_of_string (b64encode bs)) = true.
Proof.
  assert (forall n bs, (String.length bs < n)%nat -> all_tame bs = true ->
            forallb url_plain (list_ascii_of_string (b64encode bs)) = true)
    as H; [|apply (H (S (String.length bs))); lia].
  clear bs. induction n as [|n IH]; intros bs Hn Ht; [lia|].
  destruct bs as [|[a0 a1 a2 a3 a4 a5 a6 a7] [|[b0 b1 b2 b3 b4 b5 b6 b7]
    [|[c0 c1 c2 c3 c4 c5 c6 c7] rest]]]; [done| | |];
    rewrite ?all_tame_cons in Ht;
    repeat match goal with
    | H : _ && _ = true |- _ => apply andb_true_iff in H as [? ?]
    | H : tame (Ascii _ _ _ _ _ _ _ _) = true |- _ => apply tame_bits in H as [-> ?]
    end.
  - cbn [b64encode sextets zero list_ascii_of_string forallb].
    rewrite !b64_char_plain; [done|by rewrite ?andb_false_r..].
  - cbn [b64encode sextets zero list_ascii_of_string forallb].
    rewrite !b64_char_plain; [done|by rewrite ?andb_false_r..].
  - cbn [b64encode sextets list_ascii_of_string forallb].
    rewrite !b64_char_plain; [|done|by rewrite ?andb_false_r..].
    cbn [andb]. apply IH; [simpl in Hn; lia|done].
Qed.

Lemma tame_hex_digit d : (d < 16)%N -> tame (hex_digit d) = true.
Proof.
  intros H.
  assert (d = 0 \/ d = 1 \/ d = 2 \/ d = 3 \/ d = 4 \/ d = 5 \/ d = 6 \/ d = 7 \/
          d = 8 \/ d = 9 \/ d = 10 \/ d = 11 \/ d = 12 \/ d = 13 \/ d = 14 \/
          d = 15)%N as Hd by lia.
  repeat (destruct Hd as [->|Hd]; [reflexivity|]). by subst.
Qed.

Lemma all_tame_u_escape n : all_tame (u_escape n) = true.
Proof.
  unfold u_escape, hex4. rewrite !all_tame_cons.
  rewrite !tame_hex_digit by (apply N.mod_lt; lia). done.
Qed.

Lemma all_tame_escape_cp c : mild c = true -> all_tame (escape_cp c) = true.
Proof.
  intros Hm. unfold escape_cp.
  repeat (match goal with |- context [if ?b then _ else _] => destruct b eqn:? end);
    rewrite ?all_tame_app, ?all_tame_u_escape; try done.
  rewrite all_tame_cons. unfold tame.
  match goal with H : _ && _ = true |- _ =>
    apply andb_true_iff in H as [H1%N.leb_le H2%N.leb_le] end.
  rewrite code_chr by lia. unfold mild in Hm.
  apply negb_true_iff in Hm. apply orb_false_iff in Hm as [Hm H3].
  apply orb_false_iff in Hm as [H4 H5].
  rewrite H3, H4, H5. rewrite andb_true_r.
  apply andb_true_iff. split; [apply N.ltb_lt; lia|].
  apply negb_true_iff. simpl. apply N.eqb_neq. apply N.eqb_neq in H3. lia.
Qed.

Lemma all_tame_quote s : all_mild s = true -> all_tame (quote s) = true.
Proof.
  unfold quote, all_mild. intros Hm.
  rewrite all_tame_cons, all_tame_app. simpl.
  rewrite andb_true_r. unfold escape.
  induction (utf8_decode s) as [|c cps IH]; [done|].
  simpl in Hm. apply andb_true_iff in Hm as [Hc Hm].
  cbn [fold_right]. by rewrite all_tame_app, all_tame_escape_cp, IH.
Qed.

Lemma all_tame_ascii s : all_tame s = true -> is_ascii s = true.
Proof.
  induction s as [|c s IH]; [done|].
  rewrite all_tame_cons, is_ascii_cons. unfold tame.
  intros [[-> _]%andb_true_iff Hs]%andb_true_iff. by apply IH.
Qed.

(** *** What the encoder gives *)

Lemma is_ascii_dumps_any v : ascii_floats v = true -> is_ascii (json_text v) = true.
Proof.
  induction v as [|b|i|f|s|l IHl|kv IHkv] using json_nested_ind; intros Hf.
  - done.
  - by destruct b.
  - apply is_ascii_int.
  - by destruct f as [|[]|m e].
  - apply is_ascii_quote.
  - destruct l as [|x l]; [done|]. rewrite dumps_arr.
    cbn [ascii_floats forallb] in Hf. apply andb_true_iff in Hf as [Hx Hl].
    apply Forall_cons in IHl as [IHx IHl].
    rewrite !is_ascii_app, (IHx Hx). simpl.
    revert Hl IHl. induction l as [|y l IH]; intros Hl IHl; [done|].
    cbn [forallb] in Hl. apply andb_true_iff in Hl as [Hy Hl].
    apply Forall_cons in IHl as [IHy IHl].
    cbn [dump_items]. rewrite !is_ascii_app, (IHy Hy), (IH Hl IHl). done.
  - destruct kv as [|[k x] kv]; [done|]. rewrite dumps_obj.
    cbn [ascii_floats forallb fst snd] in Hf. apply andb_true_iff in Hf as [Hx Hl].
    apply Forall_cons in IHkv as [IHx IHkv]. simpl in IHx.
    rewrite !is_ascii_app, is_ascii_quote, (IHx Hx). simpl.
    revert Hl IHkv. induction kv as [|[k' y] kv IH]; intros Hl IHkv; [done|].
    cbn [forallb fst snd] in Hl. apply andb_true_iff in Hl as [Hy Hl].
    apply Forall_cons in IHkv as [IHy IHkv]. simpl in IHy.
    cbn [dump_members]. rewrite !is_ascii_app, is_ascii_quote, (IHy Hy), (IH Hl IHkv). done.
Qed.

Lemma b64encode_length bs : exists n, String.length (b64encode bs) = (4 * n)%nat.
Proof.
  assert (forall k bs, (String.length bs < k)%nat ->
            exists n, String.length (b64encode bs) = (4 * n)%nat)
    as H; [|apply (H (S (String.length bs))); lia].
  clear bs. induction k as [|k IH]; intros bs Hk; [lia|].
  destruct bs as [|a [|b [|c rest]]].
  - by exists 0%nat.
  - exists 1%nat. cbn [b64encode]. by destruct (sextets a zero zero) as [[[? ?] ?] ?].
  - exists 1%nat. cbn [b64encode]. by destruct (sextets a b zero) as [[[? ?] ?] ?].
  - destruct (IH rest) as [n Hn]; [simpl in Hk; lia|].
    exists (S n). cbn [b64encode]. destruct (sextets a b c) as [[[? ?] ?] ?].
    cbn [String.length]. rewrite Hn. lia.
Qed.

(** X19. Encoding raises exactly when an integer of the configuration
    has more digits than the interpreter converts, or the configuration
    goes deeper than the encoder has room for.  Otherwise, whatever
    texts the configuration holds (also texts that are no well-formed
    Unicode), it gives a text of plain ASCII whose length is a multiple
    of four, and that text is the Base64 of the JSON text of the
    configuration. *)
Theorem encode_user_config_result config :
  ascii_floats config = true ->
  if small_ints config && (nesting config <=? 2 + encoder_room)%nat
  then exists config_string,
         encode_user_config config = Val config_string /\
         is_ascii config_string = true /\
         (exists n, String.length config_string = (4 * n)%nat) /\
         b64decode config_string = Val (json_text config)
  else encode_user_config config = Exn.
Proof.
  intros Hf. unfold encode_user_config, dumps, utf8_encode_str, utf8_decode_str.
  destruct (small_ints config && (nesting config <=? 2 + encoder_room)%nat); [|done].
  exists (b64encode (json_text config)). cbn [res_bind].
  rewrite (utf8_valid_ascii _ (is_ascii_dumps_any config Hf)). cbn [res_bind].
  rewrite (utf8_valid_ascii _ (b64encode_ascii _)).
  split; [done|]. split; [apply b64encode_ascii|].
  split; [apply b64encode_length|apply b64decode_b64encode].
Qed.

(** ** The configuration form, the manifest and the refresh *)

Lemma valid_config kv api_key :
  assoc "api_key" kv = Some api_key ->
  invalid_config (JObj kv) = Val false /\
  py_index (JObj kv) "api_key" = Val api_key.
Proof.
  intros Hk. unfold invalid_config, py_index, py_in. rewrite Hk.
  by destruct kv.
Qed.

Lemma chosen_languages form_languages :
  (if negb (truthy (JArr (JStr <$> form_languages))) then [JStr "ml"]
   else JStr <$> form_languages) = JStr <$> chosen form_languages.
Proof. by destruct form_languages. Qed.

Lemma chosen_forallb (f : string -> bool) form_languages :
  f "ml" = true -> forallb f form_languages = true ->
  forallb f (chosen form_languages) = true.
Proof. intros Hml Hall. destruct form_languages; [simpl; by rewrite Hml|done]. Qed.

Lemma well_formed_texts ls :
  forallb utf8_valid ls = true -> forallb well_formed (JStr <$> ls) = true.
Proof.
  induction ls as [|l ls IH]; [done|]. simpl.
  intros [-> H]%andb_true_iff. by apply IH.
Qed.

Lemma nesting_texts ls : list_max (map nesting (JStr <$> ls)) = 0%nat.
Proof. induction ls as [|l ls IH]; [done|]. by rewrite fmap_cons. Qed.

(** A configuration as the form builds it goes two levels deep, which
    the encoder and the scanner have room for. *)
Lemma nesting_config key ls :
  nesting (JObj [("api_key", JStr key); ("languages", JArr (JStr <$> ls))]) = 2%nat.
Proof. cbn [nesting map snd list_max fold_right]. by rewrite nesting_texts. Qed.

Lemma shallow_config key ls :
  shallow (JObj [("api_key", JStr key); ("languages", JArr (JStr <$> ls))]) = true.
Proof. unfold shallow. by rewrite nesting_config. Qed.

(** X8. A form without an API key, or with one of blanks only, is
    answered with status 400 and the text that asks for the key,
    whatever languages were chosen. *)
Theorem configure_post_requires_key form_api_key form_languages host_url :
  blank (default "" form_api_key) = true ->
  configure_post form_api_key form_languages host_url
  = Val (Text 400 "API key is required").
Proof. intros Hb. unfold configure_post. by rewrite (py_strip_blank _ Hb). Qed.

(** X9. A form with an API key that is not blank is answered with a
    redirect to the manifest address under the host address without its
    closing slashes, and the configuration text in that address decodes
    to the key without the blanks around it and the chosen languages
    (Malayalam when none was chosen). *)
Theorem configure_post_round_trip api_key form_languages host_url :
  utf8_valid api_key = true ->
  forallb utf8_valid form_languages = true ->
  blank api_key = false ->
  exists config_string,
    configure_post (Some api_key) form_languages host_url
    = Val (Redirect (py_rstrip_slash host_url +:+ "/" +:+ config_string
                     +:+ "/manifest.json")) /\
    decode_user_config config_string
    = JObj [("api_key", JStr (py_strip api_key));
            ("languages", JArr (JStr <$> chosen form_languages))] /\
    py_strip api_key <> "".
Proof.
  intros Hkey Hlangs Hblank.
  pose proof (py_strip_not_blank _ Hblank) as Hne.
  set (config := JObj [("api_key", JStr (py_strip api_key));
                       ("languages", JArr (JStr <$> chosen form_languages))]).
  assert (well_formed config = true) as Hwf.
  { cbn [well_formed config map fst snd forallb distinct existsb].
    destruct (py_strip_valid _ Hkey) as [-> _].
    rewrite well_formed_texts; [by vm_compute|].
    by apply chosen_forallb. }
  destruct (encode_then_decode config Hwf (shallow_config _ _)) as [He Hd].
  exists (b64encode (json_text config)). split; [|done].
  unfold configure_post. rewrite chosen_languages. cbn [from_option id truthy].
  fold config.
  destruct (String.eqb (py_strip api_key) "") eqn:E;
    [by apply String.eqb_eq in E|]. cbn [negb]. by rewrite He.
Qed.

Lemma small_ints_texts ls : forallb small_ints (JStr <$> ls) = true.
Proof. induction ls as [|l ls IH]; [done|]. by rewrite fmap_cons. Qed.

Lemma all_tame_dump_items ls :
  forallb all_mild ls = true -> all_tame (dump_items (JStr <$> ls)) = true.
Proof.
  induction ls as [|l ls IH]; [done|]. cbn [forallb].
  intros [Hl H]%andb_true_iff.
  rewrite fmap_cons. cbn [dump_items json_text].
  by rewrite !all_tame_app, (all_tame_quote _ Hl), (IH H).
Qed.

(** X10. When neither the key nor a chosen language holds one of the
    characters [>], [?] and [~], the configuration text in the address
    of the redirect is made of ASCII letters, digits and [=] only: it
    holds no [/] and no [+]. *)
Theorem configure_post_plain_address api_key form_languages host_url :
  utf8_valid api_key = true ->
  blank api_key = false ->
  all_mild api_key = true ->
  forallb all_mild form_languages = true ->
  exists config_string,
    configure_post (Some api_key) form_languages host_url
    = Val (Redirect (py_rstrip_slash host_url +:+ "/" +:+ config_string
                     +:+ "/manifest.json")) /\
    forallb url_plain (list_ascii_of_string config_string) = true.
Proof.
  intros Hkey Hblank Hmild Hlangs.
  pose proof (py_strip_not_blank _ Hblank) as Hne.
  set (config := JObj [("api_key", JStr (py_strip api_key));
                       ("languages", JArr (JStr <$> chosen form_languages))]).
  assert (all_tame (json_text config) = true) as Ht.
  { unfold config. rewrite dumps_obj. cbn [dump_members].
    assert (all_mild (py_strip api_key) = true) as Hs.
    { unfold all_mild. destruct (py_strip_valid _ Hkey) as [_ ->].
      by apply forallb_strip. }
    assert (all_tame (json_text (JArr (JStr <$> chosen form_languages))) = true) as Hl.
    { pose proof (chosen_forallb all_mild form_languages eq_refl Hlangs) as Hc.
      destruct (chosen form_languages) as [|l ls]; [done|].
      rewrite fmap_cons, dumps_arr. simpl in Hc. apply andb_true_iff in Hc as [Hl Hc].
      cbn [json_text]. rewrite !all_tame_app.
      by rewrite (all_tame_quote _ Hl), (all_tame_dump_items _ Hc). }
    rewrite !all_tame_app, Hl. cbn [json_text].
    rewrite (all_tame_quote _ Hs). by vm_compute. }
  exists (b64encode (json_text config)). split; [|by apply b64encode_plain].
  unfold configure_post. rewrite chosen_languages. cbn [from_option id truthy].
  fold config.
  destruct (String.eqb (py_strip api_key) "") eqn:E;
    [by apply String.eqb_eq in E|]. cbn [negb].
  unfold encode_user_config, dumps, utf8_encode_str, utf8_decode_str.
  assert (small_ints config = true) as ->.
  { unfold config. cbn [small_ints forallb snd]. by rewrite small_ints_texts. }
  unfold config at 1. rewrite nesting_config. cbn [Nat.add Nat.leb andb res_bind].
  rewrite (utf8_valid_ascii _ (all_tame_ascii _ Ht)). cbn [res_bind].
  by rewrite (utf8_valid_ascii _ (b64encode_ascii _)).
Qed.

Lemma res_list_texts ls :
  exists catalogs,
    res_list catalog_entry (JStr <$> ls) = Val catalogs /\
    Forall2 (fun lang entry =>
               py_get entry "type" = Val (JStr "movie") /\
               py_get entry "id" = Val (JStr lang) /\
               py_get entry "name" = Val (display_name lang))
            ls catalogs.
Proof.
  induction ls as [|l ls (catalogs & IH & Hall)].
  - by exists [].
  - rewrite fmap_cons. cbn [res_list catalog_entry res_bind]. rewrite IH.
    eexists. split; [done|]. constructor; [|done].
    unfold display_name. by destruct (assoc l language_names).
Qed.

Lemma res_list_raises langs :
  ~ Forall is_text langs -> res_list catalog_entry langs = Exn.
Proof.
  induction langs as [|x langs IH]; intros H.
  - by destruct H.
  - cbn [res_list]. destruct x as [| | | |s| |]; try done.
    cbn [catalog_entry res_bind]. rewrite IH; [done|].
    intros Hall. apply H. constructor; [by exists s|done].
Qed.

(** X11. For a configuration with a key whose languages are a list of
    texts (or that names none, which stands for Malayalam), the
    manifest is answered with status 200 and lists one movie catalog
    for each language, in the order of the configuration: its
    identifier is the language, and its name the one the handler knows
    for it, or else the language in upper case. *)
Theorem manifest_lists_languages config_string kv api_key ls :
  decode_user_config config_string = JObj kv ->
  assoc "api_key" kv = Some api_key ->
  get_or kv "languages" (JArr [JStr "ml"]) = JArr (JStr <$> ls) ->
  exists body catalogs,
    manifest config_string = Val (Json 200 body) /\
    py_get body "catalogs" = Val (JArr catalogs) /\
    Forall2 (fun lang entry =>
               py_get entry "type" = Val (JStr "movie") /\
               py_get entry "id" = Val (JStr lang) /\
               py_get entry "name" = Val (display_name lang))
            ls catalogs.
Proof.
  intros Hd Hk Hl. destruct (valid_config kv api_key Hk) as [Hv _].
  destruct (res_list_texts ls) as (catalogs & Hc & Hall).
  unfold manifest. rewrite Hd, Hv. unfold py_get_default. fold (get_or kv "languages" (JArr [JStr "ml"])).
  rewrite Hl. cbn [res_bind py_iter]. rewrite Hc. cbn [res_bind].
  eexists _, catalogs. split; [done|]. by split.
Qed.

(** X12. The manifest handler raises for a configuration with a key
    whose languages hold anything that is no text: the name of a catalog
    is asked of the language in upper case, which only a text has. *)
Theorem manifest_needs_texts config_string kv api_key languages langs :
  decode_user_config config_string = JObj kv ->
  assoc "api_key" kv = Some api_key ->
  get_or kv "languages" (JArr [JStr "ml"]) = languages ->
  py_iter languages = Val langs ->
  ~ Forall is_text langs ->
  manifest config_string = Exn.
Proof.
  intros Hd Hk Hl Hi Hn. destruct (valid_config kv api_key Hk) as [Hv _].
  unfold manifest. rewrite Hd, Hv. unfold py_get_default.
  fold (get_or kv "languages" (JArr [JStr "ml"])). rewrite Hl. cbn [res_bind].
  rewrite Hi. cbn [res_bind]. by rewrite res_list_raises.
Qed.

(** X13. The manifest, the catalog and the refresh reject the same
    configurations: each of them answers with status 400 exactly when
    the others do. *)
Theorem handlers_reject_alike config_string language skip_arg srv :
  (manifest config_string = Val (Json 400 invalid_configuration) <->
   (catalog config_string language skip_arg srv).1
   = Val {| status := 400; metas := [] |}) /\
  (refresh config_string = Val (Json 400 invalid_configuration, None) <->
   (catalog config_string language skip_arg srv).1
   = Val {| status := 400; metas := [] |}).
Proof.
  assert ((catalog config_string language skip_arg srv).1
          = Val {| status := 400; metas := [] |} <->
          invalid_config (decode_user_config config_string) = Val true) as ->.
  { unfold catalog. destruct (invalid_config _) as [[]|]; [done| |done].
    destruct (py_index _ _); [|done]. destruct (skip_of _); [|done].
    by destruct (movie_cache srv !! _). }
  unfold manifest, refresh.
  destruct (invalid_config _) as [[]|]; [done| |done]. split.
  - destruct (py_get_default _ _ _) as [languages|]; [|done]. cbn [res_bind].
    destruct (py_iter languages) as [langs|]; [|done]. cbn [res_bind].
    by destruct (res_list _ _).
  - destruct (py_index _ _); [|done]. cbn [res_bind].
    by destruct (py_get_default _ _ _).
Qed.

Lemma cache_key_inj api_key l1 l2 :
  cache_key api_key l1 = cache_key api_key l2 -> l1 = l2.
Proof.
  unfold cache_key. intros H. apply String.app_inj in H.
  by apply (String.app_inj "_") in H.
Qed.

(** One turn of the loop of [do_refresh] for a text: the run is made
    and the loop goes on exactly when the stream writes the text in
    upper case. *)
Lemma refresh_step env today api_key i lang rest movie_cache :
  refresh_loop env today api_key i (JStr lang :: rest) movie_cache =
    if writes (py_upper lang)
    then refresh_loop env today api_key (S i) rest
           (fetch_and_cache_movies (env i) api_key lang (today i) movie_cache).1.2
    else movie_cache.
Proof.
  cbn [refresh_loop].
  destruct (fetch_spec (env i) api_key lang (today i) movie_cache)
    as (f & s & u & _ & _ & _ & _ & ->).
  unfold print. cbn [forallb]. rewrite !andb_true_r.
  destruct (writes (py_upper lang)) eqn:Hw; cbn [fst snd res_bind]; [|done].
  rewrite report_writes by done.
  by destruct (stdout 0x2705); cbn [res_bind]; rewrite ?writes_check_mark;
    destruct (stdout 0x2705).
Qed.

(** The loop of [do_refresh] over texts the stream writes in upper case,
    from any turn on. *)
Lemma refresh_loop_spec env today api_key ls :
  Forall (fun lang => writes (py_upper lang) = true) ls ->
  forall i0 movie_cache,
    let final := refresh_loop env today api_key i0 (JStr <$> ls) movie_cache in
    (forall i lang,
       ls !! i = Some lang ->
       (forall j, (i < j)%nat -> ls !! j <> Some lang) ->
       exists unique,
         final !! cache_key api_key lang = Some unique /\
         forall any_cache,
           (fetch_and_cache_movies (env (i0 + i)%nat) api_key lang (today (i0 + i)%nat)
              any_cache).1.2 !! cache_key api_key lang = Some unique) /\
    (forall key, (forall lang, lang ∈ ls -> key <> cache_key api_key lang) ->
                 final !! key = movie_cache !! key).
Proof.
  induction 1 as [|l ls Hw _ IH]; intros i0 movie_cache; cbn zeta.
  - split; [by intros i lang Hi|done].
  - rewrite fmap_cons, refresh_step, Hw.
    destruct (fetch_spec (env i0) api_key l (today i0) movie_cache)
      as (f & s & u & Hc & _ & Hd & _ & He).
    rewrite He, Hw. cbn [fst snd].
    destruct (IH (S i0) (<[cache_key api_key l := u]> movie_cache)) as [IH1 IH2].
    cbn zeta in IH1, IH2. split.
    + intros i lang Hi Hlater. destruct i as [|i].
      * injection Hi as <-. exists u. split.
        -- rewrite IH2; [apply lookup_insert_eq|].
           intros lang' Hin Heq. apply cache_key_inj in Heq. subst lang'.
           apply list_elem_of_lookup in Hin as [j Hj].
           apply (Hlater (S j)); [lia|done].
        -- intros any_cache. rewrite Nat.add_0_r.
           destruct (fetch_spec (env i0) api_key l (today i0) any_cache)
             as (f' & s' & u' & Hc' & _ & Hd' & _ & He').
           rewrite He', Hw. cbn [fst snd]. rewrite Hc in Hc'. injection Hc' as <- <-.
           rewrite Hd in Hd'. injection Hd' as <-. apply lookup_insert_eq.
      * destruct (IH1 i lang Hi) as (unique & Hf & Hany).
        { intros j Hj. apply (Hlater (S j)). lia. }
        exists unique. split; [done|].
        by replace (i0 + S i)%nat with (S i0 + i)%nat by lia.
    + intros key Hkey. rewrite IH2.
      * apply lookup_insert_ne. intros E. by apply (Hkey l); [left|].
      * intros lang Hin. apply Hkey. by right.
Qed.

(** X14. The thread of a refresh for languages that are texts the
    stream writes in upper case runs one fetch for each of them, in
    their order: when it has ended, the key of every language holds the
    list that the language's (last) run wrote, and every other key
    holds what it held before. *)
Theorem do_refresh_fills_every_language env today api_key ls movie_cache :
  Forall (fun lang => writes (py_upper lang) = true) ls ->
  let final := do_refresh env today api_key (JArr (JStr <$> ls)) movie_cache in
  (forall i lang,
     ls !! i = Some lang ->
     (forall j, (i < j)%nat -> ls !! j <> Some lang) ->
     exists unique,
       final !! cache_key api_key lang = Some unique /\
       forall any_cache,
         (fetch_and_cache_movies (env i) api_key lang (today i) any_cache).1.2
           !! cache_key api_key lang = Some unique) /\
  (forall key, (forall lang, lang ∈ ls -> key <> cache_key api_key lang) ->
               final !! key = movie_cache !! key).
Proof.
  intros Hw. unfold do_refresh. cbn [py_iter].
  exact (refresh_loop_spec env today api_key ls Hw 0 movie_cache).
Qed.

Lemma refresh_loop_stops env today api_key ls other rest :
  (forall s, other <> JStr s) ->
  forall i movie_cache,
    refresh_loop env today api_key i ((JStr <$> ls) ++ other :: rest) movie_cache
    = refresh_loop env today api_key i (JStr <$> ls) movie_cache.
Proof.
  intros Hother. induction ls as [|l ls IH]; intros i movie_cache.
  - cbn [fmap list_fmap app refresh_loop]. destruct other; try done. by destruct (Hother s).
  - rewrite fmap_cons. cbn [app]. rewrite !refresh_step.
    destruct (writes (py_upper l)); [apply IH|done].
Qed.

(** X15. A language that is no text ends the thread of a refresh: the
    languages before it are fetched, and neither it nor any language
    behind it is.  (The run raises before it asks or writes anything,
    and so does the handler of the exception.) *)
Theorem do_refresh_stops_at_no_text env today api_key ls other rest movie_cache :
  (forall s, other <> JStr s) ->
  do_refresh env today api_key (JArr ((JStr <$> ls) ++ other :: rest)) movie_cache
  = do_refresh env today api_key (JArr (JStr <$> ls)) movie_cache.
Proof.
  intros Hother. unfold do_refresh. cbn [py_iter]. by apply refresh_loop_stops.
Qed.

(** X20. A language whose upper case the stream cannot write ends the
    thread of a refresh as well: the languages before it are fetched,
    and neither it nor any language behind it is.  (The first print of
    the run raises before anything is asked or written, and so does the
    print of the handler of the exception.) *)
Theorem do_refresh_stops_at_unwritten env today api_key ls lang rest movie_cache :
  writes (py_upper lang) = false ->
  do_refresh env today api_key (JArr ((JStr <$> ls) ++ JStr lang :: rest)) movie_cache
  = do_refresh env today api_key (JArr (JStr <$> ls)) movie_cache.
Proof.
  intros Hw. unfold do_refresh. cbn [py_iter].
  generalize 0%nat. revert movie_cache.
  induction ls as [|l ls IH]; intros movie_cache i.
  - cbn [fmap list_fmap app]. rewrite refresh_step, Hw. done.
  - rewrite fmap_cons. cbn [app]. rewrite !refresh_step.
    destruct (writes (py_upper l)); [apply IH|done].
Qed.

(** X16. A refresh for a configuration with a key whose languages are
    texts is answered at once, and starts one thread with that key and
    those languages, whatever the cache holds; when the stream writes
    every one of the languages in upper case, then once the thread has
    ended, a catalog request for any of the languages is served from
    the cache and starts no run. *)
Theorem refresh_fills_the_catalogs config_string kv api_key ls :
  decode_user_config config_string = JObj kv ->
  assoc "api_key" kv = Some api_key ->
  get_or kv "languages" (JArr [JStr "ml"]) = JArr (JStr <$> ls) ->
  Forall (fun lang => writes (py_upper lang) = true) ls ->
  refresh config_string
  = Val (Json 200 (JObj [("status", JStr "refresh started in background")]),
         Some (api_key, JArr (JStr <$> ls))) /\
  forall env today before started lang skip_arg skip,
    lang ∈ ls ->
    skip_of skip_arg = Val skip ->
    let srv := {| movie_cache :=
                    do_refresh env today api_key (JArr (JStr <$> ls)) before;
                  threads := started |} in
    exists cached,
      movie_cache srv !! cache_key api_key lang = Some cached /\
      catalog config_string lang skip_arg srv
      = (Val {| status := 200;
                metas := List.filter truthy
                           (map to_stremio_meta (py_slice cached skip (skip + 100))) |},
         srv).
Proof.
  intros Hd Hk Hl Hw. destruct (valid_config kv api_key Hk) as [Hv Hi]. split.
  - unfold refresh. rewrite Hd, Hv, Hi. unfold py_get_default.
    fold (get_or kv "languages" (JArr [JStr "ml"])). by rewrite Hl.
  - intros env today cache started lang skip_arg skip Hin Hskip srv.
    assert (exists cached, movie_cache srv !! cache_key api_key lang = Some cached)
      as (cached & Hc).
    { assert (exists i, ls !! i = Some lang /\ forall j, (i < j)%nat -> ls !! j <> Some lang)
        as (i & Hi' & Hlast).
      { clear -Hin. induction ls as [|l ls IH]; [by apply elem_of_nil in Hin|].
        destruct (decide (lang ∈ ls)) as [Hin'|Hnot].
        - destruct (IH Hin') as (i & Hi & Hlast). exists (S i). split; [done|].
          intros [|j] Hj; [lia|]. apply Hlast. lia.
        - apply elem_of_cons in Hin as [->|Hin]; [|done]. exists 0%nat.
          split; [done|]. intros [|j] Hj; [lia|]. simpl. intros Hj'.
          apply Hnot. by eapply list_elem_of_lookup_2. }
      destruct (refresh_loop_spec env today api_key ls Hw 0 cache) as [Hfill _].
      destruct (Hfill i lang Hi' Hlast) as (unique & Hf & _).
      by exists unique. }
    exists cached. split; [done|].
    unfold catalog. rewrite Hd, Hv, Hi, Hskip. by rewrite Hc.
Qed.

(** ** The cache of the running process *)

Lemma catalog_cache config_string language skip_arg srv :
  movie_cache (catalog config_string language skip_arg srv).2 = movie_cache srv.
Proof.
  unfold catalog.
  destruct (invalid_config _) as [[]|]; [done| |done].
  destruct (py_index _ _); [|done]. destruct (skip_of _); [|done].
  by destruct (movie_cache srv !! _).
Qed.

Lemma finish_cache env today i srv :
  movie_cache (finish env today i srv) = movie_cache srv \/
  exists api_key language unique,
    fetched unique /\
    movie_cache (finish env today i srv)
    = <[cache_key api_key language := unique]> (movie_cache srv).
Proof.
  unfold finish. destruct (threads srv !! i) as [[api_key language]|]; [|by left].
  destruct (fetch_spec env api_key language today (movie_cache srv))
    as (f & s & unique & _ & Hel & _ & Hdd & ->).
  destruct (writes (py_upper language)); cbn [fst snd movie_cache]; [|by left].
  right. exists api_key, language, unique.
  split; [|done]. by exists env, api_key, (final_movies s).
Qed.

(** Whatever the cache of the process holds was written by a run. *)
Lemma reachable_fetched srv :
  reachable srv ->
  forall key cached, movie_cache srv !! key = Some cached -> fetched cached.
Proof.
  induction 1 as [|srv config_string language skip_arg _ IH|srv env today i _ IH];
    intros key cached Hc.
  - done.
  - rewrite catalog_cache in Hc. by eapply IH.
  - destruct (finish_cache env today i srv) as [Heq|(k & l & unique & Hf & Heq)];
      rewrite Heq in Hc; [by eapply IH|].
    destruct (decide (key = cache_key k l)) as [->|Hne].
    + rewrite lookup_insert_eq in Hc. by injection Hc as <-.
    + rewrite lookup_insert_ne in Hc by done. by eapply IH.
Qed.

Lemma fetched_page cached lo hi :
  fetched cached ->
  let page := py_slice cached lo hi in
  NoDup (imdb_of <$> page) /\
  Forall servable page /\
  Forall (fun item => exists imdb, imdb_of item = Some imdb /\
                                   String.prefix "tt" imdb = true) page.
Proof.
  intros (env & api_key & collected & Hel & Hdd) page.
  assert (sublist page collected) as Hsub.
  { etrans; [apply py_slice_sublist|apply Hdd]. }
  assert (Forall (eligible env api_key) page) as Hpage.
  { apply Forall_forall. intros item Hin. rewrite Forall_forall in Hel.
    apply Hel. by eapply elem_of_sublist. }
  split; [|split].
  - eapply sublist_NoDup; [apply Hdd|]. apply fmap_sublist, py_slice_sublist.
  - eapply Forall_impl; [exact Hpage|]. intros item. apply eligible_servable.
  - eapply Forall_impl; [exact Hpage|]. intros item Hi.
    destruct (eligible_imdb_of _ _ _ Hi) as (imdb & ? & ? & _). by exists imdb.
Qed.

(** X17. In every state the process gets into by catalog requests and
    by runs that end, the entries of an answer of the catalog handler
    have identifiers that are texts starting with [tt], and no two
    entries of an answer have the same identifier. *)
Theorem served_identifiers srv config_string language skip_arg r after :
  reachable srv ->
  catalog config_string language skip_arg srv = (Val r, after) ->
  NoDup (meta_id <$> metas r) /\
  Forall (fun meta => exists imdb, meta_id meta = Val (JStr imdb) /\
                                   String.prefix "tt" imdb = true)
         (metas r).
Proof.
  intros Hreach. unfold catalog.
  assert (forall st, NoDup (meta_id <$> metas {| status := st; metas := [] |}) /\
            Forall (fun meta => exists imdb, meta_id meta = Val (JStr imdb) /\
                                  String.prefix "tt" imdb = true)
                   (metas {| status := st; metas := [] |})) as Hnone.
  { intros st. split; [constructor|done]. }
  destruct (invalid_config _) as [[]|]; [by intros [= <- _]| |done].
  destruct (py_index _ _) as [api_key|]; [|done].
  destruct (skip_of _) as [skip|]; [|done].
  destruct (movie_cache srv !! _) as [cached|] eqn:Hc; [|by intros [= <- _]].
  intros [= <- _]. cbn [metas].
  destruct (fetched_page cached skip (skip + 100) (reachable_fetched srv Hreach _ _ Hc))
    as (Hnd & Hserv & Htt).
  rewrite (filter_truthy_servable _ Hserv).
  set (page := py_slice cached skip (skip + 100)) in *. clearbody page.
  assert (Forall (fun item => exists imdb, imdb_of item = Some imdb /\
                    meta_id (to_stremio_meta item) = Val (JStr imdb) /\
                    String.prefix "tt" imdb = true) page) as Hids.
  { apply Forall_forall. intros item Hin.
    rewrite Forall_forall in Hserv, Htt.
    destruct (to_stremio_meta_servable item (Hserv item Hin))
      as (fields & i & _ & Hi & Hid & _).
    destruct (Htt item Hin) as (imdb & Hi' & Hpre).
    exists imdb. rewrite Hi in Hi'. injection Hi' as <-. done. }
  split.
  - change (map to_stremio_meta page) with (to_stremio_meta <$> page).
    rewrite <- list_fmap_compose.
    apply NoDup_fmap_1 in Hnd as Hnd'.
    apply NoDup_fmap_2_strong; [|done].
    intros x y Hx Hy Heq. cbn in Heq.
    rewrite Forall_forall in Hids.
    destruct (Hids x Hx) as (ix & Hix & Hmx & _).
    destruct (Hids y Hy) as (iy & Hiy & Hmy & _).
    rewrite Hmx, Hmy in Heq. injection Heq as ->.
    clear -Hnd Hx Hy Hix Hiy.
    induction page as [|z page IH]; [by apply elem_of_nil in Hx|].
    rewrite fmap_cons in Hnd. apply NoDup_cons in Hnd as [Hz Hnd].
    apply elem_of_cons in Hx as [->|Hx], Hy as [->|Hy]; [done| | |by apply IH].
    + exfalso. apply Hz. rewrite Hix, <- Hiy. by apply list_elem_of_fmap_2.
    + exfalso. apply Hz. rewrite Hiy, <- Hix. by apply list_elem_of_fmap_2.
  - apply Forall_forall. intros meta Hin.
    apply list_elem_of_In, in_map_iff in Hin as (item & <- & Hin).
    rewrite Forall_forall in Hids.
    destruct (Hids item) as (imdb & _ & Hm & Hpre); [by apply list_elem_of_In|].
    by exists imdb.
Qed.

(** X18. The cache never forgets a key: neither a catalog request nor
    the end of a run takes away a list that is cached. *)
Theorem cache_keeps_keys srv key :
  is_Some (movie_cache srv !! key) ->
  (forall config_string language skip_arg,
     is_Some (movie_cache (catalog config_string language skip_arg srv).2 !! key)) /\
  (forall env today i,
     is_Some (movie_cache (finish env today i srv) !! key)).
Proof.
  intros Hk. split.
  - intros. by rewrite catalog_cache.
  - intros env today i.
    destruct (finish_cache env today i srv) as [->|(k & l & unique & _ & ->)]; [done|].
    destruct (decide (key = cache_key k l)) as [->|Hne].
    + by rewrite lookup_insert_eq.
    + by rewrite lookup_insert_ne.
Qed.


End IndCat.

(** ** Sample data *)

(** A [repr] and a [float] that agree with the interpreter on [None], the
    booleans, the integers and the float 1.5. *)
Definition sample_repr (v : json) : string :=
  match v with
  | JNull => "None"
  | JBool true => "True"
  | JBool false => "False"
  | JInt n => int_text n
  | JFloat (FFin 3 (-1)) => "1.5"
  | _ => ""
  end.

Definition sample_float (s : string) : pyfloat :=
  if String.eqb s "1.5" then FFin 3 (-1) else FNan.

(** Upper case of ASCII letters, as [str.upper] has it on ASCII text
    (and on a lone surrogate, which it leaves as it is). *)
Definition sample_upper (s : string) : string :=
  string_of_list_ascii
    (map (fun c => if ((97 <=? code c) && (code c <=? 122))%N
                   then chr (code c - 32) else c)
         (list_ascii_of_string s)).

(** A stream that encodes with UTF-8 and the error handler [strict]: it
    writes every code point that is no surrogate. *)
Definition sample_stdout (c : N) : bool := is_scalar c.

(** Room for nine hundred levels beyond the two of a configuration. *)
Definition sample_room : nat := 900.

(** A text that is one lone surrogate, U+D800. *)
Definition lone_surrogate : string := utf8_encode_cp 0xD800.

(** An upstream with one page of two records, of which the first has a
    subscription offer in India and an IMDb identifier, while the second
    has no watch-provider answer; every later page fails. *)
Definition sample_upstream : upstream :=
  fun _ r =>
    match r with
    | Discover _ _ _ 1 =>
        Some {| status_code := 200;
                body := Some (JObj [("results",
                  JArr [JObj [("id", JInt 7); ("title", JStr "Drishyam")];
                        JObj [("id", JInt 8); ("title", JStr "Premam")]])]) |}
    | Discover _ _ _ _ => None
    | WatchProviders _ (JInt 7) =>
        Some {| status_code := 200;
                body := Some (JObj [("results",
                  JObj [("IN", JObj [("flatrate", JArr [JObj [("provider_id", JInt 8)]])])])]) |}
    | WatchProviders _ _ => None
    | ExternalIds _ _ =>
        Some {| status_code := 200;
                body := Some (JObj [("imdb_id", JStr "tt3417422")]) |}
    end.

(** The configuration [{"api_key": "k"}], encoded. *)
Definition sample_config_string : string := "eyJhcGlfa2V5IjogImsifQ==".

Definition empty_server : server := {| movie_cache := ∅; threads := [] |}.

(** C1, counterexample.  Two catalog requests for the same key that is
    not cached, with no run ending in between, leave two runs under way
    for that key: the process is in a state with more than one run in
    flight for a key. *)
Lemma two_reads_start_two_runs :
  ~ (forall py_repr py_float py_upper stdout scanner_room,
       at_most_one_in_flight py_repr py_float py_upper stdout scanner_room).
Proof.
  intros H. specialize (H sample_repr sample_float sample_upper sample_stdout sample_room).
  pose (srv1 := (catalog sample_repr sample_float sample_room sample_config_string "ml" None
                   empty_server).2).
  pose (srv2 := (catalog sample_repr sample_float sample_room sample_config_string "ml" None
                   srv1).2).
  assert (reachable sample_repr sample_float sample_upper sample_stdout sample_room srv2) as Hreach.
  { apply reach_catalog, reach_catalog, reach_start. }
  specialize (H srv2 "k_ml" Hreach).
  assert (in_flight sample_repr srv2 "k_ml" = 2%nat) as Htwo by (by vm_compute).
  rewrite Htwo in H. lia.
Qed.

(** The state of a run against [sample_upstream] when page 1 is done. *)
Definition sample_after_page_1 : run_state :=
  {| trace := [Discover (JStr "k") "ml" "2024-05-01" 1;
               WatchProviders (JStr "k") (JInt 7);
               ExternalIds (JStr "k") (JInt 7);
               WatchProviders (JStr "k") (JInt 8)];
     final_movies := [JObj [("id", JInt 7); ("title", JStr "Drishyam");
                            ("imdb_id", JStr "tt3417422")]] |}.

(** C6, witness: page 1 of [sample_upstream] goes through and page 2
    fails. *)
Lemma page_failure_keeps_collected_witness :
  exists unique,
    fetch_and_cache_movies sample_repr sample_upper sample_stdout sample_upstream
      (JStr "k") "ml" "2024-05-01" ∅
    = (Val unique, <[cache_key sample_repr (JStr "k") "ml" := unique]> ∅,
       trace sample_after_page_1 ++ [Discover (JStr "k") "ml" "2024-05-01" (1 + Z.of_nat 1)]) /\
    deduplicated (final_movies sample_after_page_1) unique /\
    Forall (eligible sample_upstream (JStr "k")) (final_movies sample_after_page_1).
Proof.
  apply (page_failure_keeps_collected sample_repr sample_upper sample_stdout
           sample_upstream (JStr "k") "ml" "2024-05-01" ∅ 1 sample_after_page_1).
  - lia.
  - vm_compute. reflexivity.
  - vm_compute. exact I.
Defined.

(** C1, witness: a first request for a key that is not cached. *)
Lemma catalog_starts_run_iff_uncached_witness :
  catalog sample_repr sample_float sample_room sample_config_string "ml" None empty_server
  = (Val {| status := 200; metas := [] |},
     {| movie_cache := movie_cache empty_server;
        threads := threads empty_server ++ [(JStr "k", "ml")] |}) /\
  in_flight sample_repr
    (catalog sample_repr sample_float sample_room sample_config_string "ml" None empty_server).2
    (cache_key sample_repr (JStr "k") "ml")
  = S (in_flight sample_repr empty_server (cache_key sample_repr (JStr "k") "ml")).
Proof.
  apply (catalog_starts_run_iff_uncached sample_repr sample_float sample_room empty_server
           sample_config_string "ml" None (JStr "k") 0).
  repeat split; vm_compute; reflexivity.
Defined.

(** The server after a run against [sample_upstream] has written its
    list. *)
Definition sample_server : server :=
  {| movie_cache :=
       (fetch_and_cache_movies sample_repr sample_upper sample_stdout sample_upstream
          (JStr "k") "ml" "2024-05-01" ∅).1.2;
     threads := [] |}.


(** A discovered record, and the entry a run stores for it. *)
Definition sample_record : json := JObj [("id", JInt 7); ("title", JStr "Drishyam")].

Definition sample_item : json :=
  JObj [("id", JInt 7); ("title", JStr "Drishyam"); ("imdb_id", JStr "tt3417422")].

(** An upstream with one page of one record; its watch-provider answers
    list [flatrate] for India with no offer under it, with the status of
    a failure, and its external-id answers hold an IMDb identifier;
    every later page fails. *)
Definition sample_answers (r : request) : option response :=
  match r with
  | Discover _ _ _ 1 =>
      Some {| status_code := 200;
              body := Some (JObj [("results", JArr [sample_record])]) |}
  | Discover _ _ _ _ => None
  | WatchProviders _ _ =>
      Some {| status_code := 404;
              body := Some (JObj [("results",
                JObj [("IN", JObj [("flatrate", JArr [])])])]) |}
  | ExternalIds _ _ =>
      Some {| status_code := 200;
              body := Some (JObj [("imdb_id", JStr "tt3417422")]) |}
  end.






(** An upstream that never signals the end: every page holds one
    record, whose enrichment fails. *)
Definition endless_upstream : upstream :=
  fun _ r =>
    match r with
    | Discover _ _ _ _ =>
        Some {| status_code := 200;
                body := Some (JObj [("results", JArr [sample_record])]) |}
    | _ => None
    end.

(** C8, witness: against [endless_upstream] the loop asks for the pages
    1 to 999 and ends. *)
Lemma pagination_terminates_witness :
  exists s,
    collect sample_repr sample_stdout endless_upstream (JStr "k") "ml" "2024-05-01"
    = (Val Next, s) /\
    discover_pages (trace s) = py_range 1 999.
Proof.
  apply (proj2 (proj2 (proj2 (pagination_terminates sample_repr sample_stdout
                                endless_upstream (JStr "k") "ml" "2024-05-01")))).
  intros n page.
  exists {| status_code := 200;
            body := Some (JObj [("results", JArr [sample_record])]) |},
         (JObj [("results", JArr [sample_record])]), [sample_record].
  repeat split; try reflexivity; try discriminate.
  apply Forall_cons. split; [|apply Forall_nil_2].
  exists [("id", JInt 7); ("title", JStr "Drishyam")]. split; [reflexivity|].
  vm_compute. reflexivity.
Defined.

(** A configuration as the configuration form builds it, with a float
    added. *)
Definition sample_config : json :=
  JObj [("api_key", JStr "0123456789abcdef");
        ("languages", JArr [JStr "ml"; JStr "hi"]);
        ("ratio", JFloat (FFin 3 (-1)))].

(** C9, witness. *)
Lemma decode_encode_user_config_witness :
  exists config_string,
    encode_user_config sample_repr sample_room sample_config = Val config_string /\
    decode_user_config sample_float sample_room config_string = sample_config.
Proof.
  apply (decode_encode_user_config sample_repr sample_float sample_room sample_room
           sample_config).
  - vm_compute. reflexivity.
  - vm_compute. reflexivity.
Defined.

(** A text of two surrogates that together spell U+1F600, and the text
    of that one code point. *)
Definition surrogate_pair : string := utf8_encode [0xD83D; 0xDE00]%N.

Definition joined_pair : string := utf8_encode [0x1F600%N].

(** C9, counterexample.  A key that is a text of two surrogates is
    written as two escapes, which [json.loads] reads as the one code
    point they spell together: the configuration that comes back is
    another one. *)
Lemma surrogate_pair_not_recovered :
  ~ (forall py_repr py_float encoder_room scanner_room,
       round_trips py_repr py_float encoder_room scanner_room).
Proof.
  intros H.
  pose proof (H sample_repr sample_float sample_room sample_room
                [("api_key", JStr surrogate_pair)]
                (b64encode (json_text sample_repr (JObj [("api_key", JStr surrogate_pair)]))))
    as Hback.
  assert (decode_user_config sample_float sample_room
            (b64encode (json_text sample_repr (JObj [("api_key", JStr surrogate_pair)])))
          = JObj [("api_key", JStr joined_pair)]) as Hjoined
    by (vm_compute; reflexivity).
  rewrite Hjoined in Hback.
  assert (JObj [("api_key", JStr joined_pair)] = JObj [("api_key", JStr surrogate_pair)])
    as Heq by (apply Hback; vm_compute; reflexivity).
  vm_compute in Heq. discriminate Heq.
Qed.

(** ** More sample data *)

(** A configuration without a key: [{}], encoded. *)
Definition sample_empty_config_string : string := "e30=".

(** X1, witness: a configuration that decodes to a dict without a key. *)
Lemma catalog_rejects_bad_config_witness :
  catalog sample_repr sample_float sample_room sample_empty_config_string "ml" (Some "abc")
    sample_server
  = (Val {| status := 400; metas := [] |}, sample_server).
Proof.
  apply (catalog_rejects_bad_config sample_repr sample_float sample_room
           sample_empty_config_string "ml" (Some "abc") sample_server).
  right. right. exists []. split; vm_compute; reflexivity.
Defined.

(** What the catalog handler answers on [sample_server] for [skip=-1]. *)
Definition sample_answer : reply :=
  {| status := 200;
     metas := [JObj [("id", JStr "tt3417422"); ("type", JStr "movie");
                     ("name", JStr "Drishyam"); ("poster", JNull);
                     ("description", JStr ""); ("releaseInfo", JStr "");
                     ("background", JNull)]] |}.

(** X3, witness: a request with a negative [skip]. *)
Lemma catalog_answer_bounded_witness :
  (length (metas sample_answer) <= 100)%nat /\
  Forall (fun meta => truthy meta = true) (metas sample_answer) /\
  forall meta, meta ∈ metas sample_answer ->
    exists api_key cached item,
      py_index (decode_user_config sample_float sample_room sample_config_string) "api_key"
      = Val api_key /\
      movie_cache sample_server !! cache_key sample_repr api_key "ml" = Some cached /\
      item ∈ cached /\ meta = to_stremio_meta sample_repr item.
Proof.
  apply (catalog_answer_bounded sample_repr sample_float sample_room sample_config_string "ml"
           (Some "-1") sample_server sample_answer sample_server).
  vm_compute. reflexivity.
Defined.

(** X6, witness. *)
Lemma fetch_collects_every_offer_witness :
  exists unique tr,
    fetch_and_cache_movies sample_repr sample_upper sample_stdout (steady sample_answers)
      (JStr "k") "ml" "2024-05-01" ∅
    = (Val unique, <[cache_key sample_repr (JStr "k") "ml" := unique]> ∅, tr) /\
    deduplicated (concat [[sample_item]]) unique /\
    (NoDup (imdb_of <$> concat [[sample_item]]) -> unique = concat [[sample_item]]) /\
    discover_pages tr = py_range 1 (S (length [[sample_record]])).
Proof.
  apply (fetch_collects_every_offer sample_repr sample_upper sample_stdout sample_answers
           (JStr "k") "ml" "2024-05-01" ∅ [[sample_record]] [[sample_item]]).
  - simpl. lia.
  - intros [|i] page Hp; [|destruct i; discriminate Hp].
    injection Hp as <-.
    exists {| status_code := 200;
              body := Some (JObj [("results", JArr [sample_record])]) |},
           (JObj [("results", JArr [sample_record])]).
    repeat split; reflexivity || discriminate.
  - vm_compute. exact I.
  - repeat constructor.
    exists [("id", JInt 7); ("title", JStr "Drishyam")], (JInt 7), (JStr "Drishyam"),
      {| status_code := 404;
         body := Some (JObj [("results",
                   JObj [("IN", JObj [("flatrate", JArr [])])])]) |},
      (JObj [("results", JObj [("IN", JObj [("flatrate", JArr [])])])]),
      {| status_code := 200; body := Some (JObj [("imdb_id", JStr "tt3417422")]) |},
      (JObj [("imdb_id", JStr "tt3417422")]), "tt3417422".
    repeat split; reflexivity.
Defined.

(** The address the form is sent to. *)
Definition sample_host_url : string := "http://localhost:10000/".

(** X8, witness: a key of blanks. *)
Lemma configure_post_requires_key_witness :
  configure_post sample_repr sample_room (Some "   ") ["hi"] sample_host_url
  = Val (Text 400 "API key is required").
Proof.
  apply (configure_post_requires_key sample_repr sample_room (Some "   ") ["hi"] sample_host_url).
  vm_compute. reflexivity.
Defined.

(** X9, witness: a key with blanks around it, and two languages. *)
Lemma configure_post_round_trip_witness :
  exists config_string,
    configure_post sample_repr sample_room (Some " 0123abc ") ["ml"; "hi"] sample_host_url
    = Val (Redirect (py_rstrip_slash sample_host_url +:+ "/" +:+ config_string
                     +:+ "/manifest.json")) /\
    decode_user_config sample_float sample_room config_string
    = JObj [("api_key", JStr (py_strip " 0123abc "));
            ("languages", JArr (JStr <$> chosen ["ml"; "hi"]))] /\
    py_strip " 0123abc " <> "".
Proof.
  apply (configure_post_round_trip sample_repr sample_float sample_room sample_room
           " 0123abc " ["ml"; "hi"] sample_host_url); vm_compute; reflexivity.
Defined.

(** X10, witness. *)
Lemma configure_post_plain_address_witness :
  exists config_string,
    configure_post sample_repr sample_room (Some " 0123abc ") ["ml"; "hi"] sample_host_url
    = Val (Redirect (py_rstrip_slash sample_host_url +:+ "/" +:+ config_string
                     +:+ "/manifest.json")) /\
    forallb url_plain (list_ascii_of_string config_string) = true.
Proof.
  apply (configure_post_plain_address sample_repr sample_room " 0123abc " ["ml"; "hi"]
           sample_host_url); vm_compute; reflexivity.
Defined.

(** The configuration [{"api_key": "k", "languages": ["ml", "xx"]}],
    encoded. *)
Definition sample_languages_config_string : string :=
  Eval vm_compute in
    b64encode (json_text sample_repr
                 (JObj [("api_key", JStr "k");
                        ("languages", JArr [JStr "ml"; JStr "xx"])])).

(** X11, witness. *)
Lemma manifest_lists_languages_witness :
  exists body catalogs,
    manifest sample_float sample_upper sample_room sample_languages_config_string
    = Val (Json 200 body) /\
    py_get body "catalogs" = Val (JArr catalogs) /\
    Forall2 (fun lang entry =>
               py_get entry "type" = Val (JStr "movie") /\
               py_get entry "id" = Val (JStr lang) /\
               py_get entry "name" = Val (display_name sample_upper lang))
            ["ml"; "xx"] catalogs.
Proof.
  apply (manifest_lists_languages sample_float sample_upper sample_room
           sample_languages_config_string
           [("api_key", JStr "k"); ("languages", JArr [JStr "ml"; JStr "xx"])]
           (JStr "k") ["ml"; "xx"]); vm_compute; reflexivity.
Defined.

(** The configuration [{"api_key": "k", "languages": ["ml", 5, "hi"]}],
    encoded. *)
Definition sample_mixed_config_string : string :=
  Eval vm_compute in
    b64encode (json_text sample_repr
                 (JObj [("api_key", JStr "k");
                        ("languages", JArr [JStr "ml"; JInt 5; JStr "hi"])])).

(** X12, witness: a language that is an integer. *)
Lemma manifest_needs_texts_witness :
  manifest sample_float sample_upper sample_room sample_mixed_config_string = Exn.
Proof.
  apply (manifest_needs_texts sample_float sample_upper sample_room sample_mixed_config_string
           [("api_key", JStr "k"); ("languages", JArr [JStr "ml"; JInt 5; JStr "hi"])]
           (JStr "k") (JArr [JStr "ml"; JInt 5; JStr "hi"])
           [JStr "ml"; JInt 5; JStr "hi"]).
  - vm_compute. reflexivity.
  - reflexivity.
  - reflexivity.
  - reflexivity.
  - intros H. inversion H as [|? ? _ H']. inversion H' as [|? ? [s Hs] _].
    discriminate Hs.
Defined.

(** X14, witness: the thread of a refresh for [["ml", "hi"]]. *)
Lemma do_refresh_fills_every_language_witness :
  let final :=
    do_refresh sample_repr sample_upper sample_stdout (fun _ => sample_upstream)
      (fun _ => "2024-05-01") (JStr "k") (JArr (JStr <$> ["ml"; "hi"])) ∅ in
  (forall i lang,
     ["ml"; "hi"] !! i = Some lang ->
     (forall j, (i < j)%nat -> ["ml"; "hi"] !! j <> Some lang) ->
     exists unique,
       final !! cache_key sample_repr (JStr "k") lang = Some unique /\
       forall any_cache,
         (fetch_and_cache_movies sample_repr sample_upper sample_stdout sample_upstream
            (JStr "k") lang "2024-05-01" any_cache).1.2
           !! cache_key sample_repr (JStr "k") lang = Some unique) /\
  (forall key,
     (forall lang, lang ∈ ["ml"; "hi"] -> key <> cache_key sample_repr (JStr "k") lang) ->
     final !! key = (∅ : gmap string (list json)) !! key).
Proof.
  refine (do_refresh_fills_every_language sample_repr sample_upper sample_stdout
            (fun _ => sample_upstream) (fun _ => "2024-05-01") (JStr "k") ["ml"; "hi"] ∅ _).
  apply Forall_cons; split; [vm_compute; reflexivity|].
  apply Forall_cons; split; [vm_compute; reflexivity|].
  apply Forall_nil_2.
Defined.

(** X15, witness: the thread of a refresh for [["ml", 5, "hi"]]. *)
Lemma do_refresh_stops_at_no_text_witness :
  do_refresh sample_repr sample_upper sample_stdout (fun _ => sample_upstream)
    (fun _ => "2024-05-01") (JStr "k")
    (JArr ((JStr <$> ["ml"]) ++ JInt 5 :: [JStr "hi"])) ∅
  = do_refresh sample_repr sample_upper sample_stdout (fun _ => sample_upstream)
      (fun _ => "2024-05-01") (JStr "k") (JArr (JStr <$> ["ml"])) ∅.
Proof.
  apply (do_refresh_stops_at_no_text sample_repr sample_upper sample_stdout
           (fun _ => sample_upstream) (fun _ => "2024-05-01") (JStr "k") ["ml"]
           (JInt 5) [JStr "hi"] ∅).
  intros s. discriminate.
Defined.

(** X20, witness: the thread of a refresh for [ml], a lone surrogate
    and [hi], on a stream that writes UTF-8. *)
Lemma do_refresh_stops_at_unwritten_witness :
  do_refresh sample_repr sample_upper sample_stdout (fun _ => sample_upstream)
    (fun _ => "2024-05-01") (JStr "k")
    (JArr ((JStr <$> ["ml"]) ++ JStr lone_surrogate :: [JStr "hi"])) ∅
  = do_refresh sample_repr sample_upper sample_stdout (fun _ => sample_upstream)
      (fun _ => "2024-05-01") (JStr "k") (JArr (JStr <$> ["ml"])) ∅.
Proof.
  apply (do_refresh_stops_at_unwritten sample_repr sample_upper sample_stdout
           (fun _ => sample_upstream) (fun _ => "2024-05-01") (JStr "k") ["ml"]
           lone_surrogate [JStr "hi"] ∅).
  vm_compute. reflexivity.
Defined.

(** X16, witness. *)
Lemma refresh_fills_the_catalogs_witness :
  refresh sample_float sample_room sample_languages_config_string
  = Val (Json 200 (JObj [("status", JStr "refresh started in background")]),
         Some (JStr "k", JArr (JStr <$> ["ml"; "xx"]))) /\
  forall env today before started lang skip_arg skip,
    lang ∈ ["ml"; "xx"] ->
    skip_of skip_arg = Val skip ->
    let srv := {| movie_cache :=
                    do_refresh sample_repr sample_upper sample_stdout env today
                      (JStr "k") (JArr (JStr <$> ["ml"; "xx"])) before;
                  threads := started |} in
    exists cached,
      movie_cache srv !! cache_key sample_repr (JStr "k") lang = Some cached /\
      catalog sample_repr sample_float sample_room sample_languages_config_string lang skip_arg srv
      = (Val {| status := 200;
                metas := List.filter truthy
                           (map (to_stremio_meta sample_repr)
                              (py_slice cached skip (skip + 100))) |},
         srv).
Proof.
  apply (refresh_fills_the_catalogs sample_repr sample_float sample_upper sample_stdout sample_room
           sample_languages_config_string
           [("api_key", JStr "k"); ("languages", JArr [JStr "ml"; JStr "xx"])]
           (JStr "k") ["ml"; "xx"]).
  - vm_compute. reflexivity.
  - reflexivity.
  - reflexivity.
  - apply Forall_cons; split; [vm_compute; reflexivity|].
    apply Forall_cons; split; [vm_compute; reflexivity|].
    apply Forall_nil_2.
Defined.

(** The process after a first catalog request and the end of the run it
    started. *)
Definition sample_process : server :=
  finish sample_repr sample_upper sample_stdout sample_upstream "2024-05-01" 0
    (catalog sample_repr sample_float sample_room sample_config_string "ml" None empty_server).2.

(** X17, witness. *)
Lemma served_identifiers_witness :
  NoDup (meta_id <$> metas sample_answer) /\
  Forall (fun meta => exists imdb, meta_id meta = Val (JStr imdb) /\
                                   String.prefix "tt" imdb = true)
         (metas sample_answer).
Proof.
  apply (served_identifiers sample_repr sample_float sample_upper sample_stdout sample_room
           sample_process sample_config_string "ml" None sample_answer sample_process).
  - apply reach_finish, reach_catalog, reach_start.
  - vm_compute. reflexivity.
Defined.

(** X18, witness. *)
Lemma cache_keeps_keys_witness :
  (forall config_string language skip_arg,
     is_Some (movie_cache (catalog sample_repr sample_float sample_room config_string language
                             skip_arg sample_process).2 !! "k_ml")) /\
  (forall env today i,
     is_Some (movie_cache (finish sample_repr sample_upper sample_stdout env today i
                             sample_process) !! "k_ml")).
Proof.
  apply (cache_keeps_keys sample_repr sample_float sample_upper sample_stdout sample_room
           sample_process "k_ml").
  eexists. vm_compute. reflexivity.
Defined.

(** A configuration that goes three levels deep. *)
Definition sample_deep_config : json :=
  JObj [("api_key", JStr "k"); ("languages", JArr [JArr [JStr "ml"]])].

(** X19, witnesses: a configuration that is encoded, and one that is
    not, where the encoder has room for two levels and no more. *)
Lemma encode_user_config_result_witness :
  (exists config_string,
     encode_user_config sample_repr sample_room sample_config = Val config_string /\
     is_ascii config_string = true /\
     (exists n, String.length config_string = (4 * n)%nat) /\
     b64decode config_string = Val (json_text sample_repr sample_config)) /\
  encode_user_config sample_repr 0 sample_deep_config = Exn.
Proof.
  split.
  - apply (encode_user_config_result sample_repr sample_room sample_config).
    vm_compute. reflexivity.
  - apply (encode_user_config_result sample_repr 0 sample_deep_config).
    vm_compute. reflexivity.
Defined.

